(** * ErAditya1/automation: spreadsheet-driven form filling

    A shallow embedding of the repository's programs:

    - [Excel]    : [src/excel.js]  ([readExcel], [normalizeRow]);
    - [FormFill] : [src/fillLoanDisbursementFromExcel.js]  (Puppeteer);
    - [Config]   : [src/config.js]  (the selectors);
    - [Driver]   : [automation.customized.js]  (Playwright).

    JavaScript values, strings and objects are modelled in [JS]; code that
    can throw and that talks to the outside (file system, parsers, browser)
    runs in the state-and-exception monad [M]. The browser is modelled in
    [Page]: every call on the page is recorded, and how it ends (resolved or
    rejected, and with what) is left to an arbitrary [Page.Browser].

    The definitions come first; the properties follow, from [Properties]
    on. *)

From Stdlib Require Import String Ascii List ZArith Bool Arith Lia DecimalString RelationClasses.
Import ListNotations.
Open Scope string_scope.

(** ** JavaScript values, strings and objects *)

Module JS.

(** The values a spreadsheet cell, a record field or a configuration entry
    holds. A number is kept as the text [String(n)] gives for it; [Obj] is
    any other object (a Date, a rich-text cell, an inherited method), kept as
    the text its string conversion gives. *)
Inductive value : Type :=
| Undefined
| Null
| Bool (b : bool)
| Num (text : string)
| Str (s : string)
| Obj (text : string).

(** [!!v] *)
Definition truthy (v : value) : bool :=
  match v with
  | Undefined | Null => false
  | Bool b => b
  | Num t => negb (t =? "0") && negb (t =? "NaN")
  | Str s => negb (s =? "")
  | Obj _ => true
  end.

(** [String(v)], also what a template literal inserts for [v]. *)
Definition to_string (v : value) : string :=
  match v with
  | Undefined => "undefined"
  | Null => "null"
  | Bool true => "true"
  | Bool false => "false"
  | Num t => t
  | Str s => s
  | Obj t => t
  end.

(** [v === undefined || v === null] *)
Definition nullish (v : value) : bool :=
  match v with
  | Undefined | Null => true
  | _ => false
  end.

(** [a || b] *)
Definition or (a b : value) : value := if truthy a then a else b.

(** *** Strings

    Strings are byte strings; case mapping and white space are those of
    ASCII, other bytes are left as they are. *)

Definition lower_ascii (c : ascii) : ascii :=
  let n := nat_of_ascii c in
  if Nat.leb 65 n && Nat.leb n 90 then ascii_of_nat (n + 32) else c.

Fixpoint toLowerCase (s : string) : string :=
  match s with
  | EmptyString => EmptyString
  | String c r => String (lower_ascii c) (toLowerCase r)
  end.

Definition is_space (c : ascii) : bool :=
  let n := nat_of_ascii c in
  (Nat.leb 9 n && Nat.leb n 13) || Nat.eqb n 32.

Fixpoint trimStart (s : string) : string :=
  match s with
  | EmptyString => EmptyString
  | String c r => if is_space c then trimStart r else s
  end.

(** [trimEnd] drops the white space after the last other character. *)
Fixpoint trimEnd (s : string) : string :=
  match s with
  | EmptyString => EmptyString
  | String c r =>
      match trimEnd r with
      | EmptyString => if is_space c then EmptyString else String c EmptyString
      | r' => String c r'
      end
  end.

Definition trim (s : string) : string := trimEnd (trimStart s).

(** [s.startsWith(p)] *)
Definition startsWith (s p : string) : bool := String.prefix p s.

(** [s.includes(sub)] *)
Fixpoint includes (s sub : string) : bool :=
  String.prefix sub s ||
  match s with
  | EmptyString => false
  | String _ r => includes r sub
  end.

(** *** Objects

    A plain object is the list of its own enumerable properties, in the
    order [Object.keys] gives them (insertion order; the integer-like keys
    that JavaScript moves to the front do not occur among the names this
    program looks for). *)
Definition object : Type := list (string * value).

Definition keys (o : object) : list string := map fst o.

Fixpoint get_own (o : object) (k : string) : option value :=
  match o with
  | [] => None
  | (k', v) :: r => if k' =? k then Some v else get_own r k
  end.

Definition has_own (o : object) (k : string) : bool :=
  match get_own o k with Some _ => true | None => false end.

Fixpoint assign (o : object) (k : string) (v : value) : object :=
  match o with
  | [] => [(k, v)]
  | (k', v') :: r => if k' =? k then (k', v) :: r else (k', v') :: assign r k v
  end.

(** [o[k] = v] for a primitive [v]: assigning to [__proto__] reaches the
    inherited setter, which ignores a primitive and creates no property. *)
Definition set (o : object) (k : string) (v : value) : object :=
  if k =? "__proto__" then o else assign o k v.

(** What [Object.prototype] answers for the names it defines. *)
Definition object_prototype (k : string) : option value :=
  if k =? "constructor" then Some (Obj "function Object() { [native code] }")
  else if k =? "__proto__" then Some (Obj "[object Object]")
  else if existsb (String.eqb k)
            ["hasOwnProperty"; "isPrototypeOf"; "propertyIsEnumerable";
             "toString"; "toLocaleString"; "valueOf";
             "__defineGetter__"; "__defineSetter__";
             "__lookupGetter__"; "__lookupSetter__"]
  then Some (Obj ("function " ++ k ++ "() { [native code] }"))
  else None.

(** [o[k]] on an object literal: own property, else [Object.prototype]. *)
Definition get (o : object) (k : string) : value :=
  match get_own o k with
  | Some v => v
  | None =>
      match object_prototype k with
      | Some v => v
      | None => Undefined
      end
  end.

(** An [Error]: [String(e)] is [name: message]. *)
Record error : Type := Error_ { name : string; message : string; stack : string }.

Definition Error (msg : string) : error :=
  {| name := "Error"; message := msg; stack := "" |}.

Definition TypeError (msg : string) : error :=
  {| name := "TypeError"; message := msg; stack := "" |}.

(** [String(e)] *)
Definition error_to_string (e : error) : string :=
  if message e =? "" then name e
  else if name e =? "" then message e
  else name e ++ ": " ++ message e.

(** [e.message || e], converted to a string. *)
Definition message_or_error (e : error) : string :=
  if message e =? "" then error_to_string e else message e.

End JS.

(** ** Computations that throw and act on a state *)

Inductive outcome (A : Type) : Type :=
| Ok (a : A)
| Throw (e : JS.error).
Arguments Ok {A} a.
Arguments Throw {A} e.

Definition M (S A : Type) : Type := S -> outcome A * S.

Definition ret {S A} (a : A) : M S A := fun s => (Ok a, s).

Definition throw {S A} (e : JS.error) : M S A := fun s => (Throw e, s).

Definition bind {S A B} (m : M S A) (k : A -> M S B) : M S B :=
  fun s =>
    match m s with
    | (Ok a, s') => k a s'
    | (Throw e, s') => (Throw e, s')
    end.

(** [try { m } catch (e) { h e }] *)
Definition try_catch {S A} (m : M S A) (h : JS.error -> M S A) : M S A :=
  fun s =>
    match m s with
    | (Ok a, s') => (Ok a, s')
    | (Throw e, s') => h e s'
    end.

(** [promise.catch(() => a)] *)
Definition or_else {S A} (m : M S A) (a : A) : M S A :=
  try_catch m (fun _ => ret a).

Definition lift {S A} (r : outcome A) : M S A := fun s => (r, s).

Definition modify {S} (f : S -> S) : M S unit := fun s => (Ok tt, f s).

Definition gets {S A} (f : S -> A) : M S A := fun s => (Ok (f s), s).

Declare Scope js_scope.
Delimit Scope js_scope with js.
Notation "x <- m ;; k" := (bind m (fun x => k))
  (at level 61, m at next level, right associativity) : js_scope.
Notation "m ;;; k" := (bind m (fun _ => k))
  (at level 61, right associativity) : js_scope.
Open Scope js_scope.

(** Pure code that can throw. *)
Definition obind {A B} (r : outcome A) (k : A -> outcome B) : outcome B :=
  match r with
  | Ok a => k a
  | Throw e => Throw e
  end.

Fixpoint omap {A B} (f : A -> outcome B) (l : list A) : outcome (list B) :=
  match l with
  | [] => Ok []
  | a :: r => obind (f a) (fun b => obind (omap f r) (fun bs => Ok (b :: bs)))
  end.

(** ** The row source: [src/excel.js] *)

Module Excel.

(** *** What the two parsing libraries deliver *)

(** An exceljs row: its number, whether [eachRow] visits it (it has values),
    and the cells [eachCell({ includeEmpty: true })] visits, each with its
    column number and [cell.value]. *)
Record Row : Type :=
  { rowNumber : nat; hasValues : bool; cells : list (nat * JS.value) }.

Definition Worksheet : Type := list Row.

Record Workbook : Type := { worksheets : list Worksheet }.

(** A sheetjs sheet, as the rows [sheet_to_json(sheet, { defval: '' })]
    makes of it. *)
Definition Sheet : Type := list JS.object.

Record XlsxWorkbook : Type :=
  { SheetNames : list string; Sheets : list (string * Sheet) }.

(** The file at [resolved], as the file system and the parsers see it. *)
Record File : Type :=
  { resolved : string;
    existsSync : bool;
    stat_isFile : bool;
    stat_size : Z;
    exceljs_readFile : outcome Workbook;
    xlsx_readFile : outcome XlsxWorkbook }.

(** The calls [readExcel] makes to the outside, in order. *)
Inductive call : Type :=
| ExistsSync
| StatSync
| ExceljsReadFile
| XlsxReadFile
| ConsoleWarn (reason : string).

Definition emit (c : call) : M (list call) unit := modify (fun t => (t ++ [c])%list).

(** *** [normalizeRow] (lines 91-111) *)

(** [obj.hasOwnProperty(n)]: the method is looked up on the object itself,
    so an own property of that name (a string, from a column of that title)
    is what gets called, and the call throws. *)
Definition hasOwnProperty (obj : JS.object) (n : string) : outcome bool :=
  match JS.get_own obj "hasOwnProperty" with
  | Some _ => Throw (JS.TypeError "obj.hasOwnProperty is not a function")
  | None => Ok (JS.has_own obj n)
  end.

(** [k.toLowerCase() === n.toLowerCase()] *)
Definition same_name (n k : string) : bool :=
  JS.toLowerCase k =? JS.toLowerCase n.

(** The local [get]: the first of [names] the object has, exactly or up to
    letter case. *)
Fixpoint get (obj : JS.object) (names : list string) : outcome JS.value :=
  match names with
  | [] => Ok (JS.Str "")
  | n :: rest =>
      obind (hasOwnProperty obj n) (fun own =>
        if own then Ok (JS.get obj n)
        else
          match find (same_name n) (JS.keys obj) with
          | Some lower =>
              if negb (lower =? "") then Ok (JS.get obj lower) else get obj rest
          | None => get obj rest
          end)
  end.

(** [get(names) || ''] *)
Definition field (obj : JS.object) (names : list string) : outcome JS.value :=
  obind (get obj names) (fun v => Ok (JS.or v (JS.Str ""))).

Definition normalizeRow (obj : JS.object) : outcome JS.object :=
  obind (field obj ["UserName"; "username"; "user"]) (fun UserName =>
  obind (field obj ["Password"; "password"]) (fun Password =>
  obind (field obj ["Language"; "language"]) (fun Language =>
  obind (field obj ["LoginDataTime"; "loginDate"; "LoginDate"]) (fun LoginDataTime =>
  obind (field obj ["ValidateCaptcha"; "captcha"; "ValidateCaptcha"]) (fun ValidateCaptcha =>
  obind (field obj ["NextPage"; "nextpage"]) (fun NextPage =>
  obind (field obj ["Field1"; "field1"]) (fun Field1 =>
  obind (field obj ["Field2"; "field2"]) (fun Field2 =>
  Ok [("UserName", UserName); ("Password", Password);
      ("Language", Language); ("LoginDataTime", LoginDataTime);
      ("ValidateCaptcha", ValidateCaptcha); ("NextPage", NextPage);
      ("Field1", Field1); ("Field2", Field2)])))))))).

(** *** The exceljs path (lines 28-58) *)

(** [worksheet.getRow(n)]: the cells of row [n], none when it is absent. *)
Definition getRow (ws : Worksheet) (n : nat) : list (nat * JS.value) :=
  match find (fun r => Nat.eqb (rowNumber r) n) ws with
  | Some r => cells r
  | None => []
  end.

(** [worksheet.eachRow]: the rows that have values. *)
Definition eachRow (ws : Worksheet) : list Row := filter hasValues ws.

(** The sparse array [headers], latest assignment first. *)
Definition Headers : Type := list (nat * string).

Fixpoint header_at (hs : Headers) (col : nat) : option string :=
  match hs with
  | [] => None
  | (c, h) :: r => if Nat.eqb c col then Some h else header_at r col
  end.

(** [(cell.value ?? '').toString().trim()] *)
Definition header_text (v : JS.value) : string :=
  JS.trim (JS.to_string (if JS.nullish v then JS.Str "" else v)).

Definition read_headers (headerRow : list (nat * JS.value)) : Headers :=
  fold_left (fun hs cell => (fst cell, header_text (snd cell)) :: hs) headerRow [].

(** [cell.value !== null && cell.value !== undefined
      ? cell.value.toString().trim() : ''] *)
Definition cell_text (v : JS.value) : string :=
  if JS.nullish v then "" else JS.trim (JS.to_string v).

(** The body of [row.eachCell]: [(headers[colNumber] || '').trim()], and
    the assignment when that is not empty. *)
Definition put_cell (headers : Headers) (obj : JS.object) (cell : nat * JS.value)
  : JS.object :=
  let header :=
    JS.trim (match header_at headers (fst cell) with Some h => h | None => "" end) in
  if negb (header =? "") then JS.set obj header (JS.Str (cell_text (snd cell)))
  else obj.

Definition row_object (headers : Headers) (r : Row) : JS.object :=
  fold_left (put_cell headers) (cells r) [].

(** The body of [worksheet.eachRow]: row 1 is the header row. *)
Fixpoint data_rows (headers : Headers) (rows : list Row)
  : outcome (list JS.object) :=
  match rows with
  | [] => Ok []
  | r :: rest =>
      if Nat.eqb (rowNumber r) 1 then data_rows headers rest
      else
        obind (normalizeRow (row_object headers r)) (fun rec =>
        obind (data_rows headers rest) (fun recs => Ok (rec :: recs)))
  end.

Definition read_workbook (wb : Workbook) : outcome (list JS.object) :=
  match worksheets wb with
  | [] => Ok []
  | worksheet :: _ =>
      data_rows (read_headers (getRow worksheet 1)) (eachRow worksheet)
  end.

(** The [try] block of lines 28-58. *)
Definition primary (f : File) : M (list call) (list JS.object) :=
  emit ExceljsReadFile ;;;
  workbook <- lift (exceljs_readFile f) ;;
  lift (read_workbook workbook).

(** *** The sheetjs path (lines 65-84) *)

(** [XLSX.utils.sheet_to_json(workbook.Sheets[sheetName], { defval: '' })];
    a name without a sheet gives no rows. *)
Fixpoint sheet_to_json (sheets : list (string * Sheet)) (sheetName : string)
  : list JS.object :=
  match sheets with
  | [] => []
  | (n, s) :: r => if n =? sheetName then s else sheet_to_json r sheetName
  end.

(** [r[k] === null || r[k] === undefined ? '' : String(r[k]).trim()] *)
Definition raw_text (v : JS.value) : string :=
  if JS.nullish v then "" else JS.trim (JS.to_string v).

(** The [forEach] over [Object.keys(r)]. *)
Definition raw_object (r : JS.object) : JS.object :=
  fold_left (fun obj k => JS.set obj k (JS.Str (raw_text (JS.get r k))))
            (JS.keys r) [].

Definition read_xlsx (wb : XlsxWorkbook) : outcome (list JS.object) :=
  match SheetNames wb with
  | [] => Ok []
  | sheetName :: _ =>
      if sheetName =? "" then Ok []
      else omap (fun r => normalizeRow (raw_object r))
                (sheet_to_json (Sheets wb) sheetName)
  end.

(** The [try] block of lines 65-84. *)
Definition secondary (f : File) : M (list call) (list JS.object) :=
  emit XlsxReadFile ;;;
  workbook <- lift (xlsx_readFile f) ;;
  lift (read_xlsx workbook).

(** *** [readExcel] (lines 15-88) *)

Definition not_found (f : File) : JS.error :=
  JS.Error ("Excel file not found: " ++ resolved f).

Definition not_regular (f : File) : JS.error :=
  JS.Error ("Excel file is empty or not a regular file: " ++ resolved f).

Definition both_failed (err : JS.error) : JS.error :=
  JS.Error ("Failed to read Excel with both exceljs and xlsx: "
            ++ JS.message_or_error err).

Definition readExcel (f : File) : M (list call) (list JS.object) :=
  emit ExistsSync ;;;
  if negb (existsSync f) then throw (not_found f)
  else
    emit StatSync ;;;
    if negb (stat_isFile f) || (stat_size f =? 0)%Z then throw (not_regular f)
    else
      first <- try_catch (rows <- primary f ;; ret (Some rows))
                 (fun err =>
                    emit (ConsoleWarn (JS.message_or_error err)) ;;;
                    ret None) ;;
      match first with
      | Some rows => ret rows
      | None => try_catch (secondary f) (fun err => throw (both_failed err))
      end.

End Excel.

(** ** The browser page, as both programs drive it *)

Module Page.

(** What [document.querySelector] finds: the properties the scripts read. *)
Record Element : Type :=
  { tagName : string;
    type : string;
    readOnly : bool;
    checked : bool;
    options : list (string * string) (* text, value *) }.

(** What a script run in the page does to the element it found. *)
Inductive Effect : Type :=
| ScrollIntoView
| FocusElement
| RemoveReadonly
| SetChecked (b : bool)
| SetValue (v : string)
| Dispatch (event : string)
| ClickElement
| SubmitForm.

(** The calls on [page] (Puppeteer's and Playwright's). *)
Inductive Call : Type :=
| WaitForSelector (selector : string) (timeout : Z)
| Evaluate (script selector : string)
| Click (selector : string)
| Focus (selector : string)
| Select (selector value : string)
| Query (selector : string)
| Goto (url : string)
| WaitForTimeout (ms : Z)
| Fill (selector value : string)
| SelectOption (selector value : string)
| SelectOptionLabel (selector label : string)
| IsVisible (selector : string)
| Url
| WaitForNavigation
| WaitForLoadState (state : string) (timeout : Z)
| Screenshot (path : string)
| StorageState (path : string).

Inductive Event : Type :=
| Resolved (c : Call) (effects : list Effect)
| Rejected (c : Call) (e : JS.error).

(** The page's side: how the [n]-th call ends and what it finds. Nothing is
    assumed of it; it may change its answers from one call to the next. *)
Record Browser : Type :=
  { rejects : nat -> Call -> option JS.error;
    querySelector : nat -> string -> option Element;
    select_values : nat -> string -> string -> list string;
    handle : nat -> string -> bool;
    visible : nat -> string -> bool;
    url : nat -> string }.

(** The calls made so far, latest first. *)
Definition World : Type := list Event.

Section Calls.

Variable B : Browser.

(** A call that the page may reject. *)
Definition perform {A} (c : Call) (result : nat -> A * list Effect) : M World A :=
  fun w =>
    let n := length w in
    match rejects B n c with
    | Some e => (Throw e, Rejected c e :: w)
    | None => (Ok (fst (result n)), Resolved c (snd (result n)) :: w)
    end.

Definition waitForSelector (selector : string) (timeout : Z) : M World unit :=
  perform (WaitForSelector selector timeout) (fun _ => (tt, [])).

Definition click (selector : string) : M World unit :=
  perform (Click selector) (fun _ => (tt, [])).

Definition focus (selector : string) : M World unit :=
  perform (Focus selector) (fun _ => (tt, [])).

Definition goto (target : string) : M World unit :=
  perform (Goto target) (fun _ => (tt, [])).

(** [page.$(selector)]: whether it resolves to an element handle. *)
Definition query (selector : string) : M World bool :=
  perform (Query selector) (fun n => (handle B n selector, [])).

(** Puppeteer's [page.select]: the option values it selected. *)
Definition select (selector value : string) : M World (list string) :=
  perform (Select selector value) (fun n => (select_values B n selector value, [])).

(** [page.evaluate(script, selector, ...)]: the script runs on what
    [document.querySelector(selector)] finds at that moment. *)
Definition evaluate {A} (script selector : string)
    (body : option Element -> A * list Effect) : M World A :=
  perform (Evaluate script selector) (fun n => body (querySelector B n selector)).

(** Puppeteer's [page.waitForTimeout], in the versions that have it, is a
    bare timer ([new Promise(r => setTimeout(r, ms))]): it asks nothing of the
    page and resolves. *)
Definition sleep (ms : Z) : M World unit :=
  fun w => (Ok tt, Resolved (WaitForTimeout ms) [] :: w).

(** Playwright's calls. *)
Definition waitForTimeout (ms : Z) : M World unit :=
  perform (WaitForTimeout ms) (fun _ => (tt, [])).

Definition fill (selector value : string) : M World unit :=
  perform (Fill selector value) (fun _ => (tt, [SetValue value])).

Definition selectOption (selector value : string) : M World unit :=
  perform (SelectOption selector value) (fun _ => (tt, [])).

Definition selectOptionLabel (selector label : string) : M World unit :=
  perform (SelectOptionLabel selector label) (fun _ => (tt, [])).

Definition isVisible (selector : string) : M World bool :=
  perform (IsVisible selector) (fun n => (visible B n selector, [])).

Definition page_url : M World string :=
  perform Url (fun n => (url B n, [])).

Definition waitForNavigation : M World unit :=
  perform WaitForNavigation (fun _ => (tt, [])).

Definition waitForLoadState (state : string) (timeout : Z) : M World unit :=
  perform (WaitForLoadState state timeout) (fun _ => (tt, [])).

Definition screenshot (path : string) : M World unit :=
  perform (Screenshot path) (fun _ => (tt, [])).

Definition storageState (path : string) : M World unit :=
  perform (StorageState path) (fun _ => (tt, [])).

End Calls.

(** [opts.timeout || d]: an absent or zero option gives the default. *)
Definition or_default (o : option Z) (d : Z) : Z :=
  match o with
  | Some z => if (z =? 0)%Z then d else z
  | None => d
  end.

End Page.

(** ** The form-fill workflow: [src/fillLoanDisbursementFromExcel.js] *)

Module FormFill.

(** The double quote of the messages and of the [name] selector. *)
Definition dquote : string := String (ascii_of_nat 34) EmptyString.

Definition same (v : string) : string * JS.value := (v, JS.Str v).

(** Lines 31-71. *)
Definition DEFAULT_FIELD_MAP : JS.object :=
  [ same "Admissionno";
    ("AdmissionNoHidden", JS.Str "AdmissionNoPkey");
    same "ValueDate"; same "Product"; same "AccountNo"; same "TempAccountNo";
    same "ActivityType"; same "VoucherType"; same "ChequeNo"; same "ChequeDate";
    same "VoucherNo"; same "ContraProduct"; same "ContraAccountNo";
    same "SocietyVoucherNo"; same "Narration"; same "TotalAmount";
    same "AmountInWords";
    same "MoreDisbursementDetaos_ApplicationNo";
    same "MoreDisbursementDetaos_AdmissionNoPkey";
    same "MoreDisbursementDetaos_ProductSlNo";
    same "MoreDisbursementDetaos_LoanNo";
    same "MoreDisbursementDetaos_OldLoanNo";
    same "MoreDisbursementDetaos_DPNDate";
    same "MoreDisbursementDetaos_DPNNo";
    same "MoreDisbursementDetaos_DueDate";
    same "MoreDisbursementDetaos_DateOfAdvice";
    same "MoreDisbursementDetaos_DebitSlipNo";
    same "MoreDisbursementDetaos_LedgerFolioNo";
    same "MoreDisbursementDetaos_DCCBSBNo";
    same "MoreDisbursementDetaos_PolicyName";
    same "MoreDisbursementDetaos_ROI";
    same "MoreDisbursementDetaos_PenalROI";
    same "MoreDisbursementDetaos_IOAROI";
    same "MoreDisbursementDetaos_DisbursmentAmount";
    same "IdTransfer"; same "IdCash"; same "IdCheck" ].

(** [readExcelRows] (lines 14-20): without a first sheet name the lookup is
    [wb.Sheets[undefined]]. *)
Definition readExcelRows (readFile : outcome Excel.XlsxWorkbook)
  : outcome (list JS.object) :=
  obind readFile (fun wb =>
    let sheetName :=
      match Excel.SheetNames wb with
      | [] => "undefined"
      | n :: _ => n
      end in
    Ok (Excel.sheet_to_json (Excel.Sheets wb) sheetName)).

(** *** The safe DOM actions (lines 76-193) *)

Record ClickOpts : Type := { timeout : option Z; delay : option Z }.

Definition no_opts : ClickOpts := {| timeout := None; delay := None |}.

(** The script of [safeClick]. *)
Definition scroll_script (el : option Page.Element) : unit * list Page.Effect :=
  match el with
  | Some _ => (tt, [Page.ScrollIntoView])
  | None => (tt, [])
  end.

(** The script of [setInputValue] (lines 99-114); [val] is a string there. *)
Definition set_input_script (val : string) (el : option Page.Element)
  : unit * list Page.Effect :=
  match el with
  | None => (tt, [])
  | Some el =>
      if JS.toLowerCase (Page.tagName el) =? "select" then (tt, [])
      else
        (tt,
         ([Page.FocusElement]
          ++ (if Page.readOnly el then [Page.RemoveReadonly] else [])
          ++ (if (Page.type el =? "checkbox") || (Page.type el =? "radio")
              then [Page.SetChecked ((val =? "true") || (val =? "1"));
                    Page.Dispatch "change"]
              else [Page.SetValue val; Page.Dispatch "input";
                    Page.Dispatch "change"]))%list)
  end.

(** The script of lines 137-140. *)
Definition change_script (el : option Page.Element) : unit * list Page.Effect :=
  match el with
  | Some _ => (tt, [Page.Dispatch "change"])
  | None => (tt, [])
  end.

(** [(o.text || '').trim().toLowerCase() === (text || '').trim().toLowerCase()] *)
Definition exact_text (text : string) (o : string * string) : bool :=
  JS.toLowerCase (JS.trim (fst o)) =? JS.toLowerCase (JS.trim text).

(** [(o.text || '').toLowerCase().includes((text || '').toLowerCase())] *)
Definition contains_text (text : string) (o : string * string) : bool :=
  JS.includes (JS.toLowerCase (fst o)) (JS.toLowerCase text).

Definition choose (o : string * string) : bool * list Page.Effect :=
  (true, [Page.SetValue (snd o); Page.Dispatch "change"]).

(** The script of lines 146-164. *)
Definition select_by_text_script (text : string) (el : option Page.Element)
  : bool * list Page.Effect :=
  match el with
  | None => (false, [])
  | Some el =>
      match find (exact_text text) (Page.options el) with
      | Some opt => choose opt
      | None =>
          match find (contains_text text) (Page.options el) with
          | Some opt2 => choose opt2
          | None => (false, [])
          end
      end
  end.

(** [!!(val === true || val === 'true' || val === 1 || val === '1'
        || val === 'on')] *)
Definition should_check (val : JS.value) : bool :=
  match val with
  | JS.Bool b => b
  | JS.Num t => t =? "1"
  | JS.Str s => (s =? "true") || (s =? "1") || (s =? "on")
  | _ => false
  end.

(** The script of [setCheckbox] (lines 181-187). *)
Definition set_checkbox_script (val : JS.value) (el : option Page.Element)
  : unit * list Page.Effect :=
  match el with
  | None => (tt, [])
  | Some el =>
      let should := should_check val in
      if Bool.eqb (Page.checked el) should then (tt, [])
      else (tt, [Page.SetChecked should; Page.Dispatch "change"])
  end.

Section Actions.

Variable B : Page.Browser.

Definition safeClick (selector : string) (opts : ClickOpts) : M Page.World bool :=
  try_catch
    (Page.waitForSelector B selector (Page.or_default (timeout opts) 5000) ;;;
     Page.evaluate B "scrollIntoView" selector scroll_script ;;;
     Page.click B selector ;;;
     ret true)
    (fun _ => ret false).

Definition setInputValue (selector : string) (value : JS.value)
  : M Page.World bool :=
  if JS.nullish value then ret false
  else
    let value := JS.to_string value in
    try_catch
      (Page.waitForSelector B selector 4000 ;;;
       Page.evaluate B "setInputValue" selector (set_input_script value) ;;;
       or_else (Page.focus B selector) tt ;;;
       Page.sleep 120 ;;;
       ret true)
      (fun _ => ret false).

Definition selectOption (selector : string) (value : JS.value)
  : M Page.World bool :=
  if JS.nullish value then ret false
  else
    let value := JS.to_string value in
    try_catch
      (Page.waitForSelector B selector 4000 ;;;
       selected <- or_else (Page.select B selector value) [] ;;
       match selected with
       | _ :: _ =>
           Page.evaluate B "change" selector change_script ;;;
           Page.sleep 150 ;;;
           ret true
       | [] =>
           didByText <-
             Page.evaluate B "selectByText" selector (select_by_text_script value) ;;
           Page.sleep 100 ;;;
           ret didByText
       end)
      (fun _ => ret false).

Definition setCheckbox (selector : string) (truthy : JS.value)
  : M Page.World bool :=
  try_catch
    (Page.waitForSelector B selector 3000 ;;;
     Page.evaluate B "setCheckbox" selector (set_checkbox_script truthy) ;;;
     ret true)
    (fun _ => ret false).

End Actions.

(** *** The workflow (lines 205-369) *)

(** The row result of line 230; [ok] and [exception] are set at the end. *)
Record RowResult : Type :=
  { rowIndex : nat;
    filled : list JS.value;
    errors : list string;
    ok : option bool;
    exception : option string }.

Definition new_result (i : nat) : RowResult :=
  {| rowIndex := i; filled := []; errors := []; ok := None; exception := None |}.

(** The page and the row result under construction: what was pushed before
    an exception stays pushed. *)
Record State : Type := { page : Page.World; rowResult : RowResult }.

Definition on_page {A} (m : M Page.World A) : M State A :=
  fun s =>
    let (r, w) := m (page s) in
    (r, {| page := w; rowResult := rowResult s |}).

Definition update (f : RowResult -> RowResult) : M State unit :=
  modify (fun s => {| page := page s; rowResult := f (rowResult s) |}).

Definition push_filled (v : JS.value) : M State unit :=
  update (fun r =>
    {| rowIndex := rowIndex r; filled := (filled r ++ [v])%list;
       errors := errors r; ok := ok r; exception := exception r |}).

Definition push_error (msg : string) : M State unit :=
  update (fun r =>
    {| rowIndex := rowIndex r; filled := filled r;
       errors := (errors r ++ [msg])%list; ok := ok r; exception := exception r |}).

Definition set_ok (b : bool) : M State unit :=
  update (fun r =>
    {| rowIndex := rowIndex r; filled := filled r; errors := errors r;
       ok := Some b; exception := exception r |}).

Definition set_exception (msg : string) : M State unit :=
  update (fun r =>
    {| rowIndex := rowIndex r; filled := filled r; errors := errors r;
       ok := ok r; exception := Some msg |}).

Record Opts : Type :=
  { fieldMap : option JS.object;
    submitAfterRow : JS.value;
    clickPrepareInsteadOfPost : JS.value;
    redirectUrlAfterSubmit : JS.value }.

(** [mapHeaderToId] (lines 220-226). *)
Definition mapHeaderToId (fieldMap : JS.object) (header : string) : JS.value :=
  if header =? "" then JS.Null
  else if JS.truthy (JS.get fieldMap header) then JS.get fieldMap header
  else JS.Str header.

(** The scripts of lines 246-250 and 262-266. *)
Definition element_type_script (el : option Page.Element)
  : option string * list Page.Effect :=
  match el with
  | None => (None, [])
  | Some el => (Some (JS.toLowerCase (Page.tagName el)), [])
  end.

Definition tag_script (el : option Page.Element)
  : option string * list Page.Effect :=
  match el with
  | None => (None, [])
  | Some el =>
      (Some (if Page.type el =? "" then JS.toLowerCase (Page.tagName el)
             else Page.type el), [])
  end.

Definition click_script (el : option Page.Element) : unit * list Page.Effect :=
  match el with
  | Some _ => (tt, [Page.ClickElement])
  | None => (tt, [])
  end.

Definition submit_script (el : option Page.Element) : unit * list Page.Effect :=
  match el with
  | Some _ => (tt, [Page.SubmitForm])
  | None => (tt, [])
  end.

(** [elementType === name] *)
Definition is_tag (elementType : option string) (name : string) : bool :=
  match elementType with
  | Some t => t =? name
  | None => false
  end.

(** [fieldId.toLowerCase()]: only a string has the method. *)
Definition lower_id (fieldId : JS.value) : outcome string :=
  match fieldId with
  | JS.Str s => Ok (JS.toLowerCase s)
  | _ => Throw (JS.TypeError "fieldId.toLowerCase is not a function")
  end.

(** [rawVal === '' || rawVal === null || rawVal === undefined] *)
Definition blank (rawVal : JS.value) : bool :=
  match rawVal with
  | JS.Str s => s =? ""
  | JS.Null | JS.Undefined => true
  | _ => false
  end.

Section Workflow.

Variable B : Page.Browser.
Variable opts : Opts.

Definition the_fieldMap : JS.object :=
  match fieldMap opts with
  | Some m => m
  | None => DEFAULT_FIELD_MAP
  end.

(** Lines 276-286. *)
Definition set_by_id_or_name (fieldId val : JS.value) : M State unit :=
  ok <- on_page (setInputValue B ("#" ++ JS.to_string fieldId) val) ;;
  if ok : bool then push_filled fieldId
  else
    let nameSel := "[name=" ++ dquote ++ JS.to_string fieldId ++ dquote ++ "]" in
    ok2 <- on_page (setInputValue B nameSel val) ;;
    if ok2 : bool then push_filled (JS.Str (JS.to_string fieldId ++ "(byName)"))
    else push_error ("Could not set value for " ++ JS.to_string fieldId
                     ++ " (tried id & name)").

(** One turn of the loop over [Object.keys(row)] (lines 236-296). *)
Definition fill_field (row : JS.object) (colHeader : string) : M State unit :=
  let rawVal := JS.get row colHeader in
  if blank rawVal then ret tt
  else
    let fieldId := mapHeaderToId the_fieldMap colHeader in
    if negb (JS.truthy fieldId) then
      push_error ("No mapping for Excel header " ++ dquote ++ colHeader ++ dquote)
    else
      let selectorById := "#" ++ JS.to_string fieldId in
      elementType <-
        on_page (or_else (Page.evaluate B "elementType" selectorById
                            element_type_script) None) ;;
      let val := rawVal in
      if is_tag elementType "select" then
        ok <- on_page (selectOption B selectorById val) ;;
        (if ok : bool then push_filled fieldId
         else push_error ("Could not select " ++ JS.to_string fieldId ++ " -> "
                          ++ JS.to_string val)) ;;;
        on_page (Page.sleep 120)
      else if is_tag elementType "input" || is_tag elementType "textarea"
              || is_tag elementType "null" then
        lower <- lift (lower_id fieldId) ;;
        is_checkbox <-
          (if JS.includes lower "is" || JS.includes lower "id"
              || JS.includes lower "chk"
           then
             tag <- on_page (or_else (Page.evaluate B "tag" selectorById
                                        tag_script) None) ;;
             ret (is_tag tag "checkbox")
           else ret false) ;;
        if is_checkbox : bool then
          ok <- on_page (setCheckbox B selectorById val) ;;
          if ok : bool then push_filled fieldId
          else push_error ("Could not set checkbox " ++ JS.to_string fieldId)
        else
          set_by_id_or_name fieldId val ;;;
          on_page (Page.sleep 120)
      else
        ok <- on_page (setInputValue B ("#" ++ JS.to_string fieldId) val) ;;
        (if ok : bool then push_filled fieldId
         else push_error ("Unknown element type or not found for "
                          ++ JS.to_string fieldId)) ;;;
        on_page (Page.sleep 120).

Fixpoint fill_fields (row : JS.object) (headers : list string) : M State unit :=
  match headers with
  | [] => ret tt
  | colHeader :: rest => fill_field row colHeader ;;; fill_fields row rest
  end.

(** Lines 299-304. *)
Definition set_total_amount (row : JS.object) : M State unit :=
  let maybeDisbAmount :=
    JS.or (JS.get row "MoreDisbursementDetaos_DisbursmentAmount")
          (JS.get row (JS.toLowerCase "MoreDisbursementDetaos_DisbursmentAmount")) in
  if JS.truthy maybeDisbAmount
     && negb (JS.truthy (JS.or (JS.get row "TotalAmount")
                               (JS.get row (JS.toLowerCase "TotalAmount"))))
  then
    on_page (or_else (setInputValue B "#TotalAmount" maybeDisbAmount) false) ;;;
    ret tt
  else ret tt.

(** Lines 309-322. *)
Definition save_disbursement_details (row : JS.object) : M State unit :=
  let hasMoreDisbFields :=
    existsb (fun h => JS.startsWith h "MoreDisbursementDetaos") (JS.keys row) in
  if hasMoreDisbFields then
    savedisb <- on_page (Page.query B "#btnsaveDisbursments") ;;
    if savedisb : bool then
      on_page (Page.evaluate B "click" "#btnsaveDisbursments" click_script) ;;;
      on_page (Page.sleep 600)
    else ret tt
  else ret tt.

(** Lines 325-356. *)
Definition submit : M State unit :=
  if JS.truthy (submitAfterRow opts) then
    (if JS.truthy (clickPrepareInsteadOfPost opts) then
       btnPostExists <- on_page (Page.query B "#btnPost") ;;
       if btnPostExists : bool then
         on_page (or_else (Page.evaluate B "click" "#btnPost" click_script) tt)
       else
         on_page (safeClick B "#btnSave" no_opts) ;;; ret tt
     else
       ok <- on_page (safeClick B "#btnSave" no_opts) ;;
       if ok : bool then ret tt
       else
         on_page (or_else
                    (Page.evaluate B "submit"
                       ("form[action*=" ++ dquote ++ "TransactionPayment" ++ dquote ++ "]")
                       submit_script) tt)) ;;;
    on_page (Page.sleep 1000) ;;;
    if JS.truthy (redirectUrlAfterSubmit opts) then
      on_page (or_else (Page.goto B (JS.to_string (redirectUrlAfterSubmit opts))) tt) ;;;
      on_page (Page.sleep 600)
    else ret tt
  else ret tt.

(** The [try] block of lines 231-358. *)
Definition row_body (row : JS.object) : M State unit :=
  on_page (Page.sleep 200) ;;;
  fill_fields row (JS.keys row) ;;;
  set_total_amount row ;;;
  save_disbursement_details row ;;;
  submit ;;;
  set_ok true.

(** The [catch] block of lines 359-362:
    [String(err && err.message ? err.message : err)]. *)
Definition row_failed (err : JS.error) : M State unit :=
  set_ok false ;;;
  set_exception (JS.message_or_error err).

(** One turn of the loop over the rows, up to [results.push(rowResult)]. *)
Definition process_row (i : nat) (row : JS.object) : M Page.World RowResult :=
  fun w =>
    let s := snd (try_catch (row_body row) row_failed
                    {| page := w; rowResult := new_result i |}) in
    (Ok (rowResult s), page s).

(** The loop of lines 228-366. *)
Fixpoint process_rows (i : nat) (rows : list JS.object) (results : list RowResult)
  : M Page.World (list RowResult) :=
  match rows with
  | [] => ret results
  | row :: rest =>
      rowResult <- process_row i row ;;
      Page.sleep 500 ;;;
      process_rows (S i) rest (results ++ [rowResult])%list
  end.

End Workflow.

(** What [fillLoanDisbursementFromExcel] returns. *)
Module Summary.
Record t : Type :=
  { ok : bool;
    message : option string;
    rows : option nat;
    results : option (list RowResult) }.
End Summary.

(** The spreadsheet at [excelPath], as [fs] and sheetjs see it. *)
Record Input : Type :=
  { excelPath : string;
    existsSync : bool;
    readFile : outcome Excel.XlsxWorkbook }.

Definition fillLoanDisbursementFromExcel (B : Page.Browser) (input : Input)
    (opts : Opts) : M Page.World Summary.t :=
  if negb (existsSync input) then
    throw (JS.Error ("Excel file not found: " ++ excelPath input))
  else
    rows <- lift (readExcelRows (readFile input)) ;;
    match rows with
    | [] =>
        ret {| Summary.ok := false; Summary.message := Some "No rows in excel";
               Summary.rows := None; Summary.results := None |}
    | _ :: _ =>
        results <- process_rows B opts 0 rows [] ;;
        ret {| Summary.ok := true; Summary.message := None;
               Summary.rows := Some (length rows);
               Summary.results := Some results |}
    end.

End FormFill.

(** ** The selector registry: [src/config.js] *)

Module Config.

Definition q : string := FormFill.dquote.

Definition SELECTORS : JS.object :=
  [ ("userName", JS.Str "#UserName");
    ("password", JS.Str "#Password");
    ("language", JS.Str "#Language");
    ("loginDate", JS.Str "#LoginDataTime");
    ("validateCaptcha", JS.Str "#ValidateCaptcha");
    ("captchaImage", JS.Str "#imgcapt");
    ("loginButton",
     JS.Str ("button[type=" ++ q ++ "submit" ++ q ++ "], button[onclick*=" ++ q
             ++ "ValidateAndLogin" ++ q ++ "], #btnView, .login-btn"));
    ("nextFormSelector", JS.Str "form#profile-form");
    ("nextField1", JS.Str ("input[name=" ++ q ++ "field1" ++ q ++ "]"));
    ("nextField2", JS.Str ("input[name=" ++ q ++ "field2" ++ q ++ "]"));
    ("nextSubmit", JS.Str ("button[type=" ++ q ++ "submit" ++ q ++ "]")) ].

End Config.

(** ** The row iteration driver: [automation.customized.js] *)

Module Driver.

(** What [parseInt(text, 10)] gives. *)
Inductive parsed_int : Type :=
| NaN
| Int (z : Z).

(** Lines 21-38, read from the environment variables. *)
Record Settings : Type :=
  { LOGIN_URL : string;
    SAVE_SCREENSHOT_ON_SUCCESS : bool;
    RETRY_LOGIN : parsed_int;
    MAX_ROWS : option parsed_int;
    GLOBAL_FAS_URL : JS.value;
    LOGS_DIR : string }.

(** The page, the console and the log file. *)
Record World : Type :=
  { page : Page.World;
    console : list string;
    logfile : list string }.

Definition on_page {A} (m : M Page.World A) : M World A :=
  fun w =>
    let (r, p) := m (page w) in
    (r, {| page := p; console := console w; logfile := logfile w |}).

Definition console_log (line : string) : M World unit :=
  modify (fun w =>
    {| page := page w; console := (console w ++ [line])%list;
       logfile := logfile w |}).

(** [appendLog] (lines 46-54); the time stamp before each line of the file
    is left out. *)
Definition appendLog (line : string) : M World unit :=
  modify (fun w =>
    {| page := page w; console := (console w ++ [line])%list;
       logfile := (logfile w ++ [line])%list |}).

(** [sel] (lines 72-75). *)
Definition sel (key fallback : string) : JS.value :=
  if JS.truthy (JS.get Config.SELECTORS key) then JS.get Config.SELECTORS key
  else JS.Str fallback.

(** [path.join(dir, name)] *)
Definition path_join (dir name : string) : string := dir ++ "/" ++ name.

Definition quote' : string := String (ascii_of_nat 39) EmptyString.

Definition userName_fallback : string :=
  "#UserName, input[name=" ++ quote' ++ "UserName" ++ quote' ++ "], input#UserName".

Record ActionOpts : Type := { timeout : option Z; clickTimeout : option Z }.

Definition no_opts : ActionOpts := {| timeout := None; clickTimeout := None |}.

(** The world outside the page: the clock, the date parser of
    [formatDateForInput], and whether the [n]-th [csvWriter.writeRecords]
    fails. *)
Record Outside : Type :=
  { browser : Page.Browser;
    date_now : nat -> string;
    to_iso_date : JS.value -> string;
    write_fails : nat -> option JS.error }.

Section Helpers.

Variable E : Outside.

Let B : Page.Browser := browser E.

(** *** The safe helpers (lines 77-121) *)

Definition safeClick (selector : JS.value) (opts : ActionOpts) : M Page.World bool :=
  if negb (JS.truthy selector) then ret false
  else
    try_catch
      (or_else (Page.waitForSelector B (JS.to_string selector)
                  (Page.or_default (timeout opts) 4000)) tt ;;;
       or_else (Page.click B (JS.to_string selector)) tt ;;;
       ret true)
      (fun _ => ret false).

Definition safeFill (selector value : JS.value) (opts : ActionOpts)
  : M Page.World bool :=
  if negb (JS.truthy selector) || JS.nullish value then ret false
  else
    try_catch
      (or_else (Page.waitForSelector B (JS.to_string selector)
                  (Page.or_default (timeout opts) 4000)) tt ;;;
       or_else (Page.fill B (JS.to_string selector) (JS.to_string value)) tt ;;;
       ret true)
      (fun _ => ret false).

Definition safeSelect (selector value : JS.value) (opts : ActionOpts)
  : M Page.World bool :=
  if negb (JS.truthy selector) || JS.nullish value then ret false
  else
    try_catch
      (or_else (Page.waitForSelector B (JS.to_string selector)
                  (Page.or_default (timeout opts) 4000)) tt ;;;
       try_catch (Page.selectOption B (JS.to_string selector) (JS.to_string value))
         (fun _ =>
            or_else (Page.selectOptionLabel B (JS.to_string selector)
                       (JS.to_string value)) tt) ;;;
       ret true)
      (fun _ => ret false).

(** [formatDateForInput] (lines 123-133): an empty result for a falsy value,
    else what the [Date] parser makes of it. *)
Definition formatDateForInput (value : JS.value) : string :=
  if negb (JS.truthy value) then "" else to_iso_date E value.

(** [Date.now()], read at the current point of the run. *)
Definition now : M World string :=
  gets (fun w => date_now E (length (page w))).

(** [waitForManualCaptchaSolve] (lines 136-139). *)
Definition waitForManualCaptchaSolve : M World unit :=
  appendLog "Captcha present — waiting for manual solve in the browser..." ;;;
  on_page (Page.waitForTimeout B 10000).

(** *** [attemptLogin] (lines 142-205) *)

Definition attemptLogin (row : JS.object) : M World unit :=
  console_log "step 1" ;;;
  (if JS.truthy (JS.get row "UserName") then
     on_page (safeFill (sel "userName" userName_fallback)
                (JS.get row "UserName") no_opts) ;;; ret tt
   else ret tt) ;;;
  console_log "step 2" ;;;
  (if JS.truthy (JS.get row "Password") then
     on_page (safeFill
                (sel "password"
                   ("#Password, input[name=" ++ quote' ++ "Password" ++ quote' ++ "]"))
                (JS.get row "Password") no_opts) ;;; ret tt
   else ret tt) ;;;
  console_log "step 3" ;;;
  (if JS.truthy (JS.get row "LoginDataTime") then
     let formattedDate := formatDateForInput (JS.get row "LoginDataTime") in
     if negb (formattedDate =? "") then
       on_page (or_else
                  (safeFill
                     (sel "loginDate"
                        ("#loginDate, input[name=" ++ quote' ++ "LoginDataTime"
                         ++ quote' ++ "], #LoginDataTime"))
                     (JS.Str formattedDate) no_opts) false) ;;; ret tt
     else ret tt
   else ret tt) ;;;
  console_log "step 4" ;;;
  console_log "waiting for captcha" ;;;
  captchaExists <-
    on_page (Page.query B (JS.to_string (sel "captchaImage" "#CaptchaImage, img.captcha"))) ;;
  (if captchaExists : bool then waitForManualCaptchaSolve else ret tt) ;;;
  console_log "capcha solved" ;;;
  (* Promise.all of two promises that cannot reject *)
  on_page (or_else (Page.waitForNavigation B) tt) ;;;
  on_page (or_else
             (Page.click B
                (JS.to_string
                   (sel "loginButton"
                      ("#loginButton, button#Login, input[type=" ++ quote'
                       ++ "submit" ++ quote' ++ "]")))) tt) ;;;
  console_log "logged in".

(** *** [successHeuristic] (lines 207-241) *)

(** The loop over [logoutSelectors]. *)
Fixpoint any_visible (selectors : list JS.value) : M Page.World bool :=
  match selectors with
  | [] => ret false
  | s :: rest =>
      if negb (JS.truthy s) then any_visible rest
      else
        el <- or_else (Page.query B (JS.to_string s)) false ;;
        if el : bool then
          visible <- or_else (Page.isVisible B (JS.to_string s)) false ;;
          if visible : bool then ret true else any_visible rest
        else any_visible rest
  end.

Definition successHeuristic (LOGIN_URL : string) : M Page.World bool :=
  signal <- any_visible [sel "logout" "#logout, a.logout, button.logout";
                         sel "userMenu" "#userMenu, .user-menu, .profile-menu"] ;;
  if signal : bool then ret true
  else
    usernameField <-
      or_else (Page.query B (JS.to_string (sel "userName" userName_fallback))) false ;;
    if negb usernameField then ret true
    else
      try_catch
        (url <- Page.page_url B ;;
         ret (negb (url =? "") && negb (JS.includes url "/Login")
              && negb (JS.includes url "/Home") && negb (url =? LOGIN_URL)))
        (fun _ => ret false).

End Helpers.

(** *** The main flow (lines 780-924) *)

(** A line of [results.csv] (lines 58-69). *)
Record CsvRow : Type :=
  { username : string;
    success : string;
    message : string;
    screenshot : string;
    stateFile : string;
    targetUrl : string }.

(** A call of [csvWriter.writeRecords]. *)
Inductive Write : Type :=
| Written (row : CsvRow)
| WriteFailed (row : CsvRow) (e : JS.error).

(** The world, the calls of the CSV writer so far, and the local
    [stateFile] of the record in hand. *)
Record State : Type :=
  { world : World;
    writes : list Write;
    the_stateFile : string }.

(** The lines of [results.csv]. *)
Fixpoint csv_of (ws : list Write) : list CsvRow :=
  match ws with
  | [] => []
  | Written row :: r => row :: csv_of r
  | WriteFailed _ _ :: r => csv_of r
  end.

Definition csv (s : State) : list CsvRow := csv_of (writes s).

Definition on_world {A} (m : M World A) : M State A :=
  fun s =>
    let (r, w) := m (world s) in
    (r, {| world := w; writes := writes s; the_stateFile := the_stateFile s |}).

Definition set_stateFile (f : string) : M State unit :=
  modify (fun s => {| world := world s; writes := writes s; the_stateFile := f |}).

(** [Math.max(1, RETRY_LOGIN)], as the number of turns of
    [for (attempt = 1; attempt <= ...; attempt++)]: none when it is [NaN]. *)
Definition attempts_allowed (retry : parsed_int) : nat :=
  match retry with
  | NaN => 0
  | Int z => Z.to_nat (Z.max 1 z)
  end.

(** [MAX_ROWS && processed >= MAX_ROWS] *)
Definition cap_reached (max_rows : option parsed_int) (processed : Z) : bool :=
  match max_rows with
  | Some (Int z) => negb (z =? 0)%Z && (z <=? processed)%Z
  | _ => false
  end.

Definition decimal (z : Z) : string := DecimalString.NilZero.string_of_int (Z.to_int z).

Definition newline : string := String (ascii_of_nat 10) EmptyString.

Section Main.

Variable E : Outside.
Variable cfg : Settings.

(** [fillTransactionPaymentForm] (lines 243-736), the scripted steps on the
    one site's form: any computation on the page, the console and the log. *)
Variable fillTransactionPaymentForm : JS.object -> M World unit.

Let B : Page.Browser := browser E.

Definition writeRecords (row : CsvRow) : M State unit :=
  fun s =>
    match write_fails E (length (writes s)) with
    | Some e =>
        (Throw e,
         {| world := world s; writes := (writes s ++ [WriteFailed row e])%list;
            the_stateFile := the_stateFile s |})
    | None =>
        (Ok tt,
         {| world := world s; writes := (writes s ++ [Written row])%list;
            the_stateFile := the_stateFile s |})
    end.

(** [openFASAndFillForm] (lines 739-777). *)
Definition openFASAndFillForm (row : JS.object) : M World unit :=
  let target :=
    "https://up6.uniteerp.in/FAS/TransactionPayment/TransactionPayment?formid=40004&moduleid=3" in
  try_catch
    (on_page (or_else (Page.goto B target) tt) ;;;
     console_log "form loaded" ;;;
     let formRoot :=
       JS.to_string
         (sel "formRoot"
            "#TransactionPaymentForm, #MainForm, form#TransactionPayment, form") in
     appendLog ("Waiting up to 2000 ms for form root selector: " ++ formRoot) ;;;
     present <-
       on_page (or_else (Page.waitForSelector B formRoot 3000 ;;; ret true) false) ;;
     console_log "selectors available" ;;;
     (if negb present then
        appendLog "Form root not found within timeout — falling back to networkidle wait." ;;;
        on_page (or_else (Page.waitForLoadState B "networkidle" 3000) tt)
      else appendLog "Form root detected — proceeding to fill the form.") ;;;
     on_page (Page.waitForTimeout B 700) ;;;
     fillTransactionPaymentForm row)
    (fun e =>
       appendLog ("Optional redirect to form failed: " ++ JS.message e) ;;;
       throw e).

(** The [try] block of one login attempt (lines 823-830). *)
Definition attempt_body (row : JS.object) : M World bool :=
  console_log "logging in" ;;;
  attemptLogin E row ;;;
  on_page (successHeuristic E (LOGIN_URL cfg)).

(** The retry loop (lines 820-835), with the turns it has left; it gives
    [loggedIn] and [lastLoginError]. *)
Fixpoint login_attempts (remaining : nat) (attempt : Z)
    (lastLoginError : option JS.error) (row : JS.object)
  : M World (bool * option JS.error) :=
  match remaining with
  | O => ret (false, lastLoginError)
  | S k =>
      r <- try_catch
             (ok <- attempt_body row ;; ret (ok, lastLoginError))
             (fun e =>
                appendLog ("Login attempt " ++ decimal attempt ++ " error: "
                           ++ JS.message e) ;;;
                ret (false, Some e)) ;;
      if fst r then ret (true, snd r)
      else login_attempts k (attempt + 1)%Z (snd r) row
  end.

Definition retry_login (row : JS.object) : M World (bool * option JS.error) :=
  login_attempts (attempts_allowed (RETRY_LOGIN cfg)) 1%Z None row.

(** [row.UserName || `user_${Date.now()}`] *)
Definition username_of (row : JS.object) : M World string :=
  if JS.truthy (JS.get row "UserName") then ret (JS.to_string (JS.get row "UserName"))
  else t <- now E ;; ret ("user_" ++ t).

(** Lines 837-861: the record is marked failed. *)
Definition login_failed (name : string) (lastLoginError : option JS.error)
  : M State unit :=
  t <- on_world (now E) ;;
  let screenshotFile :=
    path_join (LOGS_DIR cfg) (name ++ "_login_failed_" ++ t ++ ".png") in
  on_world (on_page (or_else (Page.screenshot B screenshotFile) tt)) ;;;
  on_world (appendLog ("Login may have failed for " ++ name ++ ". Screenshot: "
                       ++ screenshotFile)) ;;;
  writeRecords
    {| username := name;
       success := "false";
       message := "Login failed: "
                  ++ match lastLoginError with
                     | Some e => JS.message e
                     | None => "still on login page"
                     end;
       screenshot := screenshotFile;
       stateFile := "";
       targetUrl := LOGIN_URL cfg |}.

(** Lines 863-899: after a login that succeeded. *)
Definition logged_in (name : string) (row : JS.object) : M State unit :=
  on_world (appendLog ("Login success for " ++ name)) ;;;
  t <- on_world (now E) ;;
  set_stateFile (path_join (LOGS_DIR cfg) (name ++ "_state_" ++ t ++ ".json")) ;;;
  file <- gets the_stateFile ;;
  on_world (on_page (or_else (Page.storageState B file) tt)) ;;;
  on_world (try_catch (openFASAndFillForm row)
              (fun e => appendLog ("FAS/form fill error: " ++ JS.message e))) ;;;
  screenshotFile <-
    (if SAVE_SCREENSHOT_ON_SUCCESS cfg then
       t <- on_world (now E) ;;
       let f := path_join (LOGS_DIR cfg) (name ++ "_success_" ++ t ++ ".png") in
       on_world (on_page (or_else (Page.screenshot B f) tt)) ;;;
       ret f
     else ret EmptyString) ;;
  let usedTarget :=
    JS.or (JS.or (JS.or (JS.get row "FAS_URL") (JS.get row "NextPage"))
                 (GLOBAL_FAS_URL cfg))
          (JS.Str (LOGIN_URL cfg)) in
  writeRecords
    {| username := name;
       success := "true";
       message := "OK";
       screenshot := screenshotFile;
       stateFile := file;
       targetUrl := JS.to_string usedTarget |} ;;;
  on_world (appendLog ("✅ Done for " ++ name)).

(** Lines 837-899, from the result of the retry loop on. *)
Definition finish_record (name : string) (row : JS.object)
    (r : bool * option JS.error) : M State unit :=
  if negb (fst r) then login_failed name (snd r) else logged_in name row.

(** The [try] block of lines 801-899. *)
Definition record_body (name : string) (row : JS.object) : M State unit :=
  on_world (appendLog (newline ++ "=== Processing " ++ name ++ " ===")) ;;;
  on_world (on_page (or_else (Page.goto B (LOGIN_URL cfg)) tt)) ;;;
  on_world (on_page (Page.waitForTimeout B 600)) ;;;
  on_world (console_log "step 1") ;;;
  on_world (on_page (or_else
                       (Page.waitForSelector B
                          (JS.to_string (sel "userName" userName_fallback)) 10000)
                       tt)) ;;;
  r <- on_world (retry_login row) ;;
  finish_record name row r.

(** The [catch] block of lines 900-919: [err.stack || err], [String(err)]. *)
Definition record_failed (name : string) (err : JS.error) : M State unit :=
  on_world (appendLog ("Error processing " ++ name ++ ": "
                       ++ (if JS.stack err =? "" then JS.error_to_string err
                           else JS.stack err))) ;;;
  t <- on_world (now E) ;;
  let screenshotFile :=
    path_join (LOGS_DIR cfg) (name ++ "_error_" ++ t ++ ".png") in
  on_world (on_page (or_else (Page.screenshot B screenshotFile) tt)) ;;;
  file <- gets the_stateFile ;;
  writeRecords
    {| username := name;
       success := "error";
       message := JS.error_to_string err;
       screenshot := screenshotFile;
       stateFile := file;
       targetUrl := EmptyString |}.

(** One turn of the loop over the rows (lines 797-919). *)
Definition process_record (row : JS.object) : M State unit :=
  name <- on_world (username_of row) ;;
  set_stateFile EmptyString ;;;
  try_catch (record_body name row) (record_failed name).

(** The loop of lines 792-920. *)
Fixpoint run_rows (rows : list JS.object) (processed : Z) : M State unit :=
  match rows with
  | [] => ret tt
  | row :: rest =>
      if cap_reached (MAX_ROWS cfg) processed then ret tt
      else
        process_record row ;;;
        run_rows rest (processed + 1)%Z
  end.

End Main.

(** *** [fillTransactionPaymentForm] (lines 243-736) *)

(** [s.split(",")] for the one-character separator. *)
Fixpoint split (sep : ascii) (s : string) : list string :=
  match s with
  | EmptyString => [EmptyString]
  | String c r =>
      if Ascii.eqb c sep then EmptyString :: split sep r
      else
        match split sep r with
        | part :: parts => String c part :: parts
        | [] => [String c EmptyString]
        end
  end.

(** What the script of lines 451-496 looks at. *)
Record InputElement : Type :=
  { input_id : string;
    input_name : string;
    input_value : string;
    input_row : option nat (* closest("tr") *) }.

Record Cell : Type := { textContent : string; cell_row : option nat }.

(** The document at one moment: the [input] elements, the cells [tr td],
    and the rows [tr[onclick]] with that attribute, each in document order;
    a table row is named by its number. *)
Record Dom : Type :=
  { inputs : list InputElement;
    cells : list Cell;
    onclick_rows : list (nat * string) }.

(** What the page answers, at its [n]-th call, to the scripts and to the
    methods of an element handle that [Page.Browser] does not cover: the
    document, [el.getAttribute(name)] and [node.disabled] of the element that
    a selector found. *)
Record Form : Type :=
  { dom : nat -> Dom;
    getAttribute : nat -> string -> string -> JS.value;
    node_disabled : nat -> string -> JS.value }.

(** What [console.log] prints for an error object: its stack, or its name
    and message when it has none. *)
Definition inspect (e : JS.error) : string :=
  if JS.stack e =? "" then JS.error_to_string e else JS.stack e.

(** The local [row] of lines 350-356: the values do not come from the
    record. *)
Definition local_row : JS.object :=
  [("Admissionno", JS.Str "101165");
   ("VoucherType", JS.Str "Transfer");
   ("Product", JS.Str "Normal KCC");
   ("Amount", JS.Num "100000")].

Definition admissionCols : list string :=
  ["Admissionno"; "AdmissionNo"; "AdmnNo"; "AdmissionNoPkey"; "AdmissionNumber"].

(** Lines 366-368; [find] gives [undefined] when no value passes. *)
Definition admValue : JS.value :=
  match find (fun v => negb (JS.nullish v)
                       && negb (JS.trim (JS.to_string v) =? ""))
             (map (JS.get local_row) admissionCols) with
  | Some v => v
  | None => JS.Undefined
  end.

Definition iconSearch : JS.value :=
  sel "iconSearch" "#iconsearch, button#iconsearch, .icon-search".

Definition saveSelectors : list string :=
  ["#btnSave"; "#btnPost"; "button#btnSave"; "input#btnSave"; "#Save, button.save";
   "button[type=" ++ quote' ++ "submit" ++ quote' ++ "]"].

Definition genericSubmit : string :=
  "form button[type=" ++ quote' ++ "submit" ++ quote' ++ "], form input[type="
  ++ quote' ++ "submit" ++ quote' ++ "]".

(** [opts[1].value || opts[1].textContent.trim()], or [null] without a
    second option; the options are those below the element. *)
Definition second_option (el : Page.Element) : JS.value :=
  match Page.options el with
  | _ :: (text, value) :: _ => JS.or (JS.Str value) (JS.Str (JS.trim text))
  | _ => JS.Null
  end.

(** The loop over the parts of the selector (lines 258-267). *)
Fixpoint first_part (querySelector : string -> option Page.Element)
    (parts : list string) : JS.value :=
  match parts with
  | [] => JS.Null
  | p :: rest =>
      match querySelector p with
      | Some e => second_option e
      | None => first_part querySelector rest
      end
  end.

(** The script of lines 253-273. *)
Definition second_option_script (querySelector : string -> option Page.Element)
    (sel : string) : JS.value :=
  match querySelector sel with
  | None => first_part querySelector (map JS.trim (split "," sel))
  | Some el => second_option el
  end.

(** The script of lines 285-300: [el.selectedIndex = i] is recorded as the
    value it selects. *)
Definition select_index_script (value : string) (el : option Page.Element)
  : unit * list Page.Effect :=
  match el with
  | None => (tt, [])
  | Some el =>
      match find (fun o : string * string =>
                    (negb (snd o =? "") && (snd o =? value))
                    || (JS.trim (fst o) =? value))
                 (Page.options el) with
      | Some o => (tt, [Page.SetValue (snd o); Page.Dispatch "change"])
      | None => (tt, [])
      end
  end.

(** The script of lines 322-333. *)
Definition match_text_script (t : string) (el : option Page.Element)
  : unit * list Page.Effect :=
  match el with
  | None => (tt, [])
  | Some el =>
      match find (fun o : string * string =>
                    JS.toLowerCase (JS.trim (fst o)) =? JS.toLowerCase t)
                 (Page.options el) with
      | Some o =>
          (tt, [Page.SetValue
                  (JS.to_string (JS.or (JS.Str (snd o)) (JS.Str (JS.trim (fst o)))));
                Page.Dispatch "change"])
      | None => (tt, [])
      end
  end.

(** [/onRowClick\s*\(/.test(s)] *)
Fixpoint open_paren_next (s : string) : bool :=
  match s with
  | EmptyString => false
  | String c r =>
      if Ascii.eqb c "("%char then true
      else if JS.is_space c then open_paren_next r
      else false
  end.

Fixpoint drop_prefix (p s : string) : option string :=
  match p, s with
  | EmptyString, _ => Some s
  | String a p', String b s' => if Ascii.eqb a b then drop_prefix p' s' else None
  | String _ _, EmptyString => None
  end.

Fixpoint calls_onRowClick (s : string) : bool :=
  match drop_prefix "onRowClick" s with
  | Some rest => open_paren_next rest
  | None => false
  end
  || match s with
     | EmptyString => false
     | String _ r => calls_onRowClick r
     end.

(** The row the script of lines 451-496 clicks for a batch id, if any. *)
Definition row_to_click (d : Dom) (batchId : string) : option nat :=
  let matchInput :=
    find (fun i =>
            JS.includes (JS.toLowerCase (input_id i) ++ "|"
                         ++ JS.toLowerCase (input_name i)) "batchid"
            && (JS.trim (input_value i) =? JS.trim batchId))
         (inputs d) in
  match match matchInput with Some i => input_row i | None => None end with
  | Some tr => Some tr
  | None =>
      let tdMatch :=
        find (fun td =>
                negb (textContent td =? "")
                && JS.includes (JS.trim (textContent td)) (JS.trim batchId))
             (cells d) in
      match match tdMatch with Some td => cell_row td | None => None end with
      | Some tr => Some tr
      | None =>
          match find (fun r => calls_onRowClick (snd r)) (onclick_rows d) with
          | Some anyRow => Some (fst anyRow)
          | None => None
          end
      end
  end.

Definition row_click_script (d : Dom) (batchId : string) : bool * list Page.Effect :=
  match row_to_click d batchId with
  | Some _ => (true, [Page.ClickElement])
  | None => (false, [])
  end.

(** The scripts of lines 531-541 and 677-686. *)
Definition voucher_script (val : string) (el : option Page.Element)
  : unit * list Page.Effect :=
  match el with
  | Some _ =>
      (tt, [Page.SetValue val; Page.Dispatch "input"; Page.Dispatch "change";
            Page.Dispatch "keyup"])
  | None => (tt, [])
  end.

Definition ledger_script (val : string) (el : option Page.Element)
  : unit * list Page.Effect :=
  match el with
  | Some _ => (tt, [Page.SetValue val; Page.Dispatch "input"; Page.Dispatch "change"])
  | None => (tt, [])
  end.

Section TransactionPayment.

Variable E : Outside.
Variable F : Form.

(** Line 32. *)
Variable DRY_RUN : bool.

Let B : Page.Browser := browser E.

(** [selectSecondOption] (lines 245-310). *)
Definition selectSecondOption (selectorCandidates : string) : M Page.World bool :=
  try_catch
    (or_else (Page.waitForSelector B selectorCandidates 5000) tt ;;;
     val <- Page.perform B (Page.Evaluate "secondOption" selectorCandidates)
              (fun n => (second_option_script (Page.querySelector B n)
                           selectorCandidates, [])) ;;
     if negb (JS.truthy val) then ret false
     else
       try_catch
         (safeSelect E (JS.Str selectorCandidates) val no_opts ;;; ret true)
         (fun _ =>
            or_else (Page.evaluate B "selectIndex" selectorCandidates
                       (select_index_script (JS.to_string val))) tt ;;;
            ret true))
    (fun _ => ret false).

(** [trySelectByText] (lines 313-343). *)
Definition trySelectByText (selectorCandidates text : string) : M Page.World bool :=
  try_catch
    (safeSelect E (JS.Str selectorCandidates) (JS.Str text) no_opts ;;; ret true)
    (fun _ =>
       try_catch
         (or_else (Page.evaluate B "matchText" selectorCandidates
                     (match_text_script text)) tt ;;;
          ret true)
         (fun _ => ret false)).

(** [(await el.getAttribute("disabled").catch(() => null))
      || (await el.evaluate((node) => node.disabled).catch(() => false))],
    for the handle that [page.$(s)] gave; the two calls on the handle are
    recorded as scripts run on [s]. *)
Definition isDisabled (s : string) : M Page.World bool :=
  attribute <-
    or_else (Page.perform B (Page.Evaluate "getAttribute" s)
               (fun n => (getAttribute F n s "disabled", []))) JS.Null ;;
  if JS.truthy attribute then ret true
  else
    disabled <-
      or_else (Page.perform B (Page.Evaluate "disabled" s)
                 (fun n => (node_disabled F n s, []))) (JS.Bool false) ;;
    ret (JS.truthy disabled).

(** The loop over [saveSelectors] (lines 571-591); it gives [saved]. A
    click on the handle that [page.$(s)] gave is recorded as a click on
    [s]. *)
Fixpoint click_save (selectors : list string) : M World bool :=
  match selectors with
  | [] => ret false
  | s :: rest =>
      if s =? "" then click_save rest
      else
        el <- on_page (or_else (Page.query B s) false) ;;
        if el : bool then
          disabled <- on_page (isDisabled s) ;;
          if disabled : bool then
            appendLog "Save button found but disabled — skipping click and treating as saved." ;;;
            ret true
          else
            on_page (or_else (Page.click B s) tt) ;;;
            appendLog ("Clicked save selector: " ++ s) ;;;
            on_page (Page.waitForTimeout B 2000) ;;;
            ret true
        else click_save rest
  end.

(** [clickSweetConfirm] (lines 625-650), with the turns it has left. *)
Fixpoint clickSweetConfirm (remaining : nat) (i : Z) (waitBetweenMs : Z)
  : M World unit :=
  match remaining with
  | O => ret tt
  | S k =>
      let confirmSel :=
        JS.to_string
          (sel "sweetConfirm"
             ".sa-confirm-button-container button.confirm, .swal2-confirm") in
      on_page (or_else (Page.waitForSelector B confirmSel 500) tt) ;;;
      btn <- on_page (or_else (Page.query B confirmSel) false) ;;
      if btn : bool then
        isVisible <- on_page (or_else (Page.isVisible B confirmSel) false) ;;
        if isVisible : bool then
          (if negb DRY_RUN then
             on_page (or_else (Page.click B confirmSel) tt) ;;;
             appendLog ("Clicked SweetAlert confirm (#" ++ decimal (i + 1) ++ ").")
           else
             appendLog ("DRY_RUN: would click SweetAlert confirm (#"
                        ++ decimal (i + 1) ++ ").")) ;;;
          on_page (Page.waitForTimeout B waitBetweenMs) ;;;
          clickSweetConfirm k (i + 1)%Z waitBetweenMs
        else ret tt
      else ret tt
  end.

(** Lines 358-380. *)
Definition fill_admission : M World unit :=
  if JS.truthy admValue then
    on_page (or_else
               (safeFill E (sel "admissionInput" "#Admissionno, input#Admissionno")
                  (JS.Str (JS.to_string admValue)) no_opts) false) ;;;
    on_page (or_else (safeClick E iconSearch no_opts) false) ;;;
    on_page (Page.waitForTimeout B 5000)
  else ret tt.

(** Lines 384-441. *)
Definition choose_options : M World unit :=
  let productSelector := "#Product, select#Product" in
  productPicked <- on_page (selectSecondOption productSelector) ;;
  (if negb productPicked && JS.truthy (JS.get local_row "Product") then
     on_page (or_else
                (trySelectByText productSelector
                   (JS.to_string (JS.get local_row "Product"))) false) ;;;
     ret tt
   else ret tt) ;;;
  on_page (Page.waitForTimeout B 2000) ;;;
  console_log "product selected" ;;;
  let accountSelector := "#AccountNo, select#AccountNo, #Account, select#Account" in
  on_page (or_else (selectSecondOption accountSelector) false) ;;;
  on_page (Page.waitForTimeout B 3000) ;;;
  console_log "Account selected" ;;;
  let purposeSelector :=
    "#Purpose, select#Purpose, #PurposeId, select#PurposeId, #PurposeList" in
  on_page (or_else (selectSecondOption purposeSelector) false) ;;;
  on_page (Page.waitForTimeout B 3000) ;;;
  console_log "purpose selected" ;;;
  let activitySelector := "#ActivityType, select#ActivityType" in
  activityChosen <- on_page (trySelectByText activitySelector "Disbursement") ;;
  (if negb activityChosen then
     on_page (or_else (selectSecondOption activitySelector) false) ;;; ret tt
   else ret tt) ;;;
  console_log "activity selected " ;;;
  on_page (Page.waitForTimeout B 2000) ;;;
  on_page (or_else (safeClick E iconSearch no_opts) false) ;;;
  console_log "outer clicked" ;;;
  on_page (Page.waitForTimeout B 2000) ;;;
  let voucherSelector := "#VoucherType, select#VoucherType" in
  on_page (or_else (trySelectByText voucherSelector "Transfer") false) ;;;
  console_log "voucher selected" ;;;
  on_page (Page.waitForTimeout B 2000).

(** Lines 447-505. *)
Definition click_transfers_row : M World unit :=
  let targetBatchId :=
    JS.or (JS.or (JS.get local_row "BatchId") (JS.get local_row "BatchIdString"))
          (JS.Str "72533490022") in
  let batchId := JS.to_string targetBatchId in
  clicked <-
    on_page (or_else
               (Page.perform B (Page.Evaluate "clickRow" batchId)
                  (fun n => row_click_script (dom F n) batchId)) false) ;;
  if clicked : bool then
    appendLog ("Clicked transfers row for BatchId: " ++ batchId)
  else
    appendLog ("Could not locate transfers row for BatchId: " ++ batchId
               ++ " — no click performed.").

(** Lines 508-547. *)
Definition fill_amount : M World unit :=
  let amountVal := JS.or (JS.get local_row "Amount") (JS.Num "20") in
  if negb (JS.nullish amountVal) then
    console_log "trying to fill amount" ;;;
    try_catch
      (let amountSelector := sel "vouchertext" "#vouchertext, input#vouchertext" in
       on_page (Page.waitForTimeout B 1000) ;;;
       on_page (or_else (Page.waitForSelector B (JS.to_string amountSelector) 3000)
                  tt) ;;;
       try_catch
         (on_page (safeFill E amountSelector (JS.Str (JS.to_string amountVal))
                     no_opts) ;;; ret tt)
         (fun e => console_log ("safeFill error: " ++ inspect e)) ;;;
       on_page (Page.perform B (Page.Evaluate "setVoucherText" (JS.to_string amountVal))
                  (fun n => voucher_script (JS.to_string amountVal)
                              (Page.querySelector B n "#vouchertext"))) ;;;
       console_log "amount filled")
      (fun e => console_log ("Amount fill failed: " ++ inspect e))
  else ret tt.

(** Lines 561-608. *)
Definition save : M World unit :=
  if negb DRY_RUN then
    saved <- click_save saveSelectors ;;
    if negb saved then
      appendLog "No explicit save button found. Attempting generic form submit..." ;;;
      generic <- on_page (or_else (Page.query B genericSubmit) false) ;;
      if generic : bool then
        on_page (or_else (Page.click B genericSubmit) tt) ;;;
        appendLog "Clicked generic form submit."
      else ret tt
    else ret tt
  else appendLog "DRY_RUN enabled — skipped save.".

(** Lines 611-619. *)
Definition detect_error_modal : M World unit :=
  let errorModal := "#ErrostList, .error-modal, .validation-errors" in
  try_catch
    (errModal <- on_page (Page.query B errorModal) ;;
     if errModal : bool then
       visible <- on_page (or_else (Page.isVisible B errorModal) false) ;;
       if visible : bool then appendLog "Error modal visible after attempted save."
       else ret tt
     else ret tt)
    (fun _ => ret tt).

(** Lines 694-720. *)
Definition click_prepare : M World unit :=
  let prepareSelector :=
    JS.to_string
      (sel "prepareBtn"
         ("#btnsaveDisbursments, input#btnsaveDisbursments, input[value="
          ++ quote' ++ "Prepare" ++ quote' ++ "]")) in
  on_page (or_else (Page.waitForSelector B prepareSelector 2000) tt) ;;;
  prepareBtn <- on_page (or_else (Page.query B prepareSelector) false) ;;
  if prepareBtn : bool then
    disabled <- on_page (isDisabled prepareSelector) ;;
    if negb disabled then
      if negb DRY_RUN then
        on_page (or_else (Page.click B prepareSelector) tt) ;;;
        appendLog "Clicked Prepare (Disbursement) button."
      else appendLog "DRY_RUN: would click Prepare (Disbursement) button."
    else appendLog "Prepare button found but disabled; not clicking."
  else appendLog "Prepare button not found in Disbursement modal.".

(** Lines 622-735. *)
Definition after_submit : M World unit :=
  try_catch
    (clickSweetConfirm 2 0 700 ;;;
     let ledgerSelector :=
       sel "ledgerFolio"
         "#MoreDisbursementDetaos_LedgerFolioNo, input#MoreDisbursementDetaos_LedgerFolioNo" in
     on_page (or_else (Page.waitForSelector B (JS.to_string ledgerSelector) 2000) tt) ;;;
     ledgerEl <- on_page (or_else (Page.query B (JS.to_string ledgerSelector)) false) ;;
     if ledgerEl : bool then
       let folioVal :=
         JS.to_string
           (JS.or (JS.or (JS.or (JS.get local_row "LedgerFolioNo")
                                (JS.get local_row "LedgerFolio"))
                         (JS.get local_row "FolioNo"))
                  (JS.Str "000000")) in
       (if negb DRY_RUN then
          try_catch
            (on_page (safeFill E ledgerSelector (JS.Str folioVal) no_opts) ;;; ret tt)
            (fun e => appendLog ("safeFill ledger folio failed: "
                                 ++ JS.message_or_error e)) ;;;
          on_page (or_else
                     (Page.perform B (Page.Evaluate "setLedgerFolio" folioVal)
                        (fun n => ledger_script folioVal
                                    (Page.querySelector B n
                                       "#MoreDisbursementDetaos_LedgerFolioNo")))
                     tt) ;;;
          appendLog ("Filled Ledger Folio Number: " ++ folioVal)
        else
          appendLog ("DRY_RUN: would fill Ledger Folio Number with "
                     ++ FormFill.dquote ++ folioVal ++ FormFill.dquote)) ;;;
       click_prepare ;;;
       on_page (Page.waitForTimeout B 30000)
     else
       appendLog "No Disbursement popup / ledger folio field detected after submit.")
    (fun e =>
       appendLog ("Post-submit Disbursement handling failed: "
                  ++ JS.message_or_error e)).

(** The function is declared with the page alone: the record that
    [openFASAndFillForm] passes as its second argument is dropped. *)
Definition fillTransactionPaymentForm (_ : JS.object) : M World unit :=
  on_page (Page.waitForTimeout B 700) ;;;
  appendLog "form opened (custom flow)" ;;;
  fill_admission ;;;
  console_log "Admission number filled" ;;;
  choose_options ;;;
  click_transfers_row ;;;
  fill_amount ;;;
  on_page (Page.waitForTimeout B 1000) ;;;
  console_log "form submitting" ;;;
  on_page (or_else (safeClick E iconSearch no_opts) false) ;;;
  console_log "outer clicked" ;;;
  on_page (Page.waitForTimeout B 2000) ;;;
  save ;;;
  detect_error_modal ;;;
  after_submit.

End TransactionPayment.

(** *** The main flow from its start (lines 780-924) *)

(** What opening the page (lines 786-790) and closing the browser (line 922)
    come to. *)
Record Chromium : Type := { launch : outcome unit; close : outcome unit }.

(** The calls on the spreadsheet, and the driver's state. *)
Record Session : Type := { files : list Excel.call; state : State }.

Definition on_files {A} (m : M (list Excel.call) A) : M Session A :=
  fun s =>
    let (r, t) := m (files s) in
    (r, {| files := t; state := state s |}).

Definition on_state {A} (m : M State A) : M Session A :=
  fun s =>
    let (r, st) := m (state s) in
    (r, {| files := files s; state := st |}).

Section Entry.

Variable E : Outside.
Variable F : Form.
Variable C : Chromium.
Variable cfg : Settings.

(** Lines 22, 23 and 32. *)
Variable HEADLESS : bool.
Variable EXCEL_PATH : string.
Variable DRY_RUN : bool.

(** The body of the function that the file calls at once; [file] is the
    file at [EXCEL_PATH]. *)
Definition main (file : Excel.File) : M Session unit :=
  on_state (on_world
    (appendLog ("Starting automation. HEADLESS=" ++ JS.to_string (JS.Bool HEADLESS)
                ++ " DRY_RUN=" ++ JS.to_string (JS.Bool DRY_RUN)))) ;;;
  rows <- on_files (Excel.readExcel file) ;;
  on_state (on_world
    (appendLog ("Read " ++ decimal (Z.of_nat (length rows)) ++ " rows from Excel: "
                ++ EXCEL_PATH))) ;;;
  lift (launch C) ;;;
  on_state (run_rows E cfg (fillTransactionPaymentForm E F DRY_RUN) rows 0) ;;;
  lift (close C) ;;;
  on_state (on_world (appendLog "All done.")).

End Entry.

End Driver.

(** * Properties *)

(** ** Computations: what holds of every run *)

Section Runs.

Context {S : Type}.

(** [m] returns, it does not throw. *)
Definition total {A} (m : M S A) : Prop :=
  forall s, exists a, fst (m s) = Ok a.

(** Every run of [m] takes a state to one that [R] relates to it, whether
    [m] returns or throws. *)
Definition always {A} (R : S -> S -> Prop) (m : M S A) : Prop :=
  forall s, R s (snd (m s)).

Lemma total_ret {A} (a : A) : total (ret a).
Proof. intros s. now exists a. Qed.

Lemma total_bind {A B} (m : M S A) (k : A -> M S B) :
  total m -> (forall a, total (k a)) -> total (bind m k).
Proof.
  intros Hm Hk s. unfold bind. destruct (Hm s) as [a Ha].
  destruct (m s) as [[a'|e] s']; cbn in Ha; [|discriminate].
  apply Hk.
Qed.

Lemma total_try_catch {A} (m : M S A) (h : JS.error -> M S A) :
  (forall e, total (h e)) -> total (try_catch m h).
Proof.
  intros Hh s. unfold try_catch. destruct (m s) as [[a|e] s']; [now exists a|].
  apply Hh.
Qed.

Lemma total_or_else {A} (m : M S A) (a : A) : total (or_else m a).
Proof. apply total_try_catch. intros _. apply total_ret. Qed.

Lemma total_modify (f : S -> S) : total (modify f).
Proof. intros s. now exists tt. Qed.

Lemma total_gets {A} (f : S -> A) : total (gets f).
Proof. intros s. now exists (f s). Qed.

Context (R : S -> S -> Prop) {HR : PreOrder R}.

Lemma always_ret {A} (a : A) : always R (ret a).
Proof. intros s. reflexivity. Qed.

Lemma always_lift {A} (r : outcome A) : always R (lift r).
Proof. intros s. reflexivity. Qed.

Lemma always_gets {A} (f : S -> A) : always R (gets f).
Proof. intros s. reflexivity. Qed.

Lemma always_bind {A B} (m : M S A) (k : A -> M S B) :
  always R m -> (forall a, always R (k a)) -> always R (bind m k).
Proof.
  intros Hm Hk s. unfold bind. specialize (Hm s).
  destruct (m s) as [[a|e] s']; cbn in *; [|exact Hm].
  transitivity s'; [exact Hm | apply Hk].
Qed.

Lemma always_try_catch {A} (m : M S A) (h : JS.error -> M S A) :
  always R m -> (forall e, always R (h e)) -> always R (try_catch m h).
Proof.
  intros Hm Hh s. unfold try_catch. specialize (Hm s).
  destruct (m s) as [[a|e] s']; cbn in *; [exact Hm|].
  transitivity s'; [exact Hm | apply Hh].
Qed.

Lemma always_or_else {A} (m : M S A) (a : A) : always R m -> always R (or_else m a).
Proof. intros Hm. apply always_try_catch; [exact Hm|]. intros _. apply always_ret. Qed.

End Runs.


(** ** The row source *)

Section RowSource.

Import Excel.

Example trim_inner_space : JS.trim "  Normal KCC  " = "Normal KCC".
Proof. reflexivity. Qed.

Example toLowerCase_digits : JS.toLowerCase "Field1" = "field1".
Proof. reflexivity. Qed.

Example includes_chk : JS.includes "chkcash" "chk" = true /\ JS.includes "cash" "chk" = false.
Proof. split; reflexivity. Qed.

Example normalizeRow_any_case :
  normalizeRow [("USERNAME", JS.Str "asha"); ("pAsSwOrD", JS.Str "s3cret");
                ("Branch", JS.Str "Kanpur"); ("captcha", JS.Str "x7k2")]
  = Ok [("UserName", JS.Str "asha"); ("Password", JS.Str "s3cret");
        ("Language", JS.Str ""); ("LoginDataTime", JS.Str "");
        ("ValidateCaptcha", JS.Str "x7k2"); ("NextPage", JS.Str "");
        ("Field1", JS.Str ""); ("Field2", JS.Str "")].
Proof. reflexivity. Qed.

(** The exceljs path fails on [f] with [e]: the parser rejects the file, or
    reading its first sheet throws. *)
Definition primary_fails (f : File) (e : JS.error) : Prop :=
  obind (exceljs_readFile f) read_workbook = Throw e.

Definition secondary_fails (f : File) (e : JS.error) : Prop :=
  obind (xlsx_readFile f) read_xlsx = Throw e.

(** The file passes the checks of lines 18-25. *)
Definition readable (f : File) : Prop :=
  existsSync f = true /\ stat_isFile f = true /\ stat_size f <> 0%Z.

(** The error of line 86. *)
Definition read_error (e : JS.error) : Prop :=
  String.prefix "Failed to read Excel with both exceljs and xlsx: " (JS.message e) = true.

Lemma primary_run (f : File) (t : list call) :
  primary f t = (obind (exceljs_readFile f) read_workbook, (t ++ [ExceljsReadFile])%list).
Proof.
  unfold primary, emit, modify, bind, lift.
  destruct (exceljs_readFile f) as [wb|e]; cbn; [|reflexivity].
  destruct (read_workbook wb); reflexivity.
Qed.

Lemma secondary_run (f : File) (t : list call) :
  secondary f t = (obind (xlsx_readFile f) read_xlsx, (t ++ [XlsxReadFile])%list).
Proof.
  unfold secondary, emit, modify, bind, lift.
  destruct (xlsx_readFile f) as [wb|e]; cbn; [|reflexivity].
  destruct (read_xlsx wb); reflexivity.
Qed.

(** What [readExcel] does with a file that passes the checks. *)
Lemma readExcel_readable (f : File) :
  readable f ->
  readExcel f [] =
    match obind (exceljs_readFile f) read_workbook with
    | Ok rows => (Ok rows, [ExistsSync; StatSync; ExceljsReadFile])
    | Throw e1 =>
        (match obind (xlsx_readFile f) read_xlsx with
         | Ok rows => Ok rows
         | Throw e2 => Throw (both_failed e2)
         end,
         [ExistsSync; StatSync; ExceljsReadFile;
          ConsoleWarn (JS.message_or_error e1); XlsxReadFile])
    end.
Proof.
  intros (Hex & Hfile & Hsize).
  apply Z.eqb_neq in Hsize.
  unfold readExcel, bind, try_catch, emit, modify, throw, ret.
  cbn -[primary secondary]. rewrite Hex, Hfile, Hsize. cbn -[primary secondary].
  rewrite primary_run.
  destruct (obind (exceljs_readFile f) read_workbook) as [rows|e1];
    cbn -[primary secondary]; [reflexivity|].
  rewrite secondary_run.
  destruct (obind (xlsx_readFile f) read_xlsx); reflexivity.
Qed.

Lemma readExcel_unreadable (f : File) :
  ~ readable f ->
  exists e t,
    readExcel f [] = (Throw e, t) /\ (e = not_found f \/ e = not_regular f)
    /\ ~ In ExceljsReadFile t /\ ~ In XlsxReadFile t.
Proof.
  intros Hn. unfold readExcel, bind, emit, modify, throw. cbn.
  destruct (existsSync f) eqn:Hex; cbn.
  - destruct (stat_isFile f) eqn:Hfile; cbn.
    + destruct (stat_size f =? 0)%Z eqn:Hsize.
      * exists (not_regular f), [ExistsSync; StatSync]. cbn.
        repeat split; auto; intros [H|[H|[]]]; discriminate.
      * exfalso. apply Hn. repeat split; auto. now apply Z.eqb_neq.
    + exists (not_regular f), [ExistsSync; StatSync]. cbn.
      repeat split; auto; intros [H|[H|[]]]; discriminate.
  - exists (not_found f), [ExistsSync]. cbn.
    repeat split; auto; intros [H|[]]; discriminate.
Qed.

Lemma readable_dec (f : File) : readable f \/ ~ readable f.
Proof.
  unfold readable.
  destruct (existsSync f), (stat_isFile f), (Z.eq_dec (stat_size f) 0);
    try (left; repeat split; congruence);
    right; intros (H1 & H2 & H3); congruence.
Qed.

Lemma not_found_is_no_read_error (f : File) : ~ read_error (not_found f).
Proof. unfold read_error. cbn. discriminate. Qed.

Lemma not_regular_is_no_read_error (f : File) : ~ read_error (not_regular f).
Proof. unfold read_error. cbn. discriminate. Qed.

(** C3. When the exceljs path fails on a file that passed the checks,
    [readExcel] warns, then calls the sheetjs parser, and its result is that
    of the sheetjs path; and whenever [readExcel] throws the read error of
    line 86, both paths have failed, exceljs first and sheetjs after it. *)
Theorem readExcel_fallback (f : File) :
  (forall e1, readable f -> primary_fails f e1 ->
     snd (readExcel f []) =
       [ExistsSync; StatSync; ExceljsReadFile;
        ConsoleWarn (JS.message_or_error e1); XlsxReadFile]
     /\ fst (readExcel f []) =
          match obind (xlsx_readFile f) read_xlsx with
          | Ok rows => Ok rows
          | Throw e2 => Throw (both_failed e2)
          end)
  /\ (forall e, fst (readExcel f []) = Throw e -> read_error e ->
        exists e1 e2,
          primary_fails f e1 /\ secondary_fails f e2 /\ e = both_failed e2
          /\ snd (readExcel f []) =
               [ExistsSync; StatSync; ExceljsReadFile;
                ConsoleWarn (JS.message_or_error e1); XlsxReadFile]).
Proof.
  split.
  - intros e1 Hr He1. rewrite (readExcel_readable f Hr).
    unfold primary_fails in He1. rewrite He1. split; reflexivity.
  - intros e Hthrow Herr.
    destruct (readable_dec f) as [Hr|Hn].
    + rewrite (readExcel_readable f Hr) in *.
      unfold primary_fails, secondary_fails.
      destruct (obind (exceljs_readFile f) read_workbook) as [rows|e1]; cbn in *;
        [discriminate|].
      destruct (obind (xlsx_readFile f) read_xlsx) as [rows|e2]; [discriminate|].
      exists e1, e2. injection Hthrow as <-. auto.
    + destruct (readExcel_unreadable f Hn) as (e' & t & Hrun & Hcase & _).
      rewrite Hrun in Hthrow. cbn in Hthrow. injection Hthrow as <-.
      destruct Hcase as [-> | ->]; exfalso.
      * now apply (not_found_is_no_read_error f).
      * now apply (not_regular_is_no_read_error f).
Qed.

(** A comma-separated file: exceljs rejects it, sheetjs reads one row. *)
Definition csv_file : File :=
  {| resolved := "/data/input.csv";
     existsSync := true;
     stat_isFile := true;
     stat_size := 64;
     exceljs_readFile := Throw (JS.Error "End of data reached");
     xlsx_readFile :=
       Ok {| SheetNames := ["Sheet1"];
             Sheets := [("Sheet1",
                         [[("username", JS.Str "asha"); ("PASSWORD", JS.Num "1234")]])] |} |}.

Lemma readExcel_fallback_witness :
  readable csv_file
  /\ primary_fails csv_file (JS.Error "End of data reached")
  /\ snd (readExcel csv_file []) =
       [ExistsSync; StatSync; ExceljsReadFile;
        ConsoleWarn "End of data reached"; XlsxReadFile]
  /\ fst (readExcel csv_file []) =
       Ok [[("UserName", JS.Str "asha"); ("Password", JS.Str "1234");
            ("Language", JS.Str ""); ("LoginDataTime", JS.Str "");
            ("ValidateCaptcha", JS.Str ""); ("NextPage", JS.Str "");
            ("Field1", JS.Str ""); ("Field2", JS.Str "")]].
Proof.
  assert (Hr : readable csv_file).
  { split; [reflexivity | split; [reflexivity | discriminate]]. }
  assert (Hp : primary_fails csv_file (JS.Error "End of data reached")) by reflexivity.
  destruct (proj1 (readExcel_fallback csv_file) _ Hr Hp) as [Ht Hres].
  split; [exact Hr | split; [exact Hp | split; [exact Ht | exact Hres]]].
Defined.

End RowSource.

(** ** [normalizeRow] and the records *)

Section Records.

Import Excel.

Definition whitelist : list string :=
  ["UserName"; "Password"; "Language"; "LoginDataTime"; "ValidateCaptcha";
   "NextPage"; "Field1"; "Field2"].

Definition is_string (v : JS.value) : Prop := exists s, v = JS.Str s.

Definition all_strings (o : JS.object) : Prop := Forall (fun kv => is_string (snd kv)) o.

(** A Record: the eight fields, in this order, each a string. *)
Definition is_record (rec : JS.object) : Prop :=
  JS.keys rec = whitelist /\ all_strings rec.

(** No property of the object hides the inherited [hasOwnProperty]. *)
Definition unshadowed (obj : JS.object) : Prop :=
  JS.get_own obj "hasOwnProperty" = None.

Lemma get_own_some_in (o : JS.object) (k : string) (v : JS.value) :
  JS.get_own o k = Some v -> In (k, v) o.
Proof.
  induction o as [|[k' v'] r IH]; cbn; [discriminate|].
  destruct (k' =? k) eqn:Hk.
  - apply String.eqb_eq in Hk. intros [= ->]. left. now subst.
  - intros H. right. now apply IH.
Qed.

Lemma in_keys_get_own (o : JS.object) (k : string) :
  In k (JS.keys o) -> exists v, JS.get_own o k = Some v.
Proof.
  induction o as [|[k' v'] r IH]; cbn; [tauto|].
  intros [->|Hin].
  - rewrite String.eqb_refl. eauto.
  - destruct (k' =? k); eauto.
Qed.

Lemma get_own_string (o : JS.object) (k : string) (v : JS.value) :
  all_strings o -> JS.get_own o k = Some v -> is_string v.
Proof.
  intros Hall Hget. apply get_own_some_in in Hget.
  unfold all_strings in Hall. rewrite Forall_forall in Hall.
  exact (Hall _ Hget).
Qed.

Lemma get_of_own (o : JS.object) (k : string) (v : JS.value) :
  JS.get_own o k = Some v -> JS.get o k = v.
Proof. unfold JS.get. now intros ->. Qed.

Lemma hasOwnProperty_unshadowed (obj : JS.object) (n : string) :
  unshadowed obj -> hasOwnProperty obj n = Ok (JS.has_own obj n).
Proof. unfold unshadowed, hasOwnProperty. now intros ->. Qed.

Lemma hasOwnProperty_shadowed (obj : JS.object) (n : string) (v : JS.value) :
  JS.get_own obj "hasOwnProperty" = Some v ->
  hasOwnProperty obj n = Throw (JS.TypeError "obj.hasOwnProperty is not a function").
Proof. unfold hasOwnProperty. now intros ->. Qed.

(** [get] returns for an unshadowed object, and a string from strings. *)
Lemma get_returns (obj : JS.object) (names : list string) :
  unshadowed obj ->
  exists v, get obj names = Ok v /\ (all_strings obj -> is_string v).
Proof.
  intros Hu. induction names as [|n rest IH]; cbn.
  - exists (JS.Str ""). split; [reflexivity|]. intros _. now exists "".
  - rewrite (hasOwnProperty_unshadowed obj n Hu). cbn.
    unfold JS.has_own. destruct (JS.get_own obj n) as [v|] eqn:Hn.
    + exists (JS.get obj n). split; [reflexivity|].
      intros Hall. rewrite (get_of_own _ _ _ Hn). eapply get_own_string; eauto.
    + destruct (find (same_name n) (JS.keys obj)) as [lower|] eqn:Hfind; [|exact IH].
      destruct (lower =? "") eqn:Hl; cbn; [exact IH|].
      apply find_some in Hfind. destruct Hfind as [Hin _].
      destruct (in_keys_get_own _ _ Hin) as [v Hv].
      exists (JS.get obj lower). split; [reflexivity|].
      intros Hall. rewrite (get_of_own _ _ _ Hv). eapply get_own_string; eauto.
Qed.

Lemma field_returns (obj : JS.object) (names : list string) :
  unshadowed obj ->
  exists v, field obj names = Ok v /\ (all_strings obj -> is_string v).
Proof.
  intros Hu. destruct (get_returns obj names Hu) as (v & Hv & Hs).
  unfold field. rewrite Hv. cbn. exists (JS.or v (JS.Str "")). split; [reflexivity|].
  intros Hall. unfold JS.or. destruct (JS.truthy v); [auto | now exists ""].
Qed.

(** [normalizeRow] returns a record for every unshadowed object of strings. *)
Lemma normalizeRow_record (obj : JS.object) :
  unshadowed obj -> all_strings obj ->
  exists rec, normalizeRow obj = Ok rec /\ is_record rec.
Proof.
  intros Hu Hall. unfold normalizeRow.
  repeat match goal with
  | |- context [field obj ?names] =>
      let v := fresh "v" in let Hv := fresh "Hv" in let Hs := fresh "Hs" in
      destruct (field_returns obj names Hu) as (v & Hv & Hs);
      rewrite Hv; cbn [obind]; specialize (Hs Hall)
  end.
  eexists. split; [reflexivity|]. split; [reflexivity|].
  repeat constructor; assumption.
Qed.

(** A header that is the field's name up to letter case is matched. *)
Lemma field_ignores_case (obj : JS.object) (name header : string) (aliases : list string) :
  unshadowed obj ->
  find (same_name name) (JS.keys obj) = Some header ->
  header <> "" ->
  field obj (name :: aliases) =
    Ok (JS.or (JS.get obj (if JS.has_own obj name then name else header)) (JS.Str "")).
Proof.
  intros Hu Hfind Hne. unfold field. cbn.
  rewrite (hasOwnProperty_unshadowed obj name Hu). cbn.
  destruct (JS.has_own obj name); [reflexivity|].
  rewrite Hfind. apply String.eqb_neq in Hne. rewrite Hne. reflexivity.
Qed.

(** A field none of whose names is a header, up to letter case, is empty. *)
Lemma field_missing (obj : JS.object) (names : list string) :
  unshadowed obj ->
  Forall (fun n => find (same_name n) (JS.keys obj) = None) names ->
  field obj names = Ok (JS.Str "").
Proof.
  intros Hu Hnone. unfold field.
  assert (Hget : get obj names = Ok (JS.Str "")).
  { induction Hnone as [|n rest Hn _ IH]; cbn; [reflexivity|].
    rewrite (hasOwnProperty_unshadowed obj n Hu). cbn.
    unfold JS.has_own. destruct (JS.get_own obj n) as [v|] eqn:Hv.
    - exfalso. apply get_own_some_in in Hv.
      apply (in_map fst) in Hv. cbn in Hv.
      apply (find_none _ _ Hn) in Hv. unfold same_name in Hv.
      now rewrite String.eqb_refl in Hv.
    - now rewrite Hn. }
  now rewrite Hget.
Qed.

End Records.

Section Sheets.

Import Excel.

Lemma get_own_assign_other (o : JS.object) (k x : string) (v : JS.value) :
  k <> x -> JS.get_own (JS.assign o k v) x = JS.get_own o x.
Proof.
  intros Hne. induction o as [|[k' v'] r IH]; cbn.
  - apply String.eqb_neq in Hne. now rewrite Hne.
  - destruct (k' =? k) eqn:Hk; cbn.
    + apply String.eqb_eq in Hk. subst k'.
      apply String.eqb_neq in Hne. now rewrite Hne.
    + destruct (k' =? x); [reflexivity | exact IH].
Qed.

Lemma get_own_set_other (o : JS.object) (k x : string) (v : JS.value) :
  k <> x -> JS.get_own (JS.set o k v) x = JS.get_own o x.
Proof.
  intros Hne. unfold JS.set. destruct (k =? "__proto__"); [reflexivity|].
  now apply get_own_assign_other.
Qed.

Lemma find_keys_assign (p : string -> bool) (o : JS.object) (k : string) (v : JS.value) :
  p k = false -> find p (JS.keys (JS.assign o k v)) = find p (JS.keys o).
Proof.
  intros Hp. induction o as [|[k' v'] r IH]; cbn.
  - now rewrite Hp.
  - destruct (k' =? k) eqn:Hk; cbn; [reflexivity|].
    destruct (p k'); [reflexivity | exact IH].
Qed.

Lemma find_keys_set (p : string -> bool) (o : JS.object) (k : string) (v : JS.value) :
  p k = false -> find p (JS.keys (JS.set o k v)) = find p (JS.keys o).
Proof.
  intros Hp. unfold JS.set. destruct (k =? "__proto__"); [reflexivity|].
  now apply find_keys_assign.
Qed.

Lemma all_strings_set (o : JS.object) (k s : string) :
  all_strings o -> all_strings (JS.set o k (JS.Str s)).
Proof.
  intros Hall. unfold JS.set. destruct (k =? "__proto__"); [exact Hall|].
  induction Hall as [|[k' v'] r Hv Hr IH]; cbn.
  - constructor; [now exists s | constructor].
  - destruct (k' =? k); constructor; auto. now exists s.
Qed.

(** The names [normalizeRow] looks for. *)
Definition names : list string :=
  ["UserName"; "username"; "user"; "Password"; "password"; "Language"; "language";
   "LoginDataTime"; "loginDate"; "LoginDate"; "ValidateCaptcha"; "captcha";
   "NextPage"; "nextpage"; "Field1"; "field1"; "Field2"; "field2"].

(** A header that is none of these names, whatever the letter case. *)
Definition unmatched (k : string) : Prop :=
  k <> "hasOwnProperty" /\ forall n, In n names -> same_name n k = false.

Lemma same_name_refl (n : string) : same_name n n = true.
Proof. unfold same_name. apply String.eqb_refl. Qed.

Lemma get_ignores (obj : JS.object) (k : string) (v : JS.value) (ns : list string) :
  k <> "hasOwnProperty" ->
  (forall n, In n ns -> same_name n k = false) ->
  get (JS.set obj k v) ns = get obj ns.
Proof.
  intros Hk Hns. induction ns as [|n rest IH]; cbn; [reflexivity|].
  assert (Hn : same_name n k = false) by (apply Hns; now left).
  assert (Hnk : k <> n).
  { intros ->. now rewrite same_name_refl in Hn. }
  unfold hasOwnProperty, JS.has_own, JS.get.
  rewrite !(get_own_set_other obj k _ v) by assumption.
  destruct (JS.get_own obj "hasOwnProperty"); [reflexivity|]. cbn.
  destruct (JS.get_own obj n); [reflexivity|].
  rewrite (find_keys_set _ obj k v Hn).
  assert (IH' : get (JS.set obj k v) rest = get obj rest).
  { apply IH. intros m Hm. apply Hns. now right. }
  destruct (find (same_name n) (JS.keys obj)) as [lower|] eqn:Hfind; [|exact IH'].
  destruct (lower =? ""); cbn; [exact IH'|].
  apply find_some in Hfind. destruct Hfind as [_ Hl].
  assert (Hlk : k <> lower) by (intros ->; congruence).
  now rewrite (get_own_set_other obj k lower v Hlk).
Qed.

(** A header that matches no name leaves the record as it is. *)
Lemma normalizeRow_ignores (obj : JS.object) (k : string) (v : JS.value) :
  unmatched k -> normalizeRow (JS.set obj k v) = normalizeRow obj.
Proof.
  intros [Hk Hns]. unfold normalizeRow, field.
  rewrite !(get_ignores obj k v); try assumption;
    try (intros n Hn; apply Hns; cbn in *; tauto).
  reflexivity.
Qed.

(** [normalizeRow] throws on an object that shadows [hasOwnProperty]. *)
Lemma normalizeRow_shadowed (obj : JS.object) (v : JS.value) :
  JS.get_own obj "hasOwnProperty" = Some v ->
  normalizeRow obj = Throw (JS.TypeError "obj.hasOwnProperty is not a function").
Proof.
  intros Hv. unfold normalizeRow, field. cbn [get].
  now rewrite (hasOwnProperty_shadowed obj _ v Hv).
Qed.

(** The fields and the names each is looked up by (lines 102-109). *)
Definition schema : list (string * list string) :=
  [("UserName", ["UserName"; "username"; "user"]);
   ("Password", ["Password"; "password"]);
   ("Language", ["Language"; "language"]);
   ("LoginDataTime", ["LoginDataTime"; "loginDate"; "LoginDate"]);
   ("ValidateCaptcha", ["ValidateCaptcha"; "captcha"; "ValidateCaptcha"]);
   ("NextPage", ["NextPage"; "nextpage"]);
   ("Field1", ["Field1"; "field1"]);
   ("Field2", ["Field2"; "field2"])].

(** Each field of the record is what [field] finds under its names. *)
Lemma normalizeRow_fields (obj rec : JS.object) :
  normalizeRow obj = Ok rec ->
  Forall2 (fun entry kv => fst kv = fst entry /\ field obj (snd entry) = Ok (snd kv))
          schema rec.
Proof.
  unfold normalizeRow, schema.
  repeat match goal with
  | |- context [field obj ?ns] =>
      let v := fresh "v" in let Hv := fresh "Hv" in
      destruct (field obj ns) as [v|] eqn:Hv; cbn [obind]; [|discriminate]
  end.
  intros [= <-]. repeat constructor; cbn; assumption.
Qed.

(** The objects of the data rows, as the exceljs path builds them. *)
Lemma put_cell_strings (headers : Headers) (obj : JS.object) (cell : nat * JS.value) :
  all_strings obj -> all_strings (put_cell headers obj cell).
Proof.
  intros Hall. unfold put_cell.
  destruct (negb _); [now apply all_strings_set | exact Hall].
Qed.

Lemma row_object_strings (headers : Headers) (r : Row) :
  all_strings (row_object headers r).
Proof.
  unfold row_object.
  assert (H : forall cs obj, all_strings obj ->
                             all_strings (fold_left (put_cell headers) cs obj)).
  { induction cs as [|c cs IH]; cbn; [auto|].
    intros obj Hobj. apply IH. now apply put_cell_strings. }
  apply H. constructor.
Qed.

Lemma raw_object_strings (r : JS.object) : all_strings (raw_object r).
Proof.
  unfold raw_object.
  assert (H : forall ks obj, all_strings obj ->
            all_strings (fold_left
                           (fun obj k => JS.set obj k (JS.Str (raw_text (JS.get r k))))
                           ks obj)).
  { induction ks as [|k ks IH]; cbn; [auto|].
    intros obj Hobj. apply IH. now apply all_strings_set. }
  apply H. constructor.
Qed.

(** The rows after the header row. *)
Definition data_rows_of (rows : list Row) : list Row :=
  filter (fun r => negb (Nat.eqb (rowNumber r) 1)) rows.

(** The object of each data row of the first sheet, as each path builds it
    before [normalizeRow]. *)
Definition exceljs_objects (wb : Workbook) : list JS.object :=
  match worksheets wb with
  | [] => []
  | worksheet :: _ =>
      map (row_object (read_headers (getRow worksheet 1)))
          (data_rows_of (eachRow worksheet))
  end.

Definition sheetjs_objects (wb : XlsxWorkbook) : list JS.object :=
  match SheetNames wb with
  | [] => []
  | sheetName :: _ =>
      if sheetName =? "" then []
      else map raw_object (sheet_to_json (Sheets wb) sheetName)
  end.

(** [rec] is the record of the data row with object [obj]. *)
Definition record_of (obj rec : JS.object) : Prop :=
  normalizeRow obj = Ok rec /\ is_record rec.

Lemma data_rows_records (headers : Headers) (rows : list Row) :
  Forall unshadowed (map (row_object headers) (data_rows_of rows)) ->
  exists recs,
    data_rows headers rows = Ok recs
    /\ Forall2 record_of (map (row_object headers) (data_rows_of rows)) recs.
Proof.
  unfold data_rows_of.
  induction rows as [|r rest IH]; cbn [data_rows filter map].
  - intros _. exists []. split; [reflexivity | constructor].
  - destruct (Nat.eqb (rowNumber r) 1); cbn [negb map].
    + exact IH.
    + intros Hall. inversion Hall as [|? ? Hu Hrest]; subst.
      destruct (IH Hrest) as (recs & Hrun & Hrec).
      destruct (normalizeRow_record _ Hu (row_object_strings headers r))
        as (rec & Hnorm & Hshape).
      rewrite Hnorm, Hrun. cbn. exists (rec :: recs).
      split; [reflexivity|]. constructor; [now split | exact Hrec].
Qed.

Lemma omap_records (raw : list JS.object) :
  Forall unshadowed (map raw_object raw) ->
  exists recs,
    omap (fun r => normalizeRow (raw_object r)) raw = Ok recs
    /\ Forall2 record_of (map raw_object raw) recs.
Proof.
  induction raw as [|r rest IH]; cbn [omap map].
  - intros _. exists []. split; [reflexivity | constructor].
  - intros Hall. inversion Hall as [|? ? Hu Hrest]; subst.
    destruct (IH Hrest) as (recs & Hrun & Hrec).
    destruct (normalizeRow_record _ Hu (raw_object_strings r))
      as (rec & Hnorm & Hshape).
    rewrite Hnorm, Hrun. cbn. exists (rec :: recs).
    split; [reflexivity|]. constructor; [now split | exact Hrec].
Qed.

Lemma read_workbook_records (wb : Workbook) :
  Forall unshadowed (exceljs_objects wb) ->
  exists recs,
    read_workbook wb = Ok recs /\ Forall2 record_of (exceljs_objects wb) recs.
Proof.
  unfold read_workbook, exceljs_objects. destruct (worksheets wb) as [|ws rest].
  - intros _. exists []. split; [reflexivity | constructor].
  - apply data_rows_records.
Qed.

Lemma read_xlsx_records (wb : XlsxWorkbook) :
  Forall unshadowed (sheetjs_objects wb) ->
  exists recs,
    read_xlsx wb = Ok recs /\ Forall2 record_of (sheetjs_objects wb) recs.
Proof.
  unfold read_xlsx, sheetjs_objects. destruct (SheetNames wb) as [|name rest].
  - intros _. exists []. split; [reflexivity | constructor].
  - destruct (name =? "").
    + intros _. exists []. split; [reflexivity | constructor].
    + apply omap_records.
Qed.

End Sheets.

Section Files.

Import Excel.

(** The data rows [readExcel] has to read, as objects: those the exceljs path
    builds, or, when that path fails, those the sheetjs path builds; none of
    them with a column titled [hasOwnProperty] in the place of the method. *)
Definition rows_read (f : File) (objs : list JS.object) : Prop :=
  (exists wb,
      exceljs_readFile f = Ok wb /\ objs = exceljs_objects wb)
  \/ ((exists e, primary_fails f e)
      /\ exists wb, xlsx_readFile f = Ok wb /\ objs = sheetjs_objects wb).

(** A well-formed input file: it passes the checks of lines 18-25 and a
    parser reads its rows. *)
Definition well_formed (f : File) (objs : list JS.object) : Prop :=
  readable f /\ rows_read f objs /\ Forall unshadowed objs.


(** A sheet whose headers are in other letter cases, with a column that is
    no field and with no column for most fields; two data rows. *)
Definition mixed_case_file : File :=
  {| resolved := "/data/input.xlsx";
     existsSync := true;
     stat_isFile := true;
     stat_size := 6144;
     exceljs_readFile :=
       Ok {| worksheets :=
               [[ {| rowNumber := 1; hasValues := true;
                     cells := [(1, JS.Str "USERNAME"); (2, JS.Str " password ");
                               (3, JS.Str "Branch")] |};
                  {| rowNumber := 2; hasValues := true;
                     cells := [(1, JS.Str " asha "); (2, JS.Num "1234");
                               (3, JS.Str "Kanpur")] |};
                  {| rowNumber := 3; hasValues := true;
                     cells := [(1, JS.Str "ravi"); (2, JS.Null)] |} ]] |};
     xlsx_readFile := Throw (JS.Error "not read") |}.


(** When both parsers deliver a column titled [hasOwnProperty], the object
    of a data row holds a string where [normalizeRow] calls the method: the
    exceljs path throws, the sheetjs path throws, and [readExcel] throws the
    error of line 86. *)
Definition titled_hasOwnProperty : File :=
  {| resolved := "/data/input.xlsx";
     existsSync := true;
     stat_isFile := true;
     stat_size := 6144;
     exceljs_readFile :=
       Ok {| worksheets :=
               [[ {| rowNumber := 1; hasValues := true;
                     cells := [(1, JS.Str "UserName"); (2, JS.Str "Password");
                               (3, JS.Str "hasOwnProperty")] |};
                  {| rowNumber := 2; hasValues := true;
                     cells := [(1, JS.Str "asha"); (2, JS.Str "s3cret");
                               (3, JS.Str "yes")] |} ]] |};
     xlsx_readFile :=
       Ok {| SheetNames := ["Sheet1"];
             Sheets :=
               [("Sheet1",
                 [[("UserName", JS.Str "asha"); ("Password", JS.Str "s3cret");
                   ("hasOwnProperty", JS.Str "yes")]])] |} |}.

Remark readExcel_hasOwnProperty_column :
  readExcel titled_hasOwnProperty [] =
    (Throw (both_failed (JS.TypeError "obj.hasOwnProperty is not a function")),
     [ExistsSync; StatSync; ExceljsReadFile;
      ConsoleWarn "obj.hasOwnProperty is not a function"; XlsxReadFile]).
Proof. reflexivity. Qed.

End Files.

(** ** The form-fill workflow *)

Section WorkflowRuns.

Import FormFill.

(** Relations that a step on the page alone cannot break. *)
Class Framed (R : State -> State -> Prop) : Prop :=
  page_frame : forall s w, R s {| page := w; rowResult := rowResult s |}.

Lemma always_on_page (R : State -> State -> Prop) {HF : Framed R} {A}
    (m : M Page.World A) : always R (on_page m).
Proof. intros s. unfold on_page. destruct (m (page s)). cbn. apply page_frame. Qed.

Lemma total_on_page {A} (m : M Page.World A) : total m -> total (on_page m).
Proof.
  intros Hm s. unfold on_page. destruct (Hm (page s)) as [a Ha].
  destruct (m (page s)) as [r w]. cbn in *. now exists a.
Qed.

Lemma total_sleep (ms : Z) : total (Page.sleep ms).
Proof. intros w. now exists tt. Qed.

Lemma total_update (f : RowResult -> RowResult) : total (update f).
Proof. apply total_modify. Qed.

(** The safe DOM actions return. *)
Lemma safeClick_total (B : Page.Browser) (selector : string) (opts : ClickOpts) :
  total (safeClick B selector opts).
Proof. apply total_try_catch. intros _. apply total_ret. Qed.

Lemma setInputValue_total (B : Page.Browser) (selector : string) (value : JS.value) :
  total (setInputValue B selector value).
Proof.
  unfold setInputValue. destruct (JS.nullish value); [apply total_ret|].
  apply total_try_catch. intros _. apply total_ret.
Qed.

Lemma selectOption_total (B : Page.Browser) (selector : string) (value : JS.value) :
  total (selectOption B selector value).
Proof.
  unfold selectOption. destruct (JS.nullish value); [apply total_ret|].
  apply total_try_catch. intros _. apply total_ret.
Qed.

Lemma setCheckbox_total (B : Page.Browser) (selector : string) (value : JS.value) :
  total (setCheckbox B selector value).
Proof. apply total_try_catch. intros _. apply total_ret. Qed.

(** The row index and the two final fields stay as they are. *)
Definition same_flags (s s' : State) : Prop :=
  rowIndex (rowResult s') = rowIndex (rowResult s)
  /\ ok (rowResult s') = ok (rowResult s)
  /\ exception (rowResult s') = exception (rowResult s).

(** The two lists stay as they are. *)
Definition same_lists (s s' : State) : Prop :=
  filled (rowResult s') = filled (rowResult s)
  /\ errors (rowResult s') = errors (rowResult s).

#[local] Instance same_flags_preorder : PreOrder same_flags.
Proof.
  split.
  - intros s. repeat split.
  - intros s1 s2 s3 (H1 & H2 & H3) (H4 & H5 & H6). repeat split; congruence.
Qed.

#[local] Instance same_lists_preorder : PreOrder same_lists.
Proof.
  split.
  - intros s. repeat split.
  - intros s1 s2 s3 (H1 & H2) (H3 & H4). repeat split; congruence.
Qed.

#[local] Instance same_flags_framed : Framed same_flags.
Proof. intros s w. repeat split. Qed.

#[local] Instance same_lists_framed : Framed same_lists.
Proof. intros s w. repeat split. Qed.

Lemma push_filled_flags (v : JS.value) : always same_flags (push_filled v).
Proof. intros s. repeat split. Qed.

Lemma push_error_flags (msg : string) : always same_flags (push_error msg).
Proof. intros s. repeat split. Qed.

Lemma set_ok_lists (b : bool) : always same_lists (set_ok b).
Proof. intros s. repeat split. Qed.

Lemma set_exception_lists (msg : string) : always same_lists (set_exception msg).
Proof. intros s. repeat split. Qed.

(** The message of line 241. *)
Definition no_mapping (colHeader : string) : string :=
  "No mapping for Excel header " ++ dquote ++ colHeader ++ dquote.

(** The errors grow, by messages other than that of line 241. *)
Definition mapped_errors (s s' : State) : Prop :=
  exists l,
    errors (rowResult s') = (errors (rowResult s) ++ l)%list
    /\ Forall (fun msg => String.prefix "No mapping" msg = false) l.

#[local] Instance mapped_errors_preorder : PreOrder mapped_errors.
Proof.
  split.
  - intros s. exists []. now rewrite app_nil_r.
  - intros s1 s2 s3 (l1 & H1 & F1) (l2 & H2 & F2). exists (l1 ++ l2)%list.
    rewrite H2, H1, app_assoc. split; [reflexivity | now apply Forall_app].
Qed.

#[local] Instance mapped_errors_framed : Framed mapped_errors.
Proof. intros s w. exists []. cbn. now rewrite app_nil_r. Qed.

Lemma push_filled_mapped (v : JS.value) : always mapped_errors (push_filled v).
Proof. intros s. exists []. cbn. now rewrite app_nil_r. Qed.

Lemma push_error_mapped (msg : string) :
  String.prefix "No mapping" msg = false -> always mapped_errors (push_error msg).
Proof. intros Hmsg s. exists [msg]. cbn. split; [reflexivity | now constructor]. Qed.

(** One step through a computation, for any of these relations. *)
Ltac run_step :=
  match goal with
  | |- always ?R (bind _ _) => apply (@always_bind _ R _); [ | intros ? ]
  | |- always ?R (ret _) => apply (@always_ret _ R _)
  | |- always ?R (lift _) => apply (@always_lift _ R _)
  | |- always ?R (on_page _) => apply (@always_on_page R _)
  | |- always same_flags (push_filled _) => apply push_filled_flags
  | |- always same_flags (push_error _) => apply push_error_flags
  | |- always mapped_errors (push_filled _) => apply push_filled_mapped
  | |- always mapped_errors (push_error _) => apply push_error_mapped; reflexivity
  | |- always _ (set_ok _) => apply set_ok_lists
  | |- always _ (set_exception _) => apply set_exception_lists
  | |- always _ (if ?c then _ else _) => destruct c
  end.

(** The fields the row result accounts for so far. *)
Definition entries (s : State) : nat :=
  length (filled (rowResult s)) + length (errors (rowResult s)).

(** Every run of [m] accounts for [n] more fields. *)
Definition counts {A} (n : nat) (m : M State A) : Prop :=
  forall s, entries (snd (m s)) = entries s + n.

Lemma counts_of_lists {A} (m : M State A) : always same_lists m -> counts 0 m.
Proof.
  intros Hm s. destruct (Hm s) as [H1 H2]. unfold entries.
  rewrite H1, H2. lia.
Qed.

Lemma counts_bind (n k : nat) {A C} (m : M State A) (f : A -> M State C) :
  total m -> counts n m -> (forall a, counts k (f a)) -> counts (n + k) (bind m f).
Proof.
  intros Ht Hm Hf s. unfold bind. specialize (Hm s). destruct (Ht s) as [a Ha].
  destruct (m s) as [[a'|e] s1]; cbn in *; [|discriminate].
  rewrite (Hf a' s1), Hm. lia.
Qed.

Lemma counts_bind_first (n : nat) {A C} (m : M State A) (f : A -> M State C) :
  total m -> counts n m -> (forall a, counts 0 (f a)) -> counts n (bind m f).
Proof.
  intros Ht Hm Hf. rewrite <- (Nat.add_0_r n). now apply counts_bind.
Qed.

Lemma counts_try_catch (n : nat) {A} (m : M State A) (h : JS.error -> M State A) :
  counts n m -> (forall e, counts 0 (h e)) -> counts n (try_catch m h).
Proof.
  intros Hm Hh s. unfold try_catch. specialize (Hm s).
  destruct (m s) as [[a|e] s1]; cbn in *; [exact Hm|].
  rewrite (Hh e s1), Hm. lia.
Qed.

Lemma counts_push_filled (v : JS.value) : counts 1 (push_filled v).
Proof. intros s. unfold entries. cbn. rewrite length_app. cbn. lia. Qed.

Lemma counts_push_error (msg : string) : counts 1 (push_error msg).
Proof. intros s. unfold entries. cbn. rewrite length_app. cbn. lia. Qed.

Ltac total_step :=
  match goal with
  | |- total (bind _ _) => apply total_bind; [ | intros ? ]
  | |- total (ret _) => apply total_ret
  | |- total (lift (Ok _)) => intros ?; eexists; reflexivity
  | |- total (on_page _) => apply total_on_page
  | |- total (or_else _ _) => apply total_or_else
  | |- total (Page.sleep _) => apply total_sleep
  | |- total (selectOption _ _ _) => apply selectOption_total
  | |- total (setInputValue _ _ _) => apply setInputValue_total
  | |- total (setCheckbox _ _ _) => apply setCheckbox_total
  | |- total (safeClick _ _ _) => apply safeClick_total
  | |- total (push_filled _) => apply total_update
  | |- total (push_error _) => apply total_update
  | |- total (set_ok _) => apply total_update
  | |- total (if ?c then _ else _) => destruct c
  end.

Ltac zero := apply counts_of_lists; repeat run_step.

Ltac count_step :=
  match goal with
  | |- counts 1 (push_filled _) => apply counts_push_filled
  | |- counts 1 (push_error _) => apply counts_push_error
  | |- counts 0 _ => solve [zero]
  | |- counts ?n (bind ?m ?k) =>
      first
        [ apply (counts_bind 0 n m k);
          [ solve [repeat total_step] | solve [zero] | intros ? ]
        | apply (counts_bind_first n m k);
          [ solve [repeat total_step] | | intros ?; solve [zero] ] ]
  | |- counts _ (if ?c then _ else _) => destruct c
  end.

(** A field id that has the string methods, or none. *)
Definition plain_id (v : JS.value) : Prop :=
  match v with
  | JS.Str _ | JS.Null => True
  | _ => False
  end.

Section Steps.

Variable B : Page.Browser.
Variable opts : Opts.

Lemma fill_field_total (row : JS.object) (colHeader : string) :
  plain_id (mapHeaderToId (the_fieldMap opts) colHeader) ->
  total (fill_field B opts row colHeader).
Proof.
  intros Hid. unfold fill_field, set_by_id_or_name.
  destruct (mapHeaderToId (the_fieldMap opts) colHeader); try contradiction;
    cbn [lower_id negb JS.truthy]; repeat total_step.
Qed.

Lemma fill_field_counts (row : JS.object) (colHeader : string) :
  plain_id (mapHeaderToId (the_fieldMap opts) colHeader) ->
  counts (if blank (JS.get row colHeader) then 0 else 1)
         (fill_field B opts row colHeader).
Proof.
  intros Hid. unfold fill_field, set_by_id_or_name.
  destruct (blank (JS.get row colHeader)); [zero|].
  destruct (mapHeaderToId (the_fieldMap opts) colHeader); try contradiction;
    cbn [lower_id negb JS.truthy]; repeat count_step.
Qed.

Lemma fill_field_flags (row : JS.object) (colHeader : string) :
  always same_flags (fill_field B opts row colHeader).
Proof. unfold fill_field, set_by_id_or_name. repeat run_step. Qed.

Lemma fill_fields_flags (row : JS.object) (headers : list string) :
  always same_flags (fill_fields B opts row headers).
Proof.
  induction headers as [|h rest IH]; cbn; [apply (@always_ret _ _ _)|].
  apply (@always_bind _ _ _); [apply fill_field_flags | intros _; exact IH].
Qed.

Lemma set_total_amount_flags (row : JS.object) :
  always same_flags (set_total_amount B row).
Proof. unfold set_total_amount. repeat run_step. Qed.

Lemma set_total_amount_lists (row : JS.object) :
  always same_lists (set_total_amount B row).
Proof. unfold set_total_amount. repeat run_step. Qed.

Lemma save_disbursement_details_flags (row : JS.object) :
  always same_flags (save_disbursement_details B row).
Proof. unfold save_disbursement_details. repeat run_step. Qed.

Lemma save_disbursement_details_lists (row : JS.object) :
  always same_lists (save_disbursement_details B row).
Proof. unfold save_disbursement_details. repeat run_step. Qed.

Lemma submit_flags : always same_flags (submit B opts).
Proof. unfold submit. repeat run_step. Qed.

Lemma submit_lists : always same_lists (submit B opts).
Proof. unfold submit. repeat run_step. Qed.

(** [m] throws with the flags as they were, or returns with [ok] set to
    true and nothing else of them changed. *)
Definition ends_ok (m : M State unit) : Prop :=
  forall s,
    match m s with
    | (Ok _, s') =>
        rowIndex (rowResult s') = rowIndex (rowResult s)
        /\ ok (rowResult s') = Some true
        /\ exception (rowResult s') = exception (rowResult s)
    | (Throw _, s') => same_flags s s'
    end.

Lemma ends_ok_bind {A} (m : M State A) (k : A -> M State unit) :
  always same_flags m -> (forall a, ends_ok (k a)) -> ends_ok (bind m k).
Proof.
  intros Hm Hk s. unfold bind. specialize (Hm s).
  destruct (m s) as [[a|e] s1]; cbn in Hm; [|exact Hm].
  specialize (Hk a s1). destruct (k a s1) as [[u|e] s2].
  - destruct Hm as (H1 & H2 & H3), Hk as (H4 & H5 & H6). repeat split; congruence.
  - transitivity s1; assumption.
Qed.

Lemma row_body_ends_ok (row : JS.object) : ends_ok (row_body B opts row).
Proof.
  unfold row_body.
  apply ends_ok_bind; [apply (@always_on_page same_flags _)|intros _].
  apply ends_ok_bind; [apply fill_fields_flags|intros _].
  apply ends_ok_bind; [apply set_total_amount_flags|intros _].
  apply ends_ok_bind; [apply save_disbursement_details_flags|intros _].
  apply ends_ok_bind; [apply submit_flags|intros _].
  intros s. cbn. repeat split.
Qed.

(** The row result of one row: either the [try] block returned and the result
    is marked true, with no exception, or it threw and the result is marked
    false, with the exception's text. *)
Lemma process_row_cases (i : nat) (row : JS.object) (w : Page.World) :
  let s0 := {| page := w; rowResult := new_result i |} in
  let r := rowResult (snd (try_catch (row_body B opts row) (row_failed) s0)) in
  process_row B opts i row w
    = (Ok r, page (snd (try_catch (row_body B opts row) row_failed s0)))
  /\ rowIndex r = i
  /\ ((exists s1, row_body B opts row s0 = (Ok tt, s1)
                  /\ ok r = Some true /\ exception r = None)
      \/ (exists e s1, row_body B opts row s0 = (Throw e, s1)
                       /\ ok r = Some false
                       /\ exception r = Some (JS.message_or_error e))).
Proof.
  intros s0 r. split; [reflexivity|]. subst r.
  pose proof (row_body_ends_ok row s0) as H.
  unfold try_catch. destruct (row_body B opts row s0) as [[[]|e] s1].
  - destruct H as (H1 & H2 & H3). cbn. split; [exact H1|].
    left. exists s1. auto.
  - destruct H as (H1 & H2 & H3). cbn in *. split; [exact H1|].
    right. exists e, s1. auto.
Qed.

(** A header that is not empty has a field id. *)
Lemma mapHeaderToId_truthy (fm : JS.object) (header : string) :
  header <> "" -> JS.truthy (mapHeaderToId fm header) = true.
Proof.
  intros Hne. unfold mapHeaderToId. apply String.eqb_neq in Hne. rewrite Hne.
  destruct (JS.truthy (JS.get fm header)) eqn:Ht; [exact Ht|].
  cbn. now rewrite Hne.
Qed.

Lemma fill_field_mapped (row : JS.object) (colHeader : string) :
  colHeader <> "" -> always mapped_errors (fill_field B opts row colHeader).
Proof.
  intros Hne. unfold fill_field, set_by_id_or_name.
  rewrite (mapHeaderToId_truthy _ _ Hne). cbn [negb].
  repeat run_step.
Qed.

Definition plain_ids (row : JS.object) : Prop :=
  Forall (fun h => plain_id (mapHeaderToId (the_fieldMap opts) h)) (JS.keys row).

(** The fields of the row that hold a value. *)
Definition fields_to_fill (row : JS.object) (headers : list string) : nat :=
  length (filter (fun h => negb (blank (JS.get row h))) headers).

Lemma fill_fields_total (row : JS.object) (headers : list string) :
  Forall (fun h => plain_id (mapHeaderToId (the_fieldMap opts) h)) headers ->
  total (fill_fields B opts row headers).
Proof.
  induction 1 as [|h rest Hh _ IH]; cbn; [apply total_ret|].
  apply total_bind; [now apply fill_field_total | intros _; exact IH].
Qed.

Lemma fill_fields_counts (row : JS.object) (headers : list string) :
  Forall (fun h => plain_id (mapHeaderToId (the_fieldMap opts) h)) headers ->
  counts (fields_to_fill row headers) (fill_fields B opts row headers).
Proof.
  unfold fields_to_fill.
  induction 1 as [|h rest Hh _ IH]; cbn [fill_fields filter]; [zero|].
  pose proof (fill_field_counts row h Hh) as Hc.
  pose proof (counts_bind _ _ _ (fun _ => fill_fields B opts row rest)
                (fill_field_total row h Hh) Hc (fun _ => IH)) as H.
  destruct (blank (JS.get row h)); exact H.
Qed.

Lemma after_fields_lists (row : JS.object) :
  always same_lists
    (set_total_amount B row ;;; save_disbursement_details B row ;;;
     submit B opts ;;; set_ok true).
Proof.
  apply (@always_bind _ _ _); [apply set_total_amount_lists|intros _].
  apply (@always_bind _ _ _); [apply save_disbursement_details_lists|intros _].
  apply (@always_bind _ _ _); [apply submit_lists|intros _].
  apply set_ok_lists.
Qed.

(** Every field that holds a value is accounted for, whatever became of the
    fields before it and of the steps after the fields. *)
Lemma row_counts (row : JS.object) :
  plain_ids row ->
  counts (fields_to_fill row (JS.keys row))
         (try_catch (row_body B opts row) row_failed).
Proof.
  intros Hids. apply counts_try_catch.
  - unfold row_body.
    apply (counts_bind 0 (fields_to_fill row (JS.keys row)));
      [repeat total_step | zero | intros _].
    apply counts_bind_first;
      [now apply fill_fields_total | now apply fill_fields_counts|].
    intros _. apply counts_of_lists. apply after_fields_lists.
  - intros e. unfold row_failed. zero.
Qed.

(** Nothing after the fields can throw: no disbursement detail to save and
    no submission asked for. *)
Definition fields_only (row : JS.object) : Prop :=
  existsb (fun h => JS.startsWith h "MoreDisbursementDetaos") (JS.keys row) = false
  /\ JS.truthy (submitAfterRow opts) = false.

Lemma row_body_total (row : JS.object) :
  plain_ids row -> fields_only row -> total (row_body B opts row).
Proof.
  intros Hids [Hmore Hsubmit]. unfold row_body.
  apply total_bind; [repeat total_step|intros _].
  apply total_bind; [now apply fill_fields_total|intros _].
  apply total_bind; [unfold set_total_amount; repeat total_step|intros _].
  apply total_bind;
    [unfold save_disbursement_details; rewrite Hmore; apply total_ret|intros _].
  apply total_bind; [unfold submit; rewrite Hsubmit; apply total_ret|intros _].
  apply total_update.
Qed.

(** [r] is the row result the workflow makes of [row] as its [i]-th row, at
    some state of the page. *)
Definition result_of (i : nat) (row : JS.object) (r : RowResult) : Prop :=
  exists w, fst (process_row B opts i row w) = Ok r.

(** The loop gives one result per row, in the order of the rows. *)
Lemma process_rows_results (rows : list JS.object) :
  forall (i : nat) (acc : list RowResult) (w : Page.World),
  exists new w',
    process_rows B opts i rows acc w = (Ok (acc ++ new)%list, w')
    /\ length new = length rows
    /\ forall k row, nth_error rows k = Some row ->
         exists r, nth_error new k = Some r /\ result_of (i + k) row r.
Proof.
  induction rows as [|row rest IH]; intros i acc w.
  - exists [], w. cbn. rewrite app_nil_r. repeat split.
    intros [|k] row H; discriminate.
  - cbn [process_rows]. unfold bind at 1.
    destruct (process_row_cases i row w) as (Hrun & _). cbn zeta in Hrun.
    rewrite Hrun. unfold bind at 1. cbn [Page.sleep].
    match goal with
    | |- context [process_rows B opts (S i) rest ?acc' ?w'] =>
        destruct (IH (S i) acc' w') as (new & w'' & Hrest & Hlen & Hnth);
        rewrite Hrest
    end.
    eexists (_ :: new), w''. rewrite <- app_assoc. cbn.
    split; [reflexivity|]. split; [now rewrite Hlen|].
    intros [|k] row' Hk; cbn in *.
    + injection Hk as <-. eexists. split; [reflexivity|].
      exists w. rewrite Nat.add_0_r. now rewrite Hrun.
    + destruct (Hnth k row' Hk) as (r & Hr & Hof). exists r. split; [exact Hr|].
      now rewrite Nat.add_succ_r.
Qed.

End Steps.

End WorkflowRuns.

Section WorkflowClaims.

Import FormFill.

(** C1. For every row the workflow processes, the row result's [ok] is set,
    and it is false exactly when [exception] is set, which is exactly when the
    [try] block of the row threw; and this holds of every result in the list
    the function returns. The field errors take no part in it: when the field
    ids are strings, each field that holds a value ends in [filled] or in
    [errors], one entry each, whatever the outcome of the fields before it and
    of the steps after them; and when nothing follows the fields, the result
    is marked true however many of them ended in [errors]. *)
Theorem row_result_flag (B : Page.Browser) (opts : Opts) :
  (forall i row w r,
      fst (process_row B opts i row w) = Ok r ->
      (ok r = Some true \/ ok r = Some false)
      /\ (ok r = Some false <-> exception r <> None)
      /\ (ok r = Some false <->
            exists e s,
              row_body B opts row {| page := w; rowResult := new_result i |}
              = (Throw e, s))
      /\ (plain_ids opts row ->
            length (filled r) + length (errors r) = fields_to_fill row (JS.keys row)
            /\ (fields_only opts row -> ok r = Some true)))
  /\ (forall input w summary results,
         fst (fillLoanDisbursementFromExcel B input opts w) = Ok summary ->
         Summary.results summary = Some results ->
         Forall (fun r => ok r = Some false <-> exception r <> None) results).
Proof.
  assert (Hrow : forall i row w r,
      fst (process_row B opts i row w) = Ok r ->
      (ok r = Some true \/ ok r = Some false)
      /\ (ok r = Some false <-> exception r <> None)
      /\ (ok r = Some false <->
            exists e s,
              row_body B opts row {| page := w; rowResult := new_result i |}
              = (Throw e, s))
      /\ (plain_ids opts row ->
            length (filled r) + length (errors r) = fields_to_fill row (JS.keys row)
            /\ (fields_only opts row -> ok r = Some true))).
  { intros i row w r Hr.
    destruct (process_row_cases B opts i row w) as (Hrun & Hidx & Hcases).
    cbn zeta in *. rewrite Hrun in Hr. cbn [fst] in Hr. injection Hr as Hr.
    assert (Hcount : plain_ids opts row ->
              length (filled r) + length (errors r)
              = fields_to_fill row (JS.keys row)).
    { intros Hids.
      pose proof (row_counts B opts row Hids
                    {| page := w; rowResult := new_result i |}) as Hc.
      rewrite <- Hr. exact Hc. }
    rewrite Hr in Hcases. clear Hrun Hidx Hr.
    destruct Hcases as [(s1 & Hbody & Hok & Hex) | (e & s1 & Hbody & Hok & Hex)].
    - split; [now left|]. split; [rewrite Hok, Hex; split; congruence|].
      split.
      + rewrite Hok. split; [discriminate|].
        intros (e & s & Hthrow). rewrite Hbody in Hthrow. discriminate.
      + intros Hids. split; [now apply Hcount | intros _; exact Hok].
    - split; [now right|]. split; [rewrite Hok, Hex; split; congruence|].
      split.
      + split; [intros _; now exists e, s1 | intros _; exact Hok].
      + intros Hids. split; [now apply Hcount|]. intros Honly. exfalso.
        destruct (row_body_total B opts row Hids Honly
                    {| page := w; rowResult := new_result i |}) as [u Hu].
        rewrite Hbody in Hu. discriminate. }
  split; [exact Hrow|].
  intros input w summary results Hrun Hres.
  unfold fillLoanDisbursementFromExcel in Hrun.
  destruct (existsSync input); cbn in Hrun; [|discriminate].
  unfold bind, lift in Hrun.
  destruct (readExcelRows (readFile input)) as [[|row rows]|e];
    cbn -[process_rows] in Hrun.
  - injection Hrun as <-. discriminate.
  - destruct (process_rows_results B opts (row :: rows) 0 [] w)
      as (new & w' & Hloop & Hlen & Hnth).
    cbn [app] in Hloop. rewrite Hloop in Hrun. cbn -[process_rows] in Hrun.
    injection Hrun as <-. cbn in Hres. injection Hres as <-.
    apply Forall_forall. intros r Hin.
    apply In_nth_error in Hin. destruct Hin as [k Hk].
    assert (Hlt : k < length (row :: rows)).
    { rewrite <- Hlen. apply nth_error_Some. congruence. }
    apply nth_error_Some in Hlt.
    destruct (nth_error (row :: rows) k) as [row'|] eqn:Hrow'; [|congruence].
    destruct (Hnth k row' Hrow') as (r' & Hr' & w0 & Hof).
    assert (r' = r) by congruence. subst r'.
    exact (proj1 (proj2 (Hrow _ _ _ _ Hof))).
  - discriminate.
Qed.

(** A page with a select [#Product] and an input [#ValueDate]; [#Narration]
    never appears. *)
Definition demo_page : Page.Browser :=
  {| Page.rejects := fun _ c =>
       match c with
       | Page.WaitForSelector s _ =>
           if s =? "#Product" then None
           else if s =? "#ValueDate" then None
           else Some (JS.Error "waiting for selector failed: timeout 4000ms exceeded")
       | _ => None
       end;
     Page.querySelector := fun _ s =>
       if s =? "#Product" then
         Some {| Page.tagName := "SELECT"; Page.type := "select-one";
                 Page.readOnly := false; Page.checked := false;
                 Page.options := [("Normal KCC", "7"); (" Other ", "8")] |}
       else if s =? "#ValueDate" then
         Some {| Page.tagName := "INPUT"; Page.type := "text";
                 Page.readOnly := false; Page.checked := false;
                 Page.options := [] |}
       else None;
     Page.select_values := fun _ _ _ => [];
     Page.handle := fun _ _ => false;
     Page.visible := fun _ _ => false;
     Page.url := fun _ => "https://up6.uniteerp.in/" |}.

Definition demo_opts : Opts :=
  {| fieldMap := None; submitAfterRow := JS.Undefined;
     clickPrepareInsteadOfPost := JS.Undefined;
     redirectUrlAfterSubmit := JS.Undefined |}.

Definition demo_row : JS.object :=
  [("Product", JS.Str "other"); ("ValueDate", JS.Num "12");
   ("Narration", JS.Str "x"); ("ChequeNo", JS.Str "")].

Definition demo_result : RowResult :=
  {| rowIndex := 0;
     filled := [JS.Str "Product"; JS.Str "ValueDate"];
     errors := ["Unknown element type or not found for Narration"];
     ok := Some true;
     exception := None |}.

Lemma row_result_flag_witness :
  fst (process_row demo_page demo_opts 0 demo_row []) = Ok demo_result
  /\ plain_ids demo_opts demo_row
  /\ fields_only demo_opts demo_row
  /\ length (filled demo_result) + length (errors demo_result) = 3
  /\ ok demo_result = Some true
  /\ (ok demo_result = Some false <-> exception demo_result <> None).
Proof.
  assert (Hrun : fst (process_row demo_page demo_opts 0 demo_row []) = Ok demo_result)
    by (vm_compute; reflexivity).
  assert (Hids : plain_ids demo_opts demo_row)
    by (repeat constructor).
  assert (Honly : fields_only demo_opts demo_row)
    by (split; reflexivity).
  destruct (proj1 (row_result_flag demo_page demo_opts) 0 demo_row [] demo_result Hrun)
    as (_ & Hflag & _ & Hfields).
  destruct (Hfields Hids) as [Hcount Hok].
  split; [exact Hrun|]. split; [exact Hids|]. split; [exact Honly|].
  split; [exact Hcount|]. split; [exact (Hok Honly) | exact Hflag].
Defined.

(** The claim C9 glosses the field id as the mapped id of a header that is
    a key of the field map, and the header itself otherwise. *)
Definition id_as_glossed (fm : JS.object) (header : string) : JS.value :=
  match JS.get_own fm header with
  | Some id => id
  | None => JS.Str header
  end.

(** C9 as stated fails for a field map that gives a header an empty id: the
    header is a key, and the field id is the header itself, not the mapped
    id. *)
Lemma mapHeaderToId_empty_id :
  JS.get_own [("Remarks", JS.Str "")] "Remarks" = Some (JS.Str "")
  /\ id_as_glossed [("Remarks", JS.Str "")] "Remarks" = JS.Str ""
  /\ mapHeaderToId [("Remarks", JS.Str "")] "Remarks" = JS.Str "Remarks".
Proof. repeat split. Qed.

(** C9, amended. For every header that is not empty, [mapHeaderToId] gives
    a field id that is truthy, so not null; for a header that is no property
    name of [Object.prototype] it is the mapped id when the header is a key of
    the field map with a truthy id, and the header itself otherwise. So a
    field with a header that is not empty never adds the error of line 241,
    and a field with the empty header and a value adds it and nothing else. *)
Theorem mapHeaderToId_non_null (fm : JS.object) (header : string) :
  (header <> "" ->
     JS.truthy (mapHeaderToId fm header) = true
     /\ mapHeaderToId fm header <> JS.Null
     /\ (JS.object_prototype header = None ->
           mapHeaderToId fm header =
             match JS.get_own fm header with
             | Some id => if JS.truthy id then id else JS.Str header
             | None => JS.Str header
             end))
  /\ (forall B opts row s,
         header <> "" ->
         mapped_errors s (snd (fill_field B opts row header s)))
  /\ (forall B opts row s,
         header = "" -> blank (JS.get row header) = false ->
         fill_field B opts row header s =
           (Ok tt,
            {| page := page s;
               rowResult :=
                 {| rowIndex := rowIndex (rowResult s);
                    filled := filled (rowResult s);
                    errors := (errors (rowResult s) ++ [no_mapping ""])%list;
                    ok := ok (rowResult s);
                    exception := exception (rowResult s) |} |})).
Proof.
  split; [|split].
  - intros Hne. pose proof (mapHeaderToId_truthy fm header Hne) as Ht.
    split; [exact Ht|]. split.
    + intros Hnull. rewrite Hnull in Ht. discriminate.
    + intros Hproto. unfold mapHeaderToId, JS.get.
      apply String.eqb_neq in Hne. rewrite Hne, Hproto.
      destruct (JS.get_own fm header) as [id|]; reflexivity.
  - intros B opts row s Hne. now apply fill_field_mapped.
  - intros B opts row s -> Hblank. unfold fill_field. rewrite Hblank.
    reflexivity.
Qed.

Lemma mapHeaderToId_non_null_witness :
  JS.truthy (mapHeaderToId DEFAULT_FIELD_MAP "AdmissionNoHidden") = true
  /\ mapHeaderToId DEFAULT_FIELD_MAP "AdmissionNoHidden" = JS.Str "AdmissionNoPkey"
  /\ mapHeaderToId DEFAULT_FIELD_MAP "Remarks" = JS.Str "Remarks"
  /\ mapHeaderToId [("Remarks", JS.Str "")] "Remarks" = JS.Str "Remarks".
Proof.
  assert (H1 : "AdmissionNoHidden" <> "") by discriminate.
  assert (H2 : "Remarks" <> "") by discriminate.
  destruct (proj1 (mapHeaderToId_non_null DEFAULT_FIELD_MAP "AdmissionNoHidden") H1)
    as (Ht & _ & Hid).
  destruct (proj1 (mapHeaderToId_non_null DEFAULT_FIELD_MAP "Remarks") H2)
    as (_ & _ & Hid2).
  destruct (proj1 (mapHeaderToId_non_null [("Remarks", JS.Str "")] "Remarks") H2)
    as (_ & _ & Hid3).
  split; [exact Ht|]. split; [exact (Hid eq_refl)|].
  split; [exact (Hid2 eq_refl) | exact (Hid3 eq_refl)].
Defined.

(** C10. For an input file that exists and whose parse gives rows, the
    function returns, with [ok] true, [rows] their number, and in [results]
    one row result per row, in the order of the rows, the [k]-th with row
    index [k]; when the parse gives no row it returns, with [ok] false and a
    message, and does nothing on the page. *)
Theorem fill_returns_a_result_per_row (B : Page.Browser) (input : Input)
    (opts : Opts) (w : Page.World) (rows : list JS.object) :
  existsSync input = true ->
  readExcelRows (readFile input) = Ok rows ->
  (rows <> [] ->
     exists results w',
       fillLoanDisbursementFromExcel B input opts w =
         (Ok {| Summary.ok := true; Summary.message := None;
                Summary.rows := Some (length rows);
                Summary.results := Some results |}, w')
       /\ length results = length rows
       /\ forall k row, nth_error rows k = Some row ->
            exists r, nth_error results k = Some r
                      /\ rowIndex r = k
                      /\ result_of B opts k row r)
  /\ (rows = [] ->
        fillLoanDisbursementFromExcel B input opts w =
          (Ok {| Summary.ok := false; Summary.message := Some "No rows in excel";
                 Summary.rows := None; Summary.results := None |}, w)).
Proof.
  intros Hex Hread. unfold fillLoanDisbursementFromExcel.
  rewrite Hex, Hread. cbn -[process_rows]. split.
  - intros Hne. destruct rows as [|row rest]; [congruence|].
    unfold bind.
    destruct (process_rows_results B opts (row :: rest) 0 [] w)
      as (new & w' & Hloop & Hlen & Hnth).
    cbn [app] in Hloop. rewrite Hloop. exists new, w'.
    split; [reflexivity|]. split; [exact Hlen|].
    intros k row' Hk. destruct (Hnth k row' Hk) as (r & Hr & Hof).
    exists r. split; [exact Hr|]. split; [|exact Hof].
    destruct Hof as [w0 Hof].
    destruct (process_row_cases B opts (0 + k) row' w0) as (Hrun & Hidx & _).
    cbn zeta in *. rewrite Hrun in Hof. cbn [fst] in Hof.
    injection Hof as Hof. rewrite <- Hof. exact Hidx.
  - intros ->. reflexivity.
Qed.

Definition demo_input : Input :=
  {| excelPath := "loan_disbursements.xlsx";
     existsSync := true;
     readFile :=
       Ok {| Excel.SheetNames := ["Sheet1"];
             Excel.Sheets :=
               [("Sheet1",
                 [demo_row;
                  [("MoreDisbursementDetaos_LoanNo", JS.Str "L-17")]])] |} |}.

Lemma fill_returns_a_result_per_row_witness :
  exists results w',
    fillLoanDisbursementFromExcel demo_page demo_input demo_opts [] =
      (Ok {| Summary.ok := true; Summary.message := None;
             Summary.rows := Some 2; Summary.results := Some results |}, w')
    /\ length results = 2
    /\ map rowIndex results = [0; 1].
Proof.
  destruct (proj1 (fill_returns_a_result_per_row demo_page demo_input demo_opts []
                     _ eq_refl eq_refl))
    as (results & w' & Hrun & Hlen & Hnth); [discriminate|].
  exists results, w'. split; [exact Hrun|]. split; [exact Hlen|].
  destruct results as [|r0 [|r1 [|r2 rest]]]; try discriminate.
  destruct (Hnth 0 _ eq_refl) as (r & Hr & Hi & _).
  injection Hr as <-.
  destruct (Hnth 1 _ eq_refl) as (r & Hr & Hj & _).
  injection Hr as <-.
  cbn. now rewrite Hi, Hj.
Defined.

End WorkflowClaims.

(** ** The safe DOM actions *)

Section SafeActions.

(** How the page ends the call [c] made in [w]. *)
Definition event_of (B : Page.Browser) (w : Page.World) (c : Page.Call)
    (effects : list Page.Effect) : Page.Event :=
  match Page.rejects B (length w) c with
  | Some e => Page.Rejected c e
  | None => Page.Resolved c effects
  end.

Lemma perform_run (B : Page.Browser) {A} (c : Page.Call)
    (result : nat -> A * list Page.Effect) (w : Page.World) :
  Page.perform B c result w =
    match Page.rejects B (length w) c with
    | Some e => (Throw e, Page.Rejected c e :: w)
    | None => (Ok (fst (result (length w))),
               Page.Resolved c (snd (result (length w))) :: w)
    end.
Proof. reflexivity. Qed.

(** A call whose rejection is swallowed. *)
Lemma or_else_perform (B : Page.Browser) (c : Page.Call)
    (effects : list Page.Effect) (w : Page.World) :
  or_else (Page.perform B c (fun _ => (tt, effects))) tt w
  = (Ok tt, event_of B w c effects :: w).
Proof.
  unfold or_else, try_catch, event_of. rewrite perform_run.
  destruct (Page.rejects B (length w) c); reflexivity.
Qed.

(** *** The driver's helpers *)

Lemma driver_safeClick_run (E : Driver.Outside) (selector : JS.value)
    (opts : Driver.ActionOpts) (w : Page.World) :
  let B := Driver.browser E in
  let s := JS.to_string selector in
  let waited :=
    event_of B w (Page.WaitForSelector s
                    (Page.or_default (Driver.timeout opts) 4000)) [] in
  Driver.safeClick E selector opts w =
    if JS.truthy selector
    then (Ok true, event_of B (waited :: w) (Page.Click s) [] :: waited :: w)
    else (Ok false, w).
Proof.
  cbn zeta. unfold Driver.safeClick.
  destruct (JS.truthy selector); [|reflexivity]. cbn [negb].
  unfold try_catch, bind at 1, Page.waitForSelector. rewrite or_else_perform.
  unfold bind at 1, Page.click. rewrite or_else_perform. reflexivity.
Qed.

Lemma driver_safeFill_run (E : Driver.Outside) (selector value : JS.value)
    (opts : Driver.ActionOpts) (w : Page.World) :
  let B := Driver.browser E in
  let s := JS.to_string selector in
  let v := JS.to_string value in
  let waited :=
    event_of B w (Page.WaitForSelector s
                    (Page.or_default (Driver.timeout opts) 4000)) [] in
  Driver.safeFill E selector value opts w =
    if JS.truthy selector && negb (JS.nullish value)
    then (Ok true,
          event_of B (waited :: w) (Page.Fill s v) [Page.SetValue v] :: waited :: w)
    else (Ok false, w).
Proof.
  cbn zeta. unfold Driver.safeFill.
  destruct (JS.truthy selector); [|reflexivity].
  destruct (JS.nullish value); [reflexivity|]. cbn [negb orb andb].
  unfold try_catch, bind at 1, Page.waitForSelector. rewrite or_else_perform.
  unfold bind at 1, Page.fill. rewrite or_else_perform. reflexivity.
Qed.

Lemma driver_safeSelect_run (E : Driver.Outside) (selector value : JS.value)
    (opts : Driver.ActionOpts) (w : Page.World) :
  let B := Driver.browser E in
  let s := JS.to_string selector in
  let v := JS.to_string value in
  let waited :=
    event_of B w (Page.WaitForSelector s
                    (Page.or_default (Driver.timeout opts) 4000)) [] in
  Driver.safeSelect E selector value opts w =
    if JS.truthy selector && negb (JS.nullish value)
    then
      match Page.rejects B (S (length w)) (Page.SelectOption s v) with
      | None => (Ok true, Page.Resolved (Page.SelectOption s v) [] :: waited :: w)
      | Some e =>
          let by_value := Page.Rejected (Page.SelectOption s v) e in
          (Ok true,
           event_of B (by_value :: waited :: w) (Page.SelectOptionLabel s v) []
             :: by_value :: waited :: w)
      end
    else (Ok false, w).
Proof.
  cbn zeta. unfold Driver.safeSelect.
  destruct (JS.truthy selector); [|reflexivity].
  destruct (JS.nullish value); [reflexivity|]. cbn [negb orb andb].
  unfold try_catch at 1, bind at 1, Page.waitForSelector. rewrite or_else_perform.
  unfold bind at 1, try_catch at 1, Page.selectOption. rewrite perform_run.
  cbn [length].
  destruct (Page.rejects (Driver.browser E) (S (length w)) _); [|reflexivity].
  unfold Page.selectOptionLabel. rewrite or_else_perform. reflexivity.
Qed.

(** *** The actions of the form-fill workflow *)

Lemma formfill_safeClick_run (B : Page.Browser) (selector : string)
    (opts : FormFill.ClickOpts) (w : Page.World) :
  let wait :=
    Page.WaitForSelector selector (Page.or_default (FormFill.timeout opts) 5000) in
  let scroll := Page.Evaluate "scrollIntoView" selector in
  FormFill.safeClick B selector opts w =
    match Page.rejects B (length w) wait with
    | Some e => (Ok false, Page.Rejected wait e :: w)
    | None =>
        let w1 := Page.Resolved wait [] :: w in
        match Page.rejects B (length w1) scroll with
        | Some e => (Ok false, Page.Rejected scroll e :: w1)
        | None =>
            let w2 :=
              Page.Resolved scroll
                (snd (FormFill.scroll_script (Page.querySelector B (length w1) selector)))
                :: w1 in
            match Page.rejects B (length w2) (Page.Click selector) with
            | Some e => (Ok false, Page.Rejected (Page.Click selector) e :: w2)
            | None => (Ok true, Page.Resolved (Page.Click selector) [] :: w2)
            end
        end
    end.
Proof.
  cbn zeta. unfold FormFill.safeClick, try_catch, bind at 1, Page.waitForSelector.
  rewrite perform_run. destruct (Page.rejects B (length w) _); [reflexivity|].
  unfold bind at 1, Page.evaluate. rewrite perform_run.
  destruct (Page.rejects B _ (Page.Evaluate _ _)); [reflexivity|].
  unfold bind, Page.click. rewrite perform_run.
  destruct (Page.rejects B _ (Page.Click _)); reflexivity.
Qed.

Lemma formfill_setInputValue_run (B : Page.Browser) (selector : string)
    (value : JS.value) (w : Page.World) :
  let v := JS.to_string value in
  let wait := Page.WaitForSelector selector 4000 in
  let script := Page.Evaluate "setInputValue" selector in
  FormFill.setInputValue B selector value w =
    if JS.nullish value then (Ok false, w)
    else
      match Page.rejects B (length w) wait with
      | Some e => (Ok false, Page.Rejected wait e :: w)
      | None =>
          let w1 := Page.Resolved wait [] :: w in
          match Page.rejects B (length w1) script with
          | Some e => (Ok false, Page.Rejected script e :: w1)
          | None =>
              let w2 :=
                Page.Resolved script
                  (snd (FormFill.set_input_script v
                          (Page.querySelector B (length w1) selector)))
                  :: w1 in
              (Ok true,
               Page.Resolved (Page.WaitForTimeout 120) []
                 :: event_of B w2 (Page.Focus selector) [] :: w2)
          end
      end.
Proof.
  cbn zeta. unfold FormFill.setInputValue.
  destruct (JS.nullish value); [reflexivity|].
  unfold try_catch at 1, bind at 1, Page.waitForSelector.
  rewrite perform_run. destruct (Page.rejects B (length w) _); [reflexivity|].
  unfold bind at 1, Page.evaluate. rewrite perform_run.
  destruct (Page.rejects B _ (Page.Evaluate _ _)); [reflexivity|].
  unfold bind at 1, Page.focus. rewrite or_else_perform. reflexivity.
Qed.

Lemma formfill_setCheckbox_run (B : Page.Browser) (selector : string)
    (value : JS.value) (w : Page.World) :
  let wait := Page.WaitForSelector selector 3000 in
  let script := Page.Evaluate "setCheckbox" selector in
  FormFill.setCheckbox B selector value w =
    match Page.rejects B (length w) wait with
    | Some e => (Ok false, Page.Rejected wait e :: w)
    | None =>
        let w1 := Page.Resolved wait [] :: w in
        match Page.rejects B (length w1) script with
        | Some e => (Ok false, Page.Rejected script e :: w1)
        | None =>
            (Ok true,
             Page.Resolved script
               (snd (FormFill.set_checkbox_script value
                       (Page.querySelector B (length w1) selector)))
               :: w1)
        end
    end.
Proof.
  cbn zeta. unfold FormFill.setCheckbox, try_catch, bind at 1, Page.waitForSelector.
  rewrite perform_run. destruct (Page.rejects B (length w) _); [reflexivity|].
  unfold bind, Page.evaluate. rewrite perform_run.
  destruct (Page.rejects B _ (Page.Evaluate _ _)); reflexivity.
Qed.

(** What [page.select(selector, v).catch(() => [])] gives in [w], and how the
    call ends. *)
Definition by_value (B : Page.Browser) (w : Page.World) (selector v : string)
  : list string * Page.Event :=
  match Page.rejects B (length w) (Page.Select selector v) with
  | Some e => ([], Page.Rejected (Page.Select selector v) e)
  | None => (Page.select_values B (length w) selector v,
             Page.Resolved (Page.Select selector v) [])
  end.

Lemma formfill_selectOption_run (B : Page.Browser) (selector : string)
    (value : JS.value) (w : Page.World) :
  let v := JS.to_string value in
  let wait := Page.WaitForSelector selector 4000 in
  let change := Page.Evaluate "change" selector in
  let by_text := Page.Evaluate "selectByText" selector in
  FormFill.selectOption B selector value w =
    if JS.nullish value then (Ok false, w)
    else
      match Page.rejects B (length w) wait with
      | Some e => (Ok false, Page.Rejected wait e :: w)
      | None =>
          let w1 := Page.Resolved wait [] :: w in
          let w2 := snd (by_value B w1 selector v) :: w1 in
          match fst (by_value B w1 selector v) with
          | _ :: _ =>
              match Page.rejects B (length w2) change with
              | Some e => (Ok false, Page.Rejected change e :: w2)
              | None =>
                  (Ok true,
                   Page.Resolved (Page.WaitForTimeout 150) []
                     :: Page.Resolved change
                          (snd (FormFill.change_script
                                  (Page.querySelector B (length w2) selector)))
                     :: w2)
              end
          | [] =>
              match Page.rejects B (length w2) by_text with
              | Some e => (Ok false, Page.Rejected by_text e :: w2)
              | None =>
                  let r := FormFill.select_by_text_script v
                             (Page.querySelector B (length w2) selector) in
                  (Ok (fst r),
                   Page.Resolved (Page.WaitForTimeout 100) []
                     :: Page.Resolved by_text (snd r) :: w2)
              end
          end
      end.
Proof.
  cbn zeta. unfold FormFill.selectOption.
  destruct (JS.nullish value); [reflexivity|].
  unfold try_catch at 1, bind at 1, Page.waitForSelector.
  rewrite perform_run. destruct (Page.rejects B (length w) _); [reflexivity|].
  unfold bind at 1, or_else, try_catch, Page.select, by_value.
  rewrite perform_run.
  destruct (Page.rejects B _ (Page.Select _ _)); cbn [fst snd ret].
  - unfold bind at 1, Page.evaluate. rewrite perform_run.
    destruct (Page.rejects B _ (Page.Evaluate _ _)); reflexivity.
  - destruct (Page.select_values B _ selector (JS.to_string value)).
    + unfold bind at 1, Page.evaluate. rewrite perform_run.
      destruct (Page.rejects B _ (Page.Evaluate _ _)); reflexivity.
    + unfold bind at 1, Page.evaluate. rewrite perform_run.
      destruct (Page.rejects B _ (Page.Evaluate _ _)); reflexivity.
Qed.

End SafeActions.

Section SafeActionClaims.

(** The end of [selectOption] after a selection by value (lines 136-142):
    the change event, and a pause. *)
Definition selected_by_value (B : Page.Browser) (w : Page.World) (selector : string)
  : outcome bool * Page.World :=
  let change := Page.Evaluate "change" selector in
  match Page.rejects B (length w) change with
  | Some e => (Ok false, Page.Rejected change e :: w)
  | None =>
      (Ok true,
       Page.Resolved (Page.WaitForTimeout 150) []
         :: Page.Resolved change
              (snd (FormFill.change_script (Page.querySelector B (length w) selector)))
         :: w)
  end.

(** The attempt by visible text (lines 145-168): the script on the select
    element, and a pause. *)
Definition select_by_text (B : Page.Browser) (w : Page.World) (selector v : string)
  : outcome bool * Page.World :=
  let by_text := Page.Evaluate "selectByText" selector in
  match Page.rejects B (length w) by_text with
  | Some e => (Ok false, Page.Rejected by_text e :: w)
  | None =>
      let r := FormFill.select_by_text_script v
                 (Page.querySelector B (length w) selector) in
      (Ok (fst r),
       Page.Resolved (Page.WaitForTimeout 100) []
         :: Page.Resolved by_text (snd r) :: w)
  end.


(** The exact match wins over an earlier option that only contains the
    value. *)
Example select_by_text_prefers_exact :
  FormFill.select_by_text_script "Transfer"
    (Some {| Page.tagName := "SELECT"; Page.type := "select-one";
             Page.readOnly := false; Page.checked := false;
             Page.options := [("Transfer In", "1"); (" transfer ", "2")] |})
  = (true, [Page.SetValue "2"; Page.Dispatch "change"]).
Proof. reflexivity. Qed.

Example select_by_text_contains :
  FormFill.select_by_text_script "kcc"
    (Some {| Page.tagName := "SELECT"; Page.type := "select-one";
             Page.readOnly := false; Page.checked := false;
             Page.options := [("-- Select --", ""); ("Normal KCC", "7")] |})
  = (true, [Page.SetValue "7"; Page.Dispatch "change"]).
Proof. reflexivity. Qed.

(** A page that is gone: every call on it rejects. *)
Definition target_closed : JS.error := JS.Error "Target closed".

Definition closed_page : Page.Browser :=
  {| Page.rejects := fun _ _ => Some target_closed;
     Page.querySelector := fun _ _ => None;
     Page.select_values := fun _ _ _ => [];
     Page.handle := fun _ _ => false;
     Page.visible := fun _ _ => false;
     Page.url := fun _ => "about:blank" |}.

Definition closed_outside : Driver.Outside :=
  {| Driver.browser := closed_page;
     Driver.date_now := fun _ => "1730000000000";
     Driver.to_iso_date := fun _ => "";
     Driver.write_fails := fun _ => None |}.




(** C8. The driver's [safeFill] resolves to false exactly when its selector
    is falsy or its value is null or undefined, and to true for every other
    input: the wait and the fill are both made, and whether each resolved or
    rejected shows in the calls only, never in the result. On a page that is
    gone both reject and the result is true. *)
Theorem safeFill_result (E : Driver.Outside) (selector value : JS.value)
    (opts : Driver.ActionOpts) (w : Page.World) :
  (fst (Driver.safeFill E selector value opts w) = Ok false
   <-> JS.truthy selector = false \/ JS.nullish value = true)
  /\ (fst (Driver.safeFill E selector value opts w) = Ok true
      <-> ~ (JS.truthy selector = false \/ JS.nullish value = true))
  /\ (let B := Driver.browser E in
      let s := JS.to_string selector in
      let v := JS.to_string value in
      let waited :=
        event_of B w (Page.WaitForSelector s
                        (Page.or_default (Driver.timeout opts) 4000)) [] in
      Driver.safeFill E selector value opts w =
        if JS.truthy selector && negb (JS.nullish value)
        then (Ok true,
              event_of B (waited :: w) (Page.Fill s v) [Page.SetValue v]
                :: waited :: w)
        else (Ok false, w))
  /\ Driver.safeFill closed_outside (JS.Str "#UserName") (JS.Str "asha")
       Driver.no_opts [] =
       (Ok true,
        [Page.Rejected (Page.Fill "#UserName" "asha") target_closed;
         Page.Rejected (Page.WaitForSelector "#UserName" 4000) target_closed]).
Proof.
  pose proof (driver_safeFill_run E selector value opts w) as Hrun.
  cbn zeta in Hrun. rewrite Hrun.
  split; [|split; [|split; [exact eq_refl | reflexivity]]].
  - destruct (JS.truthy selector), (JS.nullish value); cbn;
      split; try discriminate; auto; intros [H|H]; discriminate.
  - destruct (JS.truthy selector), (JS.nullish value); cbn;
      split; try discriminate; auto; try tauto; intros _ [H|H]; discriminate.
Qed.

End SafeActionClaims.

(** ** The driver *)

Section LoginAttempts.

Import Driver.

(** The login attempts made so far: each starts with the line of line 824. *)
Definition attempts (w : World) : nat :=
  length (filter (String.eqb "logging in") (console w)).

Definition same_attempts (w w' : World) : Prop := attempts w' = attempts w.

#[local] Instance same_attempts_preorder : PreOrder same_attempts.
Proof.
  split.
  - intros w. reflexivity.
  - intros w1 w2 w3 H1 H2. unfold same_attempts in *. congruence.
Qed.

Lemma on_page_attempts {A} (m : M Page.World A) : always same_attempts (on_page m).
Proof. intros w. unfold on_page. destruct (m (page w)). reflexivity. Qed.

Lemma console_log_attempts (line : string) :
  ("logging in" =? line) = false -> always same_attempts (console_log line).
Proof.
  intros Hline w. unfold same_attempts, attempts. cbn -[String.eqb].
  rewrite filter_app, length_app. cbn -[String.eqb]. rewrite Hline. cbn. lia.
Qed.

Lemma appendLog_attempts (line : string) :
  ("logging in" =? line) = false -> always same_attempts (appendLog line).
Proof.
  intros Hline w. unfold same_attempts, attempts. cbn -[String.eqb].
  rewrite filter_app, length_app. cbn -[String.eqb]. rewrite Hline. cbn. lia.
Qed.

Lemma total_driver_on_page {A} (m : M Page.World A) : total m -> total (on_page m).
Proof.
  intros Hm w. unfold on_page. destruct (Hm (page w)) as [a Ha].
  destruct (m (page w)) as [r p]. cbn in *. now exists a.
Qed.

Ltac quiet_step :=
  match goal with
  | |- always ?R (bind _ _) => apply (@always_bind _ R _); [ | intros ? ]
  | |- always ?R (ret _) => apply (@always_ret _ R _)
  | |- always _ (on_page _) => apply on_page_attempts
  | |- always _ (console_log _) => apply console_log_attempts; reflexivity
  | |- always _ (appendLog _) => apply appendLog_attempts; reflexivity
  | |- always _ (if ?c then _ else _) => destruct c
  end.

Section Attempts.

Variable E : Outside.
Variable cfg : Settings.

Lemma attemptLogin_attempts (row : JS.object) :
  always same_attempts (attemptLogin E row).
Proof. unfold attemptLogin, waitForManualCaptchaSolve. repeat quiet_step. Qed.

(** An attempt counts once, however it ends. *)
Lemma attempt_body_attempts (row : JS.object) (w : World) :
  attempts (snd (attempt_body E cfg row w)) = S (attempts w).
Proof.
  unfold attempt_body. unfold bind at 1. cbn [console_log modify].
  match goal with
  | |- attempts (snd (?m ?w1)) = _ =>
      assert (H : always same_attempts m);
      [ | rewrite (H w1) ]
  end.
  { apply (@always_bind _ _ _); [apply attemptLogin_attempts | intros _].
    apply on_page_attempts. }
  unfold attempts. cbn. rewrite filter_app, length_app. cbn. lia.
Qed.

(** The retry loop returns, after at most the turns it was given; a
    failure took them all. *)
Lemma login_attempts_bounded (row : JS.object) (remaining : nat) :
  forall attempt last w,
  exists loggedIn last' w',
    login_attempts E cfg remaining attempt last row w = (Ok (loggedIn, last'), w')
    /\ attempts w' <= attempts w + remaining
    /\ (loggedIn = false -> attempts w' = attempts w + remaining).
Proof.
  induction remaining as [|k IH]; intros attempt last w.
  - exists false, last, w. cbn. repeat split; lia.
  - cbn [login_attempts]. unfold bind at 1, try_catch.
    pose proof (attempt_body_attempts row w) as Hcount.
    unfold bind at 1.
    destruct (attempt_body E cfg row w) as [[[|]|e] w1]; cbn [fst snd ret] in *.
    + exists true, last, w1. split; [reflexivity|]. split; [lia | discriminate].
    + destruct (IH (attempt + 1)%Z last w1) as (b & l & w' & Hrun & Hle & Hall).
      exists b, l, w'. split; [exact Hrun|]. split; [lia | intros Hb; rewrite (Hall Hb); lia].
    + unfold bind at 1. cbn [appendLog modify ret fst snd].
      match goal with
      | |- context [login_attempts E cfg k ?a ?l row ?w2] =>
          destruct (IH a l w2) as (b & l' & w' & Hrun & Hle & Hall);
          assert (Hw2 : attempts w2 = attempts w1)
      end.
      { exact (appendLog_attempts
                 ("Login attempt " ++ decimal attempt ++ " error: " ++ JS.message e)
                 eq_refl w1). }
      exists b, l', w'. split; [exact Hrun|].
      split; [lia | intros Hb; rewrite (Hall Hb); lia].
Qed.

End Attempts.

End LoginAttempts.

Section LoginClaims.

Import Driver.

(** C5, amended. The retry loop returns, and the login attempts it makes
    are at most [Math.max(1, N)] for a retry count [N], so at most [N] when [N]
    is at least 1, and none when the count is [NaN]; when it gives up, the
    record being marked failed, it has made exactly that many. An attempt
    whose success heuristic returns true ends the loop: nothing is done after
    it. *)
Theorem login_attempts_at_most (E : Outside) (cfg : Settings) (row : JS.object)
    (w : World) :
  (exists loggedIn last w',
      retry_login E cfg row w = (Ok (loggedIn, last), w')
      /\ attempts w' - attempts w <= attempts_allowed (RETRY_LOGIN cfg)
      /\ (forall N, RETRY_LOGIN cfg = Int N ->
            (Z.of_nat (attempts w' - attempts w) <= Z.max 1 N)%Z
            /\ ((1 <= N)%Z -> (Z.of_nat (attempts w' - attempts w) <= N)%Z))
      /\ (RETRY_LOGIN cfg = NaN -> attempts w' = attempts w /\ loggedIn = false)
      /\ (loggedIn = false ->
          attempts w' - attempts w = attempts_allowed (RETRY_LOGIN cfg)))
  /\ (forall k attempt last w1,
        attempt_body E cfg row w = (Ok true, w1) ->
        login_attempts E cfg (S k) attempt last row w = (Ok (true, last), w1)).
Proof.
  split.
  - unfold retry_login.
    destruct (login_attempts_bounded E cfg row (attempts_allowed (RETRY_LOGIN cfg))
                1%Z None w) as (b & l & w' & Hrun & Hle & Hall).
    exists b, l, w'. split; [exact Hrun|]. split; [lia|]. split; [|split].
    + intros N HN. rewrite HN in Hle. cbn [attempts_allowed] in Hle.
      assert (Hmax : (Z.of_nat (attempts w' - attempts w) <= Z.max 1 N)%Z) by lia.
      split; [exact Hmax | lia].
    + intros HN. rewrite HN in *. cbn in Hrun. injection Hrun as <- <- <-. auto.
    + intros Hb. rewrite (Hall Hb). lia.
  - intros k attempt last w1 Hbody. cbn [login_attempts].
    unfold bind at 1, try_catch. unfold bind at 1. rewrite Hbody. reflexivity.
Qed.

(** A login page that stays: the name field is there after every attempt
    and the address is still that of the login page. *)
Definition login_page : Page.Browser :=
  {| Page.rejects := fun _ _ => None;
     Page.querySelector := fun _ _ => None;
     Page.select_values := fun _ _ _ => [];
     Page.handle := fun _ s => s =? "#UserName";
     Page.visible := fun _ _ => false;
     Page.url := fun _ => "https://example.com/Home" |}.

Definition stuck : Outside :=
  {| browser := login_page;
     date_now := fun _ => "1730000000000";
     to_iso_date := fun _ => "";
     write_fails := fun _ => None |}.

Definition settings (retry : parsed_int) : Settings :=
  {| LOGIN_URL := "https://example.com/Home";
     SAVE_SCREENSHOT_ON_SUCCESS := false;
     RETRY_LOGIN := retry;
     MAX_ROWS := None;
     GLOBAL_FAS_URL := JS.Null;
     LOGS_DIR := "/work/logs" |}.

Definition asha : JS.object :=
  [("UserName", JS.Str "asha"); ("Password", JS.Str "s3cret");
   ("Language", JS.Str ""); ("LoginDataTime", JS.Str "");
   ("ValidateCaptcha", JS.Str ""); ("NextPage", JS.Str "");
   ("Field1", JS.Str ""); ("Field2", JS.Str "")].

Definition start : World := {| page := []; console := []; logfile := [] |}.

(** C5 as stated fails for a retry count of 0: one attempt is made. *)
Lemma one_attempt_when_retry_is_zero :
  RETRY_LOGIN (settings (Int 0)) = Int 0
  /\ fst (retry_login stuck (settings (Int 0)) asha start) = Ok (false, None)
  /\ attempts start = 0
  /\ attempts (snd (retry_login stuck (settings (Int 0)) asha start)) = 1.
Proof. repeat split; vm_compute; reflexivity. Qed.

Lemma login_attempts_at_most_witness :
  (Z.of_nat (attempts (snd (retry_login stuck (settings (Int 3)) asha start))
             - attempts start) <= 3)%Z
  /\ attempts (snd (retry_login stuck (settings (Int 3)) asha start)) = 3.
Proof.
  destruct (proj1 (login_attempts_at_most stuck (settings (Int 3)) asha start))
    as (b & l & w' & Hrun & _ & Hint & _ & _).
  rewrite Hrun. cbn [snd].
  split; [exact (proj2 (Hint 3%Z eq_refl) ltac:(lia))|].
  assert (Hw : w' = snd (retry_login stuck (settings (Int 3)) asha start))
    by (now rewrite Hrun).
  rewrite Hw. vm_compute. reflexivity.
Defined.

End LoginClaims.

Section MainLoop.

Import Driver.

Definition same_writes (s s' : State) : Prop := writes s' = writes s.

#[local] Instance same_writes_preorder : PreOrder same_writes.
Proof.
  split.
  - intros s. reflexivity.
  - intros s1 s2 s3 H1 H2. unfold same_writes in *. congruence.
Qed.

Lemma on_world_writes {A} (m : M World A) : always same_writes (on_world m).
Proof. intros s. unfold on_world. destruct (m (world s)). reflexivity. Qed.

Lemma set_stateFile_writes (f : string) : always same_writes (set_stateFile f).
Proof. intros s. reflexivity. Qed.

Lemma total_on_world {A} (m : M World A) : total m -> total (on_world m).
Proof.
  intros Hm s. unfold on_world. destruct (Hm (world s)) as [a Ha].
  destruct (m (world s)) as [r w]. cbn in *. now exists a.
Qed.

(** [m] returns and leaves the CSV file as it is. *)
Definition steady {A} (m : M State A) : Prop :=
  total m /\ always same_writes m.

(** [m] returns, having written one line, which has [P]. *)
Definition writes_one {A} (P : CsvRow -> Prop) (m : M State A) : Prop :=
  forall s, exists a s' line,
    m s = (Ok a, s') /\ writes s' = (writes s ++ [Written line])%list /\ P line.

(** [m] returns, having written one line, which has [P], or throws, having
    written none. *)
Definition writes_one_or_throws {A} (P : CsvRow -> Prop) (m : M State A) : Prop :=
  forall s,
    match m s with
    | (Ok _, s') => exists line, writes s' = (writes s ++ [Written line])%list /\ P line
    | (Throw _, s') => writes s' = writes s
    end.

Lemma steady_on_world {A} (m : M World A) : total m -> steady (on_world m).
Proof. intros Hm. split; [now apply total_on_world | apply on_world_writes]. Qed.

Lemma steady_bind {A C} (m : M State A) (k : A -> M State C) :
  steady m -> (forall a, steady (k a)) -> steady (bind m k).
Proof.
  intros [Ht Hw] Hk. split.
  - apply total_bind; [exact Ht | intros a; apply Hk].
  - apply (@always_bind _ _ _); [exact Hw | intros a; apply Hk].
Qed.

Lemma steady_ret {A} (a : A) : steady (@ret State A a).
Proof. split; [apply total_ret | apply (@always_ret _ _ _)]. Qed.

Lemma steady_gets {A} (f : State -> A) : steady (gets f).
Proof. split; [apply total_gets | apply (@always_gets _ _ _)]. Qed.

Lemma steady_set_stateFile (f : string) : steady (set_stateFile f).
Proof. split; [apply total_modify | apply set_stateFile_writes]. Qed.

Lemma writes_one_after {A C} (P : CsvRow -> Prop) (m : M State A) (k : A -> M State C) :
  steady m -> (forall a, writes_one P (k a)) -> writes_one P (bind m k).
Proof.
  intros [Ht Hw] Hk s. unfold bind. specialize (Hw s). destruct (Ht s) as [a Ha].
  destruct (m s) as [[a'|e] s1]; cbn in *; [|discriminate].
  destruct (Hk a' s1) as (c & s2 & line & Hrun & Hwr & HP).
  exists c, s2, line. rewrite Hrun. split; [reflexivity|]. split; [congruence | exact HP].
Qed.

Lemma writes_one_before {A C} (P : CsvRow -> Prop) (m : M State A) (k : A -> M State C) :
  writes_one P m -> (forall a, steady (k a)) -> writes_one P (bind m k).
Proof.
  intros Hm Hk s. unfold bind.
  destruct (Hm s) as (a & s1 & line & Hrun & Hwr & HP). rewrite Hrun.
  destruct (Hk a) as [Ht Hw]. specialize (Hw s1). destruct (Ht s1) as [c Hc].
  destruct (k a s1) as [[c'|e] s2]; cbn in *; [|discriminate].
  exists c', s2, line. split; [reflexivity|]. split; [congruence | exact HP].
Qed.

Lemma writes_one_or_throws_bind {A C} (P : CsvRow -> Prop) (m : M State A)
    (k : A -> M State C) :
  always same_writes m -> (forall a, writes_one_or_throws P (k a)) ->
  writes_one_or_throws P (bind m k).
Proof.
  intros Hm Hk s. unfold bind. specialize (Hm s).
  destruct (m s) as [[a|e] s1]; cbn in *; [|exact Hm].
  specialize (Hk a s1). destruct (k a s1) as [[c|e] s2].
  - destruct Hk as (line & Hwr & HP). exists line. split; [congruence | exact HP].
  - unfold same_writes in Hm. congruence.
Qed.

Lemma writes_one_throws {A} (P : CsvRow -> Prop) (m : M State A) :
  writes_one P m -> writes_one_or_throws P m.
Proof.
  intros Hm s. destruct (Hm s) as (a & s1 & line & Hrun & Hwr & HP).
  rewrite Hrun. now exists line.
Qed.

Lemma total_appendLog (line : string) : total (appendLog line).
Proof. apply total_modify. Qed.

Lemma total_console_log (line : string) : total (console_log line).
Proof. apply total_modify. Qed.

Ltac steady_step :=
  match goal with
  | |- steady (bind _ _) => apply steady_bind; [ | intros ? ]
  | |- steady (ret _) => apply steady_ret
  | |- steady (gets _) => apply steady_gets
  | |- steady (set_stateFile _) => apply steady_set_stateFile
  | |- steady (on_world _) => apply steady_on_world
  | |- steady (if ?c then _ else _) => destruct c
  | |- total (on_page _) => apply total_driver_on_page
  | |- total (or_else _ _) => apply total_or_else
  | |- total (try_catch _ _) => apply total_try_catch; intros ?
  | |- total (appendLog _) => apply total_appendLog
  | |- total (console_log _) => apply total_console_log
  | |- total (now _) => apply total_gets
  | |- total (ret _) => apply total_ret
  end.

Section WithCsv.

Variable E : Outside.
Variable cfg : Settings.
Variable fillTransactionPaymentForm : JS.object -> M World unit.

(** The CSV file can be written. *)
Hypothesis csv_writes : forall n, write_fails E n = None.

Lemma writeRecords_one (line : CsvRow) :
  writes_one (eq line) (writeRecords E line).
Proof.
  intros s. unfold writeRecords. rewrite csv_writes.
  eexists tt, _, line. split; [reflexivity|]. cbn. split; reflexivity.
Qed.

Lemma writes_one_weaken {A} (P Q : CsvRow -> Prop) (m : M State A) :
  (forall line, P line -> Q line) -> writes_one P m -> writes_one Q m.
Proof.
  intros HPQ Hm s. destruct (Hm s) as (a & s' & line & H1 & H2 & H3).
  exists a, s', line. auto.
Qed.

(** A login that failed is logged as a failure line. *)
Lemma login_failed_writes (name : string) (last : option JS.error) :
  writes_one
    (fun line =>
       username line = name /\ success line = "false"
       /\ message line =
            "Login failed: " ++ match last with
                                | Some e => JS.message e
                                | None => "still on login page"
                                end
       /\ targetUrl line = LOGIN_URL cfg)
    (login_failed E cfg name last).
Proof.
  unfold login_failed.
  apply writes_one_after; [repeat steady_step | intros t].
  apply writes_one_after; [repeat steady_step | intros _].
  apply writes_one_after; [repeat steady_step | intros _].
  eapply writes_one_weaken; [|apply writeRecords_one].
  intros line <-. cbn. auto.
Qed.

(** After a login that succeeded the line says so, whatever the form fill
    did, also when it threw. *)
Lemma logged_in_writes (name : string) (row : JS.object) :
  writes_one
    (fun line => username line = name /\ success line = "true" /\ message line = "OK")
    (logged_in E cfg fillTransactionPaymentForm name row).
Proof.
  unfold logged_in.
  apply writes_one_after; [repeat steady_step | intros _].
  apply writes_one_after; [repeat steady_step | intros t].
  apply writes_one_after; [repeat steady_step | intros _].
  apply writes_one_after; [repeat steady_step | intros file].
  apply writes_one_after; [repeat steady_step | intros _].
  apply writes_one_after; [repeat steady_step | intros _].
  apply writes_one_after; [repeat steady_step | intros screenshotFile].
  apply writes_one_before; [|intros _; repeat steady_step].
  eapply writes_one_weaken; [|apply writeRecords_one].
  intros line <-. cbn. auto.
Qed.

(** Any other exception of the record is logged as an error line. *)
Lemma record_failed_writes (name : string) (err : JS.error) :
  writes_one
    (fun line => username line = name /\ success line = "error"
                 /\ message line = JS.error_to_string err)
    (record_failed E cfg name err).
Proof.
  unfold record_failed.
  apply writes_one_after; [repeat steady_step | intros _].
  apply writes_one_after; [repeat steady_step | intros t].
  apply writes_one_after; [repeat steady_step | intros _].
  apply writes_one_after; [repeat steady_step | intros file].
  eapply writes_one_weaken; [|apply writeRecords_one].
  intros line <-. cbn. auto.
Qed.

(** A line of the record [name], with one of the three marks. *)
Definition line_of (name : string) (line : CsvRow) : Prop :=
  username line = name
  /\ (success line = "true" \/ success line = "false" \/ success line = "error").

Lemma finish_record_writes (name : string) (row : JS.object)
    (r : bool * option JS.error) :
  writes_one (line_of name) (finish_record E cfg fillTransactionPaymentForm name row r).
Proof.
  unfold finish_record. destruct (fst r); cbn [negb].
  - eapply writes_one_weaken; [|apply logged_in_writes].
    intros line (H1 & H2 & _). split; auto.
  - eapply writes_one_weaken; [|apply login_failed_writes].
    intros line (H1 & H2 & _). split; auto.
Qed.

Lemma record_body_writes (name : string) (row : JS.object) :
  writes_one_or_throws (line_of name)
    (record_body E cfg fillTransactionPaymentForm name row).
Proof.
  unfold record_body.
  repeat (apply writes_one_or_throws_bind; [apply on_world_writes | intros ?]).
  apply writes_one_throws. apply finish_record_writes.
Qed.

(** Every record gets its line, and the driver goes on. *)
Lemma process_record_writes (row : JS.object) :
  writes_one
    (fun line =>
       (success line = "true" \/ success line = "false" \/ success line = "error")
       /\ (JS.truthy (JS.get row "UserName") = true ->
           username line = JS.to_string (JS.get row "UserName")))
    (process_record E cfg fillTransactionPaymentForm row).
Proof.
  unfold process_record, username_of. intros s.
  set (named := on_world _). unfold bind at 1.
  assert (Hnamed : exists name w,
             named s = (Ok name, {| world := w; writes := writes s;
                                    the_stateFile := the_stateFile s |})
             /\ (JS.truthy (JS.get row "UserName") = true ->
                 name = JS.to_string (JS.get row "UserName"))).
  { subst named. unfold on_world.
    destruct (JS.truthy (JS.get row "UserName")).
    - eexists _, _. split; [reflexivity | auto].
    - eexists _, _. split; [reflexivity | discriminate]. }
  destruct Hnamed as (name & w & Hnamed & Hname). rewrite Hnamed.
  unfold bind at 1. cbn [set_stateFile modify].
  match goal with |- context [try_catch ?m ?h ?s1] => set (s1' := s1) end.
  pose proof (record_body_writes name row s1') as Hbody.
  unfold try_catch.
  destruct (record_body E cfg fillTransactionPaymentForm name row s1')
    as [[[]|e] s2].
  - destruct Hbody as (line & Hwr & Hn & Hs).
    exists tt, s2, line. split; [reflexivity|]. split; [exact Hwr|].
    split; [exact Hs | intros Ht; rewrite Hn; auto].
  - destruct (record_failed_writes name e s2) as ([] & s3 & line & Hrun & Hwr & Hn & Hs & _).
    exists tt, s3, line. split; [exact Hrun|]. split; [cbn in *; congruence|].
    split; [auto | intros Ht; rewrite Hn; auto].
Qed.

End WithCsv.

End MainLoop.

Section MainLoopClaims.

Import Driver.

(** The records the loop takes up: those before the cap of line 794. *)
Fixpoint taken (max_rows : option parsed_int) (processed : Z) (rows : list JS.object)
  : list JS.object :=
  match rows with
  | [] => []
  | row :: rest =>
      if cap_reached max_rows processed then []
      else row :: taken max_rows (processed + 1)%Z rest
  end.

Lemma taken_all (processed : Z) (rows : list JS.object) :
  taken None processed rows = rows.
Proof.
  revert processed. induction rows as [|row rest IH]; intros processed; cbn;
    [reflexivity | now rewrite IH].
Qed.

Lemma csv_of_app (ws : list Write) (line : CsvRow) :
  csv_of (ws ++ [Written line]) = (csv_of ws ++ [line])%list.
Proof.
  induction ws as [|[l|l e] r IH]; cbn; [reflexivity | now rewrite IH | exact IH].
Qed.

(** The line of a record: one of the three marks, under the record's name. *)
Definition logged (row : JS.object) (line : CsvRow) : Prop :=
  (success line = "true" \/ success line = "false" \/ success line = "error")
  /\ (JS.truthy (JS.get row "UserName") = true ->
      username line = JS.to_string (JS.get row "UserName")).


(** A session that ends right after the login: the pause of line 771, before
    the form is filled, rejects. *)
Definition form_gone : Outside :=
  {| browser :=
       {| Page.rejects := fun _ c =>
            match c with
            | Page.WaitForTimeout 700 => Some target_closed
            | _ => None
            end;
          Page.querySelector := fun _ _ => None;
          Page.select_values := fun _ _ _ => [];
          Page.handle := fun _ _ => false;
          Page.visible := fun _ _ => false;
          Page.url := fun _ => "https://example.com/Dashboard" |};
     date_now := fun _ => "1730000000000";
     to_iso_date := fun _ => "";
     write_fails := fun _ => None |}.

Definition init : State := {| world := start; writes := []; the_stateFile := "" |}.



End MainLoopClaims.

(** ** The row source: errors, empty sheets, and what a record holds *)

Section RowSourceEdges.

Import Excel.

(** X1. A file that does not exist, or that is empty or no regular file, is
    refused before any parser is called: [readExcel] throws the error of
    line 19 after [fs.existsSync] alone, or that of line 24 after
    [fs.statSync], and neither exceljs nor sheetjs is asked to read it. *)
Theorem readExcel_precondition (f : File) (t : list call) :
  (existsSync f = false ->
     readExcel f t =
       (Throw (JS.Error ("Excel file not found: " ++ resolved f)),
        (t ++ [ExistsSync])%list))
  /\ (existsSync f = true ->
      stat_isFile f = false \/ stat_size f = 0%Z ->
      readExcel f t =
        (Throw (JS.Error ("Excel file is empty or not a regular file: "
                          ++ resolved f)),
         (t ++ [ExistsSync; StatSync])%list)).
Proof.
  split.
  - intros Hex. unfold readExcel, bind, emit, modify. rewrite Hex. reflexivity.
  - intros Hex Hbad. unfold readExcel, bind, emit, modify. rewrite Hex. cbn [negb].
    assert (Hc : negb (stat_isFile f) || (stat_size f =? 0)%Z = true).
    { destruct Hbad as [H|H]; rewrite H; [reflexivity|].
      rewrite Z.eqb_refl. apply orb_true_r. }
    rewrite Hc. unfold throw. now rewrite <- app_assoc.
Qed.

Definition missing_file : File :=
  {| resolved := "/data/input.xlsx";
     existsSync := false;
     stat_isFile := false;
     stat_size := 0;
     exceljs_readFile := Throw (JS.Error "ENOENT");
     xlsx_readFile := Throw (JS.Error "ENOENT") |}.

Definition empty_file : File :=
  {| resolved := "/data/input.xlsx";
     existsSync := true;
     stat_isFile := true;
     stat_size := 0;
     exceljs_readFile := Ok {| worksheets := [] |};
     xlsx_readFile := Ok {| SheetNames := []; Sheets := [] |} |}.

Lemma readExcel_precondition_witness :
  readExcel missing_file [] =
    (Throw (JS.Error "Excel file not found: /data/input.xlsx"), [ExistsSync])
  /\ readExcel empty_file [] =
       (Throw (JS.Error "Excel file is empty or not a regular file: /data/input.xlsx"),
        [ExistsSync; StatSync]).
Proof.
  split.
  - exact (proj1 (readExcel_precondition missing_file []) eq_refl).
  - exact (proj2 (readExcel_precondition empty_file []) eq_refl (or_intror eq_refl)).
Defined.

(** X2. When exceljs reads the file and every row normalizes, the rows of
    exceljs are the result, and sheetjs is never called: no warning is
    printed and [XLSX.readFile] is not reached. *)
Theorem readExcel_primary_only (f : File) (rows : list JS.object) :
  readable f ->
  obind (exceljs_readFile f) read_workbook = Ok rows ->
  readExcel f [] = (Ok rows, [ExistsSync; StatSync; ExceljsReadFile]).
Proof.
  intros Hf Hrows. rewrite (readExcel_readable f Hf), Hrows. reflexivity.
Qed.

Lemma readExcel_primary_only_witness :
  exists rows,
    readExcel mixed_case_file [] = (Ok rows, [ExistsSync; StatSync; ExceljsReadFile])
    /\ length rows = 2.
Proof.
  eexists. split.
  - apply (readExcel_primary_only mixed_case_file).
    + repeat split. discriminate.
    + reflexivity.
  - reflexivity.
Defined.

(** The rows [worksheet.eachRow] visits below the header row. *)
Definition header_only (ws : Worksheet) : Prop :=
  forall r, In r ws -> hasValues r = true -> rowNumber r = 1.

Lemma data_rows_header_only (headers : Headers) (rows : list Row) :
  (forall r, In r rows -> rowNumber r = 1) -> data_rows headers rows = Ok [].
Proof.
  induction rows as [|r rest IH]; intros Hall; cbn; [reflexivity|].
  rewrite (Hall r (or_introl eq_refl)). cbn. apply IH.
  intros r' Hin. apply Hall. now right.
Qed.

(** X3. A workbook without a worksheet, or whose first worksheet has no row
    with values below the header row, gives the empty list of records and no
    error, and the fallback parser is not tried. *)
Theorem readExcel_no_data_rows (f : File) (wb : Workbook) :
  readable f ->
  exceljs_readFile f = Ok wb ->
  match worksheets wb with
  | [] => True
  | worksheet :: _ => header_only worksheet
  end ->
  readExcel f [] = (Ok [], [ExistsSync; StatSync; ExceljsReadFile]).
Proof.
  intros Hf Hwb Hrows. rewrite (readExcel_readable f Hf), Hwb. cbn [obind].
  unfold read_workbook. destruct (worksheets wb) as [|worksheet rest]; [reflexivity|].
  rewrite data_rows_header_only; [reflexivity|].
  intros r Hin. unfold eachRow in Hin. apply filter_In in Hin.
  destruct Hin as [Hin Hval]. now apply Hrows.
Qed.

Definition header_only_file : File :=
  {| resolved := "/data/input.xlsx";
     existsSync := true;
     stat_isFile := true;
     stat_size := 4096;
     exceljs_readFile :=
       Ok {| worksheets :=
               [[ {| rowNumber := 1; hasValues := true;
                     cells := [(1, JS.Str "UserName"); (2, JS.Str "Password")] |};
                  {| rowNumber := 2; hasValues := false; cells := [] |} ]] |};
     xlsx_readFile := Throw (JS.Error "not read") |}.

Lemma readExcel_no_data_rows_witness :
  readExcel header_only_file [] = (Ok [], [ExistsSync; StatSync; ExceljsReadFile]).
Proof.
  eapply (readExcel_no_data_rows header_only_file).
  - repeat split. discriminate.
  - reflexivity.
  - intros r [<-|[<-|[]]]; [reflexivity | discriminate].
Defined.

End RowSourceEdges.

Section RecordValues.

Import Excel.

(** *** Trimming *)

Lemma trimStart_head (s : string) :
  match JS.trimStart s with
  | EmptyString => True
  | String c _ => JS.is_space c = false
  end.
Proof.
  induction s as [|c r IH]; cbn; [exact I|].
  destruct (JS.is_space c) eqn:Hc; [exact IH | exact Hc].
Qed.

Lemma trimStart_fixed (c : ascii) (r : string) :
  JS.is_space c = false -> JS.trimStart (String c r) = String c r.
Proof. intros Hc. cbn. now rewrite Hc. Qed.

Lemma trimEnd_head (c : ascii) (r : string) :
  JS.is_space c = false -> exists r', JS.trimEnd (String c r) = String c r'.
Proof.
  intros Hc. cbn. destruct (JS.trimEnd r); [rewrite Hc|]; eexists; reflexivity.
Qed.

Lemma trimEnd_idempotent (s : string) : JS.trimEnd (JS.trimEnd s) = JS.trimEnd s.
Proof.
  induction s as [|c r IH]; [reflexivity|]. cbn.
  destruct (JS.trimEnd r) as [|d r'] eqn:Hr.
  - destruct (JS.is_space c) eqn:Hc; [reflexivity|]. cbn. now rewrite Hc.
  - cbn [JS.trimEnd] in *. rewrite IH. reflexivity.
Qed.

Lemma trim_idempotent (s : string) : JS.trim (JS.trim s) = JS.trim s.
Proof.
  unfold JS.trim. pose proof (trimStart_head s) as Hhead.
  destruct (JS.trimStart s) as [|c r]; [reflexivity|].
  destruct (trimEnd_head c r Hhead) as [r' Hr']. rewrite Hr'.
  rewrite (trimStart_fixed c r' Hhead), <- Hr'. apply trimEnd_idempotent.
Qed.

(** A string with no white space at either end. *)
Definition trimmed (v : JS.value) : Prop := exists s, v = JS.Str s /\ JS.trim s = s.

Definition trimmed_values (o : JS.object) : Prop := Forall (fun kv => trimmed (snd kv)) o.

Lemma trimmed_empty : trimmed (JS.Str "").
Proof. now exists "". Qed.

Lemma trimmed_text (s : string) : trimmed (JS.Str (JS.trim s)).
Proof. exists (JS.trim s). split; [reflexivity | apply trim_idempotent]. Qed.

Lemma cell_text_trimmed (v : JS.value) : trimmed (JS.Str (cell_text v)).
Proof.
  unfold cell_text. destruct (JS.nullish v); [apply trimmed_empty | apply trimmed_text].
Qed.

Lemma raw_text_trimmed (v : JS.value) : trimmed (JS.Str (raw_text v)).
Proof.
  unfold raw_text. destruct (JS.nullish v); [apply trimmed_empty | apply trimmed_text].
Qed.

Lemma trimmed_values_assign (o : JS.object) (k : string) (v : JS.value) :
  trimmed_values o -> trimmed v -> trimmed_values (JS.assign o k v).
Proof.
  intros Ho Hv. induction Ho as [|[k' v'] r Hkv Hr IH]; cbn.
  - now repeat constructor.
  - destruct (k' =? k); constructor; auto.
Qed.

Lemma trimmed_values_set (o : JS.object) (k : string) (v : JS.value) :
  trimmed_values o -> trimmed v -> trimmed_values (JS.set o k v).
Proof.
  intros Ho Hv. unfold JS.set. destruct (k =? "__proto__"); [exact Ho|].
  now apply trimmed_values_assign.
Qed.

Lemma row_object_trimmed (headers : Headers) (r : Row) :
  trimmed_values (row_object headers r).
Proof.
  unfold row_object.
  assert (H : forall cs o, trimmed_values o ->
                           trimmed_values (fold_left (put_cell headers) cs o)).
  { induction cs as [|c cs IH]; intros o Ho; cbn; [exact Ho|].
    apply IH. unfold put_cell.
    destruct (negb _); [|exact Ho].
    apply trimmed_values_set; [exact Ho | apply cell_text_trimmed]. }
  apply H. constructor.
Qed.

Lemma raw_object_trimmed (r : JS.object) : trimmed_values (raw_object r).
Proof.
  unfold raw_object.
  assert (H : forall ks o, trimmed_values o ->
              trimmed_values
                (fold_left (fun obj k => JS.set obj k (JS.Str (raw_text (JS.get r k))))
                           ks o)).
  { induction ks as [|k ks IH]; intros o Ho; cbn; [exact Ho|].
    apply IH. apply trimmed_values_set; [exact Ho | apply raw_text_trimmed]. }
  apply H. constructor.
Qed.

Lemma trimmed_get_own (o : JS.object) (k : string) (v : JS.value) :
  trimmed_values o -> JS.get_own o k = Some v -> trimmed v.
Proof.
  intros Ho Hget. apply get_own_some_in in Hget.
  unfold trimmed_values in Ho. rewrite Forall_forall in Ho. exact (Ho _ Hget).
Qed.

Lemma trimmed_get_key (o : JS.object) (k : string) :
  trimmed_values o -> In k (JS.keys o) -> trimmed (JS.get o k).
Proof.
  intros Ho Hin. destruct (in_keys_get_own o k Hin) as [v Hv].
  rewrite (get_of_own o k v Hv). now apply (trimmed_get_own o k).
Qed.

Lemma get_trimmed (obj : JS.object) (names : list string) (v : JS.value) :
  trimmed_values obj -> get obj names = Ok v -> trimmed v.
Proof.
  intros Hobj. induction names as [|n rest IH]; cbn.
  - intros H. injection H as <-. apply trimmed_empty.
  - unfold hasOwnProperty.
    destruct (JS.get_own obj "hasOwnProperty"); cbn; [discriminate|].
    unfold JS.has_own. destruct (JS.get_own obj n) as [v'|] eqn:Hn.
    + intros H. injection H as <-. rewrite (get_of_own obj n v' Hn).
      now apply (trimmed_get_own obj n).
    + destruct (find (same_name n) (JS.keys obj)) as [lower|] eqn:Hfind; [|exact IH].
      destruct (negb (lower =? "")); [|exact IH].
      intros H. injection H as <-. apply trimmed_get_key; [exact Hobj|].
      apply find_some in Hfind. exact (proj1 Hfind).
Qed.

Lemma field_trimmed (obj : JS.object) (names : list string) (v : JS.value) :
  trimmed_values obj -> field obj names = Ok v -> trimmed v.
Proof.
  intros Hobj. unfold field. destruct (get obj names) as [g|e] eqn:Hg; cbn; [|discriminate].
  intros H. injection H as <-. unfold JS.or.
  destruct (JS.truthy g); [now apply (get_trimmed obj names) | apply trimmed_empty].
Qed.

Lemma normalizeRow_trimmed (obj rec : JS.object) :
  trimmed_values obj -> normalizeRow obj = Ok rec -> trimmed_values rec.
Proof.
  intros Hobj Hrec. pose proof (normalizeRow_fields obj rec Hrec) as Hall.
  unfold trimmed_values. clear Hrec.
  induction Hall as [|entry kv es r [_ Hf] _ IH]; [constructor|].
  constructor; [|exact IH].
  now apply (field_trimmed obj (snd entry)).
Qed.

Lemma data_rows_trimmed (headers : Headers) (rows : list Row) (recs : list JS.object) :
  data_rows headers rows = Ok recs -> Forall trimmed_values recs.
Proof.
  revert recs. induction rows as [|r rest IH]; intros recs; cbn.
  - intros H. injection H as <-. constructor.
  - destruct (Nat.eqb (rowNumber r) 1); [apply IH|].
    destruct (normalizeRow (row_object headers r)) as [rec|e] eqn:Hrec; cbn; [|discriminate].
    destruct (data_rows headers rest) as [recs'|e]; cbn; [|discriminate].
    intros H. injection H as <-. constructor; [|now apply IH].
    apply (normalizeRow_trimmed (row_object headers r)); [apply row_object_trimmed | exact Hrec].
Qed.

Lemma omap_trimmed (raw : list JS.object) (recs : list JS.object) :
  omap (fun r => normalizeRow (raw_object r)) raw = Ok recs -> Forall trimmed_values recs.
Proof.
  revert recs. induction raw as [|r rest IH]; intros recs; cbn.
  - intros H. injection H as <-. constructor.
  - destruct (normalizeRow (raw_object r)) as [rec|e] eqn:Hrec; cbn; [|discriminate].
    destruct (omap _ rest) as [recs'|e]; cbn; [|discriminate].
    intros H. injection H as <-. constructor; [|now apply IH].
    apply (normalizeRow_trimmed (raw_object r)); [apply raw_object_trimmed | exact Hrec].
Qed.

Lemma read_workbook_trimmed (wb : Workbook) (recs : list JS.object) :
  read_workbook wb = Ok recs -> Forall trimmed_values recs.
Proof.
  unfold read_workbook. destruct (worksheets wb) as [|ws rest].
  - intros H. injection H as <-. constructor.
  - apply data_rows_trimmed.
Qed.

Lemma read_xlsx_trimmed (wb : XlsxWorkbook) (recs : list JS.object) :
  read_xlsx wb = Ok recs -> Forall trimmed_values recs.
Proof.
  unfold read_xlsx. destruct (SheetNames wb) as [|n rest].
  - intros H. injection H as <-. constructor.
  - destruct (n =? ""); [intros H; injection H as <-; constructor|].
    apply omap_trimmed.
Qed.



(** X5. [normalizeRow] leaves a record as it is: on an object that has the
    eight fields, in their order, each a string, it returns the same object. *)
Theorem normalizeRow_idempotent (rec : JS.object) :
  is_record rec -> normalizeRow rec = Ok rec.
Proof.
  intros [Hkeys Hstr]. unfold whitelist in Hkeys.
  repeat (destruct rec as [|[? ?] rec]; [discriminate|]).
  destruct rec; [|discriminate]. cbn in Hkeys.
  injection Hkeys as -> -> -> -> -> -> -> ->.
  assert (Hor : forall s, JS.or (JS.Str s) (JS.Str "") = JS.Str s).
  { intros s. unfold JS.or. cbn. destruct (s =? "") eqn:Hs; [|reflexivity].
    apply String.eqb_eq in Hs. now subst s. }
  repeat match goal with
         | H : all_strings (_ :: _) |- _ => inversion H; clear H; subst
         | H : Forall _ (_ :: _) |- _ => inversion H; clear H; subst
         | H : is_string (snd (_, _)) |- _ => cbn [snd] in H; destruct H as [? ->]
         end.
  cbn -[JS.or]. now rewrite !Hor.
Qed.

Lemma normalizeRow_idempotent_witness :
  normalizeRow [("UserName", JS.Str "asha"); ("Password", JS.Str "");
                ("Language", JS.Str "en"); ("LoginDataTime", JS.Str "");
                ("ValidateCaptcha", JS.Str ""); ("NextPage", JS.Str "/FAS");
                ("Field1", JS.Str ""); ("Field2", JS.Str "")]
  = Ok [("UserName", JS.Str "asha"); ("Password", JS.Str "");
        ("Language", JS.Str "en"); ("LoginDataTime", JS.Str "");
        ("ValidateCaptcha", JS.Str ""); ("NextPage", JS.Str "/FAS");
        ("Field1", JS.Str ""); ("Field2", JS.Str "")].
Proof.
  apply normalizeRow_idempotent. split; [reflexivity|].
  repeat constructor; eexists; reflexivity.
Defined.

End RecordValues.

(** ** The calls a computation makes on the page *)

Section Traces.

(** The call an event records. *)
Definition call_of (ev : Page.Event) : Page.Call :=
  match ev with
  | Page.Resolved c _ => c
  | Page.Rejected c _ => c
  end.

(** The history [w'] is [w] and, after it, calls that all have [P]. *)
Definition only (P : Page.Call -> Prop) (w w' : Page.World) : Prop :=
  exists l, w' = (l ++ w)%list /\ Forall (fun ev => P (call_of ev)) l.

#[global] Instance only_preorder (P : Page.Call -> Prop) : PreOrder (only P).
Proof.
  split.
  - intros w. exists []. split; [reflexivity | constructor].
  - intros w1 w2 w3 (l1 & -> & H1) (l2 & -> & H2). exists (l2 ++ l1)%list.
    split; [now rewrite app_assoc | now apply Forall_app].
Qed.

Lemma only_perform (B : Page.Browser) (P : Page.Call -> Prop) {A} (c : Page.Call)
    (result : nat -> A * list Page.Effect) :
  P c -> always (only P) (Page.perform B c result).
Proof.
  intros Hc w. unfold Page.perform.
  destruct (Page.rejects B (length w) c); cbn;
    eexists [_]; (split; [reflexivity | now repeat constructor]).
Qed.

Lemma only_sleep (P : Page.Call -> Prop) (ms : Z) :
  P (Page.WaitForTimeout ms) -> always (only P) (Page.sleep ms).
Proof.
  intros Hc w. cbn. eexists [_]. split; [reflexivity | now repeat constructor].
Qed.

Lemma only_weaken (P Q : Page.Call -> Prop) (w w' : Page.World) :
  (forall c, P c -> Q c) -> only P w w' -> only Q w w'.
Proof.
  intros HPQ (l & -> & Hl). exists l. split; [reflexivity|].
  eapply Forall_impl; [|exact Hl]. intros ev. apply HPQ.
Qed.

(** The same, of the page of the form-fill workflow's state. *)
Definition only_on_form (P : Page.Call -> Prop) (s s' : FormFill.State) : Prop :=
  only P (FormFill.page s) (FormFill.page s').

#[global] Instance only_on_form_preorder (P : Page.Call -> Prop) :
  PreOrder (only_on_form P).
Proof.
  split.
  - intros s. unfold only_on_form. reflexivity.
  - intros s1 s2 s3 H1 H2. unfold only_on_form in *. now transitivity (FormFill.page s2).
Qed.

Lemma only_form_on_page (P : Page.Call -> Prop) {A} (m : M Page.World A) :
  always (only P) m -> always (only_on_form P) (FormFill.on_page m).
Proof.
  intros Hm s. unfold FormFill.on_page, only_on_form. specialize (Hm (FormFill.page s)).
  destruct (m (FormFill.page s)) as [r w]. exact Hm.
Qed.

Lemma only_form_update (P : Page.Call -> Prop) (f : FormFill.RowResult -> FormFill.RowResult) :
  always (only_on_form P) (FormFill.update f).
Proof. intros s. unfold only_on_form. cbn. reflexivity. Qed.

(** And of the page of the driver's world. *)
Definition only_in_world (P : Page.Call -> Prop) (w w' : Driver.World) : Prop :=
  only P (Driver.page w) (Driver.page w').

#[global] Instance only_in_world_preorder (P : Page.Call -> Prop) :
  PreOrder (only_in_world P).
Proof.
  split.
  - intros s. unfold only_in_world. reflexivity.
  - intros s1 s2 s3 H1 H2. unfold only_in_world in *. now transitivity (Driver.page s2).
Qed.

Lemma only_world_on_page (P : Page.Call -> Prop) {A} (m : M Page.World A) :
  always (only P) m -> always (only_in_world P) (Driver.on_page m).
Proof.
  intros Hm s. unfold Driver.on_page, only_in_world. specialize (Hm (Driver.page s)).
  destruct (m (Driver.page s)) as [r w]. exact Hm.
Qed.

Lemma only_world_console_log (P : Page.Call -> Prop) (line : string) :
  always (only_in_world P) (Driver.console_log line).
Proof. intros s. unfold only_in_world. cbn. reflexivity. Qed.

Lemma only_world_appendLog (P : Page.Call -> Prop) (line : string) :
  always (only_in_world P) (Driver.appendLog line).
Proof. intros s. unfold only_in_world. cbn. reflexivity. Qed.

End Traces.

(** One step through a computation, for the calls it makes. *)
Ltac trace_step :=
  match goal with
  | |- always ?R (bind _ _) => apply (@always_bind _ R _); [ | intros ? ]
  | |- always ?R (ret _) => apply (@always_ret _ R _)
  | |- always ?R (lift _) => apply (@always_lift _ R _)
  | |- always ?R (gets _) => apply (@always_gets _ R _)
  | |- always ?R (try_catch _ _) => apply (@always_try_catch _ R _); [ | intros ? ]
  | |- always ?R (or_else _ _) => apply (@always_or_else _ R _)
  | |- always (only _) (Page.perform _ _ _) => apply only_perform
  | |- always (only _) (Page.sleep _) => apply only_sleep
  | |- always (only_on_form _) (FormFill.on_page _) => apply only_form_on_page
  | |- always (only_on_form _) (FormFill.update _) => apply only_form_update
  | |- always (only_in_world _) (Driver.on_page _) => apply only_world_on_page
  | |- always (only_in_world _) (Driver.console_log _) => apply only_world_console_log
  | |- always (only_in_world _) (Driver.appendLog _) => apply only_world_appendLog
  | |- always _ (if ?c then _ else _) => destruct c
  | |- always _ (match ?x with _ => _ end) => destruct x
  end.

Section FormFillCalls.

Import FormFill.

(** The calls that submit the form or leave the page: a click through
    [page.click], the script that clicks [#btnPost], the script that submits
    the form, and a navigation. *)
Definition submits (c : Page.Call) : bool :=
  match c with
  | Page.Click _ | Page.Goto _ => true
  | Page.Evaluate script selector =>
      (script =? "submit") || ((script =? "click") && (selector =? "#btnPost"))
  | _ => false
  end.

Definition quiet (c : Page.Call) : Prop := submits c = false.

Ltac unfold_page :=
  unfold Page.waitForSelector, Page.click, Page.focus, Page.goto, Page.query,
    Page.select, Page.evaluate.

Lemma setInputValue_quiet (B : Page.Browser) (selector : string) (value : JS.value) :
  always (only quiet) (setInputValue B selector value).
Proof.
  unfold setInputValue. unfold_page. repeat trace_step; reflexivity.
Qed.

Lemma selectOption_quiet (B : Page.Browser) (selector : string) (value : JS.value) :
  always (only quiet) (selectOption B selector value).
Proof.
  unfold selectOption. unfold_page. repeat trace_step; reflexivity.
Qed.

Lemma setCheckbox_quiet (B : Page.Browser) (selector : string) (value : JS.value) :
  always (only quiet) (setCheckbox B selector value).
Proof.
  unfold setCheckbox. unfold_page. repeat trace_step; reflexivity.
Qed.

Section Quiet.

Variable B : Page.Browser.
Variable opts : Opts.

Ltac quiet_action :=
  match goal with
  | |- always _ (setInputValue _ _ _) => apply setInputValue_quiet
  | |- always _ (selectOption _ _ _) => apply selectOption_quiet
  | |- always _ (setCheckbox _ _ _) => apply setCheckbox_quiet
  | |- always _ (push_filled _) => apply only_form_update
  | |- always _ (push_error _) => apply only_form_update
  | |- always _ (set_ok _) => apply only_form_update
  | |- always _ (set_exception _) => apply only_form_update
  | |- quiet _ => reflexivity
  | _ => trace_step
  end.

Lemma fill_field_quiet (row : JS.object) (colHeader : string) :
  always (only_on_form quiet) (fill_field B opts row colHeader).
Proof.
  unfold fill_field, set_by_id_or_name. unfold_page. repeat quiet_action.
Qed.

Lemma fill_fields_quiet (row : JS.object) (headers : list string) :
  always (only_on_form quiet) (fill_fields B opts row headers).
Proof.
  induction headers as [|h rest IH]; cbn; [apply (@always_ret _ _ _)|].
  apply (@always_bind _ _ _); [apply fill_field_quiet | intros _; exact IH].
Qed.

Hypothesis not_asked : JS.truthy (submitAfterRow opts) = false.

Lemma row_body_quiet (row : JS.object) :
  always (only_on_form quiet) (row_body B opts row).
Proof.
  unfold row_body, set_total_amount, save_disbursement_details, submit.
  rewrite not_asked. unfold_page.
  apply (@always_bind _ _ _); [repeat quiet_action | intros _].
  apply (@always_bind _ _ _); [apply fill_fields_quiet | intros _].
  repeat quiet_action.
Qed.

Lemma process_row_quiet (i : nat) (row : JS.object) :
  always (only quiet) (process_row B opts i row).
Proof.
  intros w. unfold process_row. cbn [snd].
  assert (H : always (only_on_form quiet) (try_catch (row_body B opts row) row_failed)).
  { apply (@always_try_catch _ _ _); [apply row_body_quiet | intros e].
    unfold row_failed. repeat quiet_action. }
  exact (H {| page := w; rowResult := new_result i |}).
Qed.

Lemma process_rows_quiet (rows : list JS.object) :
  forall i acc, always (only quiet) (process_rows B opts i rows acc).
Proof.
  induction rows as [|row rest IH]; intros i acc; cbn [process_rows].
  - apply (@always_ret _ _ _).
  - apply (@always_bind _ _ _); [apply process_row_quiet | intros r].
    apply (@always_bind _ _ _); [apply only_sleep; reflexivity | intros _].
    apply IH.
Qed.

End Quiet.

(** X6. Unless [opts.submitAfterRow] is set, the workflow never submits and
    never leaves the page: whatever the spreadsheet and the page, none of its
    calls is a [page.click], a click on [#btnPost], a form submission or a
    navigation. (The script that clicks [#btnsaveDisbursments], for a row with
    disbursement detail columns, is the one click it still makes.) *)
Theorem no_submission_unless_asked (B : Page.Browser) (input : Input) (opts : Opts)
    (w : Page.World) :
  JS.truthy (submitAfterRow opts) = false ->
  exists calls,
    snd (fillLoanDisbursementFromExcel B input opts w) = (calls ++ w)%list
    /\ Forall (fun ev => submits (call_of ev) = false) calls.
Proof.
  intros Hno.
  assert (H : always (only quiet) (fillLoanDisbursementFromExcel B input opts)).
  { unfold fillLoanDisbursementFromExcel.
    destruct (negb (existsSync input)); [intros s; reflexivity|].
    apply (@always_bind _ _ _); [apply (@always_lift _ _ _) | intros rows].
    destruct rows as [|row rest]; [apply (@always_ret _ _ _)|].
    apply (@always_bind _ _ _); [now apply process_rows_quiet | intros r].
    apply (@always_ret _ _ _). }
  exact (H w).
Qed.

Lemma no_submission_unless_asked_witness :
  exists calls,
    snd (fillLoanDisbursementFromExcel demo_page demo_input demo_opts []) = calls
    /\ Forall (fun ev => submits (call_of ev) = false) calls
    /\ length calls = 23.
Proof.
  destruct (no_submission_unless_asked demo_page demo_input demo_opts [] eq_refl)
    as (calls & Hrun & Hall).
  exists calls. rewrite app_nil_r in Hrun. split; [exact Hrun|]. split; [exact Hall|].
  rewrite <- Hrun. vm_compute. reflexivity.
Defined.

End FormFillCalls.

Section FormFillEdges.

Import FormFill.

(** X7. A spreadsheet that is missing, or that sheetjs cannot read, is no
    row failure: the exception leaves [fillLoanDisbursementFromExcel], no
    summary is returned, and nothing was done on the page. *)
Theorem fill_throws_without_spreadsheet (B : Page.Browser) (input : Input)
    (opts : Opts) (w : Page.World) :
  (existsSync input = false ->
     fillLoanDisbursementFromExcel B input opts w =
       (Throw (JS.Error ("Excel file not found: " ++ excelPath input)), w))
  /\ (forall e,
        existsSync input = true -> readFile input = Throw e ->
        fillLoanDisbursementFromExcel B input opts w = (Throw e, w)).
Proof.
  split.
  - intros Hex. unfold fillLoanDisbursementFromExcel. now rewrite Hex.
  - intros e Hex Hread. unfold fillLoanDisbursementFromExcel. now rewrite Hex, Hread.
Qed.

Definition no_input : Input :=
  {| excelPath := "loan_disbursements.xlsx"; existsSync := false;
     readFile := Throw (JS.Error "ENOENT") |}.

Definition unread_input : Input :=
  {| excelPath := "loan_disbursements.xlsx"; existsSync := true;
     readFile := Throw (JS.Error "Unsupported file") |}.

Lemma fill_throws_without_spreadsheet_witness :
  fillLoanDisbursementFromExcel demo_page no_input demo_opts []
  = (Throw (JS.Error "Excel file not found: loan_disbursements.xlsx"), [])
  /\ fillLoanDisbursementFromExcel demo_page unread_input demo_opts []
     = (Throw (JS.Error "Unsupported file"), []).
Proof.
  split.
  - exact (proj1 (fill_throws_without_spreadsheet demo_page no_input demo_opts [])
             eq_refl).
  - exact (proj2 (fill_throws_without_spreadsheet demo_page unread_input demo_opts [])
             _ eq_refl eq_refl).
Defined.

(** X8. The loop over the fields treats a cell that is empty, null or
    undefined as if its column were not there: it makes the same calls on the
    page and leaves the same row result as on the columns that hold a
    value. *)
Theorem blank_cells_are_skipped (B : Page.Browser) (opts : Opts) (row : JS.object)
    (headers : list string) (s : State) :
  fill_fields B opts row headers s
  = fill_fields B opts row
      (filter (fun h => negb (blank (JS.get row h))) headers) s.
Proof.
  revert s. induction headers as [|h rest IH]; intros s; [reflexivity|].
  cbn [fill_fields filter].
  destruct (blank (JS.get row h)) eqn:Hb; cbn [negb].
  - unfold bind at 1, fill_field. rewrite Hb. cbn [ret]. apply IH.
  - cbn [fill_fields]. unfold bind.
    destruct (fill_field B opts row h s) as [[[]|e] s1]; [apply IH | reflexivity].
Qed.

(** *** A page on which no selector ever appears *)

(** Every wait for a selector is rejected (it times out). *)
Definition form_absent (B : Page.Browser) : Prop :=
  forall n selector timeout,
    Page.rejects B n (Page.WaitForSelector selector timeout) <> None.

(** [m] returns [a], always. *)
Definition answers {S A} (a : A) (m : M S A) : Prop :=
  forall s, exists s', m s = (Ok a, s').

Lemma answers_on_page {A} (a : A) (m : M Page.World A) :
  answers a m -> answers a (on_page m).
Proof.
  intros Hm s. unfold on_page. destruct (Hm (page s)) as [w Hw]. rewrite Hw.
  eexists. reflexivity.
Qed.

Lemma always_bind_answer {S A C} (R : S -> S -> Prop) {HR : PreOrder R} (a : A)
    (m : M S A) (k : A -> M S C) :
  answers a m -> always R m -> always R (k a) -> always R (bind m k).
Proof.
  intros Ha Hm Hk s. unfold bind. specialize (Hm s). destruct (Ha s) as [s1 Hs1].
  rewrite Hs1 in *. cbn in Hm. transitivity s1; [exact Hm | apply Hk].
Qed.

Lemma setInputValue_absent (B : Page.Browser) (selector : string) (value : JS.value) :
  form_absent B -> answers false (setInputValue B selector value).
Proof.
  intros HB w. rewrite formfill_setInputValue_run. cbn zeta.
  destruct (JS.nullish value); [eexists; reflexivity|].
  destruct (Page.rejects B (length w) _) eqn:Hr; [eexists; reflexivity|].
  now apply HB in Hr.
Qed.

Lemma selectOption_absent (B : Page.Browser) (selector : string) (value : JS.value) :
  form_absent B -> answers false (selectOption B selector value).
Proof.
  intros HB w. rewrite formfill_selectOption_run. cbn zeta.
  destruct (JS.nullish value); [eexists; reflexivity|].
  destruct (Page.rejects B (length w) _) eqn:Hr; [eexists; reflexivity|].
  now apply HB in Hr.
Qed.

Lemma setCheckbox_absent (B : Page.Browser) (selector : string) (value : JS.value) :
  form_absent B -> answers false (setCheckbox B selector value).
Proof.
  intros HB w. rewrite formfill_setCheckbox_run. cbn zeta.
  destruct (Page.rejects B (length w) _) eqn:Hr; [eexists; reflexivity|].
  now apply HB in Hr.
Qed.

(** Nothing was added to [filled]. *)
Definition same_filled (s s' : State) : Prop :=
  filled (rowResult s') = filled (rowResult s).

#[local] Instance same_filled_preorder : PreOrder same_filled.
Proof.
  split.
  - intros s. reflexivity.
  - intros s1 s2 s3 H1 H2. unfold same_filled in *. congruence.
Qed.

Lemma same_filled_on_page {A} (m : M Page.World A) : always same_filled (on_page m).
Proof. intros s. unfold on_page. destruct (m (page s)). reflexivity. Qed.

Lemma same_filled_push_error (msg : string) : always same_filled (push_error msg).
Proof. intros s. reflexivity. Qed.

Section Absent.

Variable B : Page.Browser.
Variable opts : Opts.
Hypothesis absent : form_absent B.

Ltac absent_step :=
  match goal with
  | |- always ?R (bind (on_page (setInputValue _ _ _)) _) =>
      apply (always_bind_answer R false);
      [ apply answers_on_page, setInputValue_absent, absent
      | apply same_filled_on_page | ]
  | |- always ?R (bind (on_page (selectOption _ _ _)) _) =>
      apply (always_bind_answer R false);
      [ apply answers_on_page, selectOption_absent, absent
      | apply same_filled_on_page | ]
  | |- always ?R (bind (on_page (setCheckbox _ _ _)) _) =>
      apply (always_bind_answer R false);
      [ apply answers_on_page, setCheckbox_absent, absent
      | apply same_filled_on_page | ]
  | |- always ?R (bind _ _) => apply (@always_bind _ R _); [ | intros ? ]
  | |- always ?R (ret _) => apply (@always_ret _ R _)
  | |- always ?R (lift _) => apply (@always_lift _ R _)
  | |- always _ (on_page _) => apply same_filled_on_page
  | |- always _ (push_error _) => apply same_filled_push_error
  | |- always _ (set_ok _) => intros ?; reflexivity
  | |- always _ (set_exception _) => intros ?; reflexivity
  | |- always _ (if ?c then _ else _) => destruct c
  end.

Lemma fill_field_absent (row : JS.object) (colHeader : string) :
  always same_filled (fill_field B opts row colHeader).
Proof. unfold fill_field, set_by_id_or_name. repeat absent_step. Qed.

Lemma fill_fields_absent (row : JS.object) (headers : list string) :
  always same_filled (fill_fields B opts row headers).
Proof.
  induction headers as [|h rest IH]; cbn; [apply (@always_ret _ _ _)|].
  apply (@always_bind _ _ _); [apply fill_field_absent | intros _; exact IH].
Qed.

Lemma row_absent (row : JS.object) :
  always same_filled (try_catch (row_body B opts row) row_failed).
Proof.
  apply (@always_try_catch _ _ _).
  - unfold row_body.
    apply (@always_bind _ _ _); [apply same_filled_on_page | intros _].
    apply (@always_bind _ _ _); [apply fill_fields_absent | intros _].
    unfold set_total_amount, save_disbursement_details, submit.
    repeat absent_step.
  - intros e. unfold row_failed. repeat absent_step.
Qed.

End Absent.

(** X9. On a page where no selector ever appears, the workflow reports no
    field as filled: every safe action answers false, so each field that
    holds a value ends in [errors], also when the row throws later on. *)
Theorem nothing_filled_when_form_absent (B : Page.Browser) (opts : Opts) (i : nat)
    (row : JS.object) (w : Page.World) (r : RowResult) :
  form_absent B ->
  fst (process_row B opts i row w) = Ok r ->
  filled r = []
  /\ (plain_ids opts row -> length (errors r) = fields_to_fill row (JS.keys row)).
Proof.
  intros HB Hr. unfold process_row in Hr. cbn [fst] in Hr. injection Hr as Hr.
  pose proof (row_absent B opts HB row {| page := w; rowResult := new_result i |})
    as Hfilled.
  unfold same_filled in Hfilled. rewrite Hr in Hfilled. cbn in Hfilled.
  split; [exact Hfilled|].
  intros Hids.
  pose proof (row_counts B opts row Hids {| page := w; rowResult := new_result i |})
    as Hcount.
  unfold entries in Hcount. rewrite Hr, Hfilled in Hcount. cbn in Hcount. exact Hcount.
Qed.

Lemma nothing_filled_when_form_absent_witness :
  exists r,
    fst (process_row closed_page demo_opts 0 demo_row []) = Ok r
    /\ filled r = [] /\ length (errors r) = 3.
Proof.
  eexists. split; [reflexivity|].
  destruct (nothing_filled_when_form_absent closed_page demo_opts 0 demo_row [] _
              ltac:(discriminate) eq_refl) as [Hfilled Herrors].
  split; [exact Hfilled|]. apply Herrors. repeat constructor.
Defined.

End FormFillEdges.

Section FilledEntries.

Import FormFill.

Variable B : Page.Browser.
Variable opts : Opts.
Variable row : JS.object.

(** An entry of [filled] that stands for a column of the row: the field id
    of a column that holds a value, or that id marked [(byName)]. *)
Definition from_column (v : JS.value) : Prop :=
  exists h,
    In h (JS.keys row) /\ blank (JS.get row h) = false
    /\ (v = mapHeaderToId (the_fieldMap opts) h
        \/ v = JS.Str (JS.to_string (mapHeaderToId (the_fieldMap opts) h)
                       ++ "(byName)")).

(** [filled] grew by such entries. *)
Definition filled_from_columns (s s' : State) : Prop :=
  exists l,
    filled (rowResult s') = (filled (rowResult s) ++ l)%list /\ Forall from_column l.

#[local] Instance filled_from_columns_preorder : PreOrder filled_from_columns.
Proof.
  split.
  - intros s. exists []. split; [now rewrite app_nil_r | constructor].
  - intros s1 s2 s3 (l1 & H1 & Hl1) (l2 & H2 & Hl2). exists (l1 ++ l2)%list.
    split; [now rewrite H2, H1, app_assoc | now apply Forall_app].
Qed.

Lemma from_columns_on_page {A} (m : M Page.World A) :
  always filled_from_columns (on_page m).
Proof.
  intros s. unfold on_page. destruct (m (page s)). exists []. cbn.
  split; [now rewrite app_nil_r | constructor].
Qed.

Lemma from_columns_same (f : RowResult -> RowResult) :
  (forall r, filled (f r) = filled r) -> always filled_from_columns (update f).
Proof.
  intros Hf s. exists []. cbn. split; [now rewrite Hf, app_nil_r | constructor].
Qed.

Lemma from_columns_push_filled (v : JS.value) :
  from_column v -> always filled_from_columns (push_filled v).
Proof. intros Hv s. exists [v]. cbn. split; [reflexivity | now constructor]. Qed.

Ltac columns_step :=
  match goal with
  | |- always ?R (bind _ _) => apply (@always_bind _ R _); [ | intros ? ]
  | |- always ?R (ret _) => apply (@always_ret _ R _)
  | |- always ?R (lift _) => apply (@always_lift _ R _)
  | |- always _ (on_page _) => apply from_columns_on_page
  | |- always _ (push_error _) => apply from_columns_same; reflexivity
  | |- always _ (set_ok _) => apply from_columns_same; reflexivity
  | |- always _ (set_exception _) => apply from_columns_same; reflexivity
  | |- always _ (if ?c then _ else _) => destruct c
  end.

Lemma fill_field_from_columns (colHeader : string) :
  In colHeader (JS.keys row) ->
  always filled_from_columns (fill_field B opts row colHeader).
Proof.
  intros Hin. unfold fill_field, set_by_id_or_name.
  destruct (blank (JS.get row colHeader)) eqn:Hblank; [apply (@always_ret _ _ _)|].
  repeat first
    [ columns_step
    | apply from_columns_push_filled; exists colHeader; auto ].
Qed.

Lemma fill_fields_from_columns (headers : list string) :
  (forall h, In h headers -> In h (JS.keys row)) ->
  always filled_from_columns (fill_fields B opts row headers).
Proof.
  induction headers as [|h rest IH]; intros Hin; cbn [fill_fields];
    [apply (@always_ret _ _ _)|].
  apply (@always_bind _ _ _).
  - apply fill_field_from_columns. apply Hin. now left.
  - intros _. apply IH. intros h' Hh'. apply Hin. now right.
Qed.

Lemma row_from_columns :
  always filled_from_columns (try_catch (row_body B opts row) row_failed).
Proof.
  apply (@always_try_catch _ _ _).
  - unfold row_body.
    apply (@always_bind _ _ _); [apply from_columns_on_page | intros _].
    apply (@always_bind _ _ _); [now apply fill_fields_from_columns | intros _].
    unfold set_total_amount, save_disbursement_details, submit.
    repeat columns_step.
  - intros e. unfold row_failed. repeat columns_step.
Qed.

End FilledEntries.

Section FilledClaims.

Import FormFill.

(** X10. Every entry of a row result's [filled] stands for a column of the
    row that holds a value: it is the field id of such a column, or that id
    followed by [(byName)]. A blank or missing column is never reported as
    filled, and neither is the total amount that the workflow sets on its
    own. *)
Theorem filled_entries_are_columns (B : Page.Browser) (opts : Opts) (i : nat)
    (row : JS.object) (w : Page.World) (r : RowResult) :
  fst (process_row B opts i row w) = Ok r ->
  Forall (fun v =>
            exists h,
              In h (JS.keys row) /\ blank (JS.get row h) = false
              /\ (v = mapHeaderToId (the_fieldMap opts) h
                  \/ v = JS.Str (JS.to_string (mapHeaderToId (the_fieldMap opts) h)
                                 ++ "(byName)")))
         (filled r).
Proof.
  intros Hr. unfold process_row in Hr. cbn [fst] in Hr. injection Hr as Hr.
  destruct (row_from_columns B opts row {| page := w; rowResult := new_result i |})
    as (l & Hl & Hall).
  rewrite Hr in Hl. cbn in Hl. rewrite Hl. exact Hall.
Qed.

Lemma filled_entries_are_columns_witness :
  Forall (fun v =>
            exists h,
              In h (JS.keys demo_row) /\ blank (JS.get demo_row h) = false
              /\ (v = mapHeaderToId (the_fieldMap demo_opts) h
                  \/ v = JS.Str (JS.to_string (mapHeaderToId (the_fieldMap demo_opts) h)
                                 ++ "(byName)")))
         [JS.Str "Product"; JS.Str "ValueDate"].
Proof.
  exact (filled_entries_are_columns demo_page demo_opts 0 demo_row [] demo_result
           eq_refl).
Defined.

End FilledClaims.

Section TextMatching.

Import FormFill.

Lemma lower_ascii_idempotent (c : ascii) :
  JS.lower_ascii (JS.lower_ascii c) = JS.lower_ascii c.
Proof. destruct c as [[] [] [] [] [] [] [] []]; vm_compute; reflexivity. Qed.

Lemma is_space_lower_ascii (c : ascii) :
  JS.is_space (JS.lower_ascii c) = JS.is_space c.
Proof. destruct c as [[] [] [] [] [] [] [] []]; vm_compute; reflexivity. Qed.

Lemma toLowerCase_idempotent (s : string) :
  JS.toLowerCase (JS.toLowerCase s) = JS.toLowerCase s.
Proof.
  induction s as [|c r IH]; cbn; [reflexivity|].
  now rewrite lower_ascii_idempotent, IH.
Qed.

Lemma toLowerCase_trimStart (s : string) :
  JS.toLowerCase (JS.trimStart s) = JS.trimStart (JS.toLowerCase s).
Proof.
  induction s as [|c r IH]; cbn; [reflexivity|].
  rewrite is_space_lower_ascii. destruct (JS.is_space c); [exact IH | reflexivity].
Qed.

Lemma toLowerCase_trimEnd (s : string) :
  JS.toLowerCase (JS.trimEnd s) = JS.trimEnd (JS.toLowerCase s).
Proof.
  induction s as [|c r IH]; cbn; [reflexivity|].
  rewrite <- IH, is_space_lower_ascii.
  destruct (JS.trimEnd r); cbn; [destruct (JS.is_space c)|]; reflexivity.
Qed.

Lemma toLowerCase_trim (s : string) :
  JS.toLowerCase (JS.trim s) = JS.trim (JS.toLowerCase s).
Proof. unfold JS.trim. now rewrite toLowerCase_trimEnd, toLowerCase_trimStart. Qed.

Lemma find_same {A} (p q : A -> bool) (l : list A) :
  (forall a, p a = q a) -> find p l = find q l.
Proof.
  intros Hpq. induction l as [|a r IH]; cbn; [reflexivity|].
  now rewrite Hpq, IH.
Qed.



End TextMatching.

(** ** The driver: the row cap, the success heuristic, the results file *)

Section DriverLoop.

Import Driver.

(** The records the cap of line 794 lets through, counted from the first
    record: all of them when [MAX_ROWS] is unset, not a number, or 0; no more
    than [MAX_ROWS] otherwise, so none when it is negative. *)
Definition capped (max_rows : option parsed_int) (rows : list JS.object)
  : list JS.object :=
  match max_rows with
  | Some (Int n) => if (n =? 0)%Z then rows else firstn (Z.to_nat n) rows
  | _ => rows
  end.

Lemma taken_uncapped (max_rows : option parsed_int) (rows : list JS.object) :
  (forall processed, cap_reached max_rows processed = false) ->
  forall processed, taken max_rows processed rows = rows.
Proof.
  intros Hcap. induction rows as [|row rest IH]; intros processed; cbn;
    [reflexivity | now rewrite Hcap, IH].
Qed.

Lemma taken_firstn (n : Z) (rows : list JS.object) :
  n <> 0%Z ->
  forall processed,
    taken (Some (Int n)) processed rows = firstn (Z.to_nat (n - processed)) rows.
Proof.
  intros Hn. apply Z.eqb_neq in Hn.
  induction rows as [|row rest IH]; intros processed; cbn [taken].
  - now rewrite firstn_nil.
  - cbn [cap_reached]. rewrite Hn. cbn [negb andb].
    destruct (n <=? processed)%Z eqn:Hle.
    + apply Z.leb_le in Hle. replace (Z.to_nat (n - processed)) with 0 by lia.
      reflexivity.
    + apply Z.leb_gt in Hle.
      replace (Z.to_nat (n - processed)) with (S (Z.to_nat (n - (processed + 1))))
        by lia.
      cbn [firstn]. now rewrite IH.
Qed.

Lemma taken_capped (max_rows : option parsed_int) (rows : list JS.object) :
  taken max_rows 0 rows = capped max_rows rows.
Proof.
  unfold capped. destruct max_rows as [[|n]|].
  - now apply taken_uncapped.
  - destruct (n =? 0)%Z eqn:Hn.
    + apply taken_uncapped. intros processed. cbn. now rewrite Hn.
    + apply Z.eqb_neq in Hn. rewrite (taken_firstn n rows Hn 0). now rewrite Z.sub_0_r.
  - now apply taken_uncapped.
Qed.

Lemma run_rows_lines (E : Outside) (cfg : Settings)
    (fillTransactionPaymentForm : JS.object -> M World unit) :
  (forall n, write_fails E n = None) ->
  forall rows processed s,
  exists s' lines,
    run_rows E cfg fillTransactionPaymentForm rows processed s = (Ok tt, s')
    /\ csv s' = (csv s ++ lines)%list
    /\ Forall2 logged (taken (MAX_ROWS cfg) processed rows) lines.
Proof.
  intros Hcsv. induction rows as [|row rest IH]; intros processed s.
  - exists s, []. cbn. rewrite app_nil_r. repeat split. constructor.
  - cbn [run_rows taken].
    destruct (cap_reached (MAX_ROWS cfg) processed).
    + exists s, []. cbn. rewrite app_nil_r. repeat split. constructor.
    + unfold bind.
      destruct (process_record_writes E cfg fillTransactionPaymentForm Hcsv row s)
        as ([] & s1 & line & Hrun & Hwr & Hline).
      rewrite Hrun.
      destruct (IH (processed + 1)%Z s1) as (s2 & lines & Hrest & Hlines & Hall).
      exists s2, (line :: lines). split; [exact Hrest|]. split.
      * rewrite Hlines. unfold csv. rewrite Hwr, csv_of_app, <- app_assoc.
        reflexivity.
      * constructor; [exact Hline | exact Hall].
Qed.

(** X12. The row cap. As long as the results file can be written, the loop
    takes up the first [MAX_ROWS] records and writes their lines, and no
    other; a cap that is unset, not a number or 0 is no cap, and under a
    negative cap no record is taken up and nothing is done at all. *)
Theorem max_rows_caps_the_records (E : Outside) (cfg : Settings)
    (fillTransactionPaymentForm : JS.object -> M World unit)
    (rows : list JS.object) (s : State) :
  (forall n, write_fails E n = None) ->
  (exists s' lines,
      run_rows E cfg fillTransactionPaymentForm rows 0 s = (Ok tt, s')
      /\ csv s' = (csv s ++ lines)%list
      /\ Forall2 logged (capped (MAX_ROWS cfg) rows) lines
      /\ (forall n, MAX_ROWS cfg = Some (Int n) -> (0 < n)%Z ->
            length lines = Nat.min (Z.to_nat n) (length rows)))
  /\ (forall n, MAX_ROWS cfg = Some (Int n) -> (n < 0)%Z ->
        run_rows E cfg fillTransactionPaymentForm rows 0 s = (Ok tt, s)).
Proof.
  intros Hcsv. split.
  - destruct (run_rows_lines E cfg fillTransactionPaymentForm Hcsv rows 0%Z s)
      as (s' & lines & Hrun & Hlines & Hall).
    rewrite taken_capped in Hall.
    exists s', lines. split; [exact Hrun|]. split; [exact Hlines|].
    split; [exact Hall|].
    intros n Hn Hpos. rewrite <- (Forall2_length Hall), Hn. cbn.
    destruct (n =? 0)%Z eqn:H0; [apply Z.eqb_eq in H0; lia|].
    apply length_firstn.
  - intros n Hn Hneg. destruct rows as [|row rest]; [reflexivity|].
    cbn [run_rows]. rewrite Hn. cbn [cap_reached].
    destruct (n =? 0)%Z eqn:H0; [apply Z.eqb_eq in H0; lia|].
    assert (Hle : (n <=? 0)%Z = true) by (apply Z.leb_le; lia).
    rewrite Hle. reflexivity.
Qed.

Definition capped_at (n : Z) : Settings :=
  {| LOGIN_URL := "https://example.com/Home";
     SAVE_SCREENSHOT_ON_SUCCESS := false;
     RETRY_LOGIN := Int 1;
     MAX_ROWS := Some (Int n);
     GLOBAL_FAS_URL := JS.Null;
     LOGS_DIR := "/work/logs" |}.

Lemma max_rows_caps_the_records_witness :
  (exists s' lines,
      run_rows stuck (capped_at 2) (fun _ => ret tt) [asha; asha; asha] 0 init
      = (Ok tt, s')
      /\ csv s' = lines /\ length lines = 2)
  /\ run_rows stuck (capped_at (-1)) (fun _ => ret tt) [asha; asha; asha] 0 init
     = (Ok tt, init).
Proof.
  destruct (max_rows_caps_the_records stuck (capped_at 2) (fun _ => ret tt)
              [asha; asha; asha] init (fun _ => eq_refl))
    as [(s' & lines & Hrun & Hcsv & _ & Hlen) _].
  destruct (max_rows_caps_the_records stuck (capped_at (-1)) (fun _ => ret tt)
              [asha; asha; asha] init (fun _ => eq_refl))
    as [_ Hnone].
  split.
  - exists s', lines. split; [exact Hrun|]. split; [exact Hcsv|].
    exact (Hlen 2%Z eq_refl ltac:(lia)).
  - exact (Hnone (-1)%Z eq_refl ltac:(lia)).
Defined.

(** *** The results file cannot be written *)

(** [m] throws, always. *)
Definition throws {S A} (m : M S A) : Prop :=
  forall s, exists e, fst (m s) = Throw e.

Lemma throws_bind_left {S A C} (m : M S A) (k : A -> M S C) :
  throws m -> throws (bind m k).
Proof.
  intros Hm s. unfold bind. destruct (Hm s) as [e He].
  destruct (m s) as [[a|e'] s1]; cbn in *; [discriminate | now exists e'].
Qed.

Lemma throws_bind_right {S A C} (m : M S A) (k : A -> M S C) :
  (forall a, throws (k a)) -> throws (bind m k).
Proof.
  intros Hk s. unfold bind. destruct (m s) as [[a|e] s1]; [apply Hk | now exists e].
Qed.

Lemma throws_try_catch {S A} (m : M S A) (h : JS.error -> M S A) :
  throws m -> (forall e, throws (h e)) -> throws (try_catch m h).
Proof.
  intros Hm Hh s. unfold try_catch. destruct (Hm s) as [e He].
  destruct (m s) as [[a|e'] s1]; cbn in *; [discriminate | apply Hh].
Qed.

(** The lines of the results file are as they were. *)
Definition same_csv (s s' : State) : Prop := csv s' = csv s.

#[local] Instance same_csv_preorder : PreOrder same_csv.
Proof.
  split.
  - intros s. reflexivity.
  - intros s1 s2 s3 H1 H2. unfold same_csv in *. congruence.
Qed.

Lemma csv_of_app_failed (ws : list Write) (line : CsvRow) (e : JS.error) :
  csv_of (ws ++ [WriteFailed line e]) = csv_of ws.
Proof.
  induction ws as [|[l|l e'] r IH]; cbn; [reflexivity | now rewrite IH | exact IH].
Qed.

Section Unwritable.

Variable E : Outside.
Variable cfg : Settings.
Variable fillTransactionPaymentForm : JS.object -> M World unit.

Hypothesis csv_fails : forall n, write_fails E n <> None.

Lemma writeRecords_throws (line : CsvRow) : throws (writeRecords E line).
Proof.
  intros s. unfold writeRecords.
  destruct (write_fails E (length (writes s))) as [e|] eqn:He;
    [now exists e | now apply csv_fails in He].
Qed.

Lemma writeRecords_same_csv (line : CsvRow) : always same_csv (writeRecords E line).
Proof.
  intros s. unfold writeRecords, same_csv, csv.
  destruct (write_fails E (length (writes s))) as [e|] eqn:He;
    [cbn; apply csv_of_app_failed | now apply csv_fails in He].
Qed.

Lemma on_world_same_csv {A} (m : M World A) : always same_csv (on_world m).
Proof. intros s. unfold on_world, same_csv, csv. destruct (m (world s)). reflexivity. Qed.

Ltac csv_step :=
  match goal with
  | |- always ?R (bind _ _) => apply (@always_bind _ R _); [ | intros ? ]
  | |- always ?R (ret _) => apply (@always_ret _ R _)
  | |- always ?R (gets _) => apply (@always_gets _ R _)
  | |- always ?R (try_catch _ _) => apply (@always_try_catch _ R _); [ | intros ? ]
  | |- always _ (on_world _) => apply on_world_same_csv
  | |- always _ (writeRecords _ _) => apply writeRecords_same_csv
  | |- always _ (set_stateFile _) => intros ?; reflexivity
  | |- always _ (if ?c then _ else _) => destruct c
  end.

Lemma process_record_same_csv (row : JS.object) :
  always same_csv (process_record E cfg fillTransactionPaymentForm row).
Proof.
  unfold process_record, record_body, record_failed, finish_record, login_failed,
    logged_in.
  repeat csv_step.
Qed.

Lemma finish_record_throws (name : string) (row : JS.object)
    (r : bool * option JS.error) :
  throws (finish_record E cfg fillTransactionPaymentForm name row r).
Proof.
  unfold finish_record. destruct (negb (fst r)).
  - unfold login_failed. repeat (apply throws_bind_right; intros ?).
    apply writeRecords_throws.
  - unfold logged_in.
    do 7 (apply throws_bind_right; intros ?).
    apply throws_bind_left. apply writeRecords_throws.
Qed.

Lemma process_record_throws (row : JS.object) :
  throws (process_record E cfg fillTransactionPaymentForm row).
Proof.
  unfold process_record.
  do 2 (apply throws_bind_right; intros ?).
  apply throws_try_catch.
  - unfold record_body. do 6 (apply throws_bind_right; intros ?).
    apply finish_record_throws.
  - intros e. unfold record_failed. do 4 (apply throws_bind_right; intros ?).
    apply writeRecords_throws.
Qed.

End Unwritable.

(** X13. When the results file cannot be written, the driver does not get
    past the first record it takes up: the exception of the writer leaves the
    loop, no later record is processed, and no line is written. *)
Theorem driver_stops_when_results_cannot_be_written (E : Outside) (cfg : Settings)
    (fillTransactionPaymentForm : JS.object -> M World unit)
    (row : JS.object) (rest : list JS.object) (processed : Z) (s : State) :
  (forall n, write_fails E n <> None) ->
  cap_reached (MAX_ROWS cfg) processed = false ->
  exists e s',
    run_rows E cfg fillTransactionPaymentForm (row :: rest) processed s = (Throw e, s')
    /\ process_record E cfg fillTransactionPaymentForm row s = (Throw e, s')
    /\ csv s' = csv s.
Proof.
  intros Hfails Hcap. cbn [run_rows]. rewrite Hcap. unfold bind.
  destruct (process_record_throws E cfg fillTransactionPaymentForm Hfails row s)
    as [e He].
  pose proof (process_record_same_csv E cfg fillTransactionPaymentForm Hfails row s)
    as Hcsv.
  destruct (process_record E cfg fillTransactionPaymentForm row s) as [[[]|e'] s'];
    cbn in He; [discriminate|].
  exists e', s'. repeat split. exact Hcsv.
Qed.

Definition disk_full : Outside :=
  {| browser := login_page;
     date_now := fun _ => "1730000000000";
     to_iso_date := fun _ => "";
     write_fails := fun _ => Some (JS.Error "ENOSPC: no space left on device") |}.

Lemma driver_stops_when_results_cannot_be_written_witness :
  exists s',
    run_rows disk_full (settings (Int 1)) (fun _ => ret tt) [asha; asha] 0 init
    = (Throw (JS.Error "ENOSPC: no space left on device"), s')
    /\ csv s' = [] /\ length (writes s') = 2.
Proof.
  destruct (driver_stops_when_results_cannot_be_written disk_full (settings (Int 1))
              (fun _ => ret tt) asha [asha] 0%Z init ltac:(discriminate) eq_refl)
    as (e & s' & Hrun & _ & Hcsv).
  exists s'.
  assert (He : Throw (A := unit) e = Throw (JS.Error "ENOSPC: no space left on device")).
  { change (Throw e) with (fst (@Throw unit e, s')). rewrite <- Hrun.
    vm_compute. reflexivity. }
  injection He as ->. split; [exact Hrun|]. split; [exact Hcsv|].
  change s' with (snd (@Throw unit (JS.Error "ENOSPC: no space left on device"), s')).
  rewrite <- Hrun. vm_compute. reflexivity.
Defined.

End DriverLoop.

Section Heuristic.

Import Driver.

Lemma any_visible_total (E : Outside) (selectors : list JS.value) :
  total (any_visible E selectors).
Proof.
  induction selectors as [|s rest IH]; cbn; [apply total_ret|].
  destruct (negb (JS.truthy s)); [exact IH|].
  apply total_bind; [apply total_or_else | intros el].
  destruct el; [|exact IH].
  apply total_bind; [apply total_or_else | intros visible].
  destruct visible; [apply total_ret | exact IH].
Qed.

(** X14. The success heuristic never throws, and it fails open: whenever
    the query for the user-name field finds nothing or is rejected, it answers
    true, whatever the page shows otherwise and wherever it is; so on a page
    that is gone every login counts as a success. *)
Theorem successHeuristic_fails_open (E : Outside) (LOGIN_URL : string)
    (w : Page.World) :
  (exists loggedIn, fst (successHeuristic E LOGIN_URL w) = Ok loggedIn)
  /\ ((forall n,
         Page.rejects (browser E) n (Page.Query "#UserName") <> None
         \/ Page.handle (browser E) n "#UserName" = false) ->
      fst (successHeuristic E LOGIN_URL w) = Ok true).
Proof.
  remember (successHeuristic E LOGIN_URL w) as run eqn:Hrun.
  unfold successHeuristic in Hrun.
  destruct (any_visible_total E
              [sel "logout" "#logout, a.logout, button.logout";
               sel "userMenu" "#userMenu, .user-menu, .profile-menu"] w)
    as [signal Hsignal].
  unfold bind at 1 in Hrun.
  destruct (any_visible E _ w) as [[signal'|e] w1]; cbn [fst] in Hsignal;
    [clear Hsignal signal | discriminate].
  destruct signal'; [subst run; split; [now exists true | reflexivity]|].
  change (JS.to_string (sel "userName" userName_fallback)) with "#UserName" in Hrun.
  unfold bind at 1, or_else, try_catch at 1, Page.query in Hrun.
  rewrite perform_run in Hrun.
  destruct (Page.rejects (browser E) (length w1) (Page.Query "#UserName")) as [e|] eqn:Hrej;
    cbn [ret fst negb] in Hrun.
  - subst run. split; [now exists true | reflexivity].
  - destruct (Page.handle (browser E) (length w1) "#UserName") eqn:Hhandle;
      cbn [negb] in Hrun.
    + split.
      * subst run. unfold try_catch, bind, Page.page_url. rewrite perform_run.
        destruct (Page.rejects (browser E) _ Page.Url); eexists; reflexivity.
      * intros Hgone. destruct (Hgone (length w1)) as [H|H]; congruence.
    + subst run. split; [now exists true | reflexivity].
Qed.

Lemma successHeuristic_fails_open_witness :
  fst (successHeuristic closed_outside "https://example.com/Home" []) = Ok true.
Proof.
  apply (successHeuristic_fails_open closed_outside "https://example.com/Home" []).
  intros n. left. discriminate.
Defined.

End Heuristic.

Section Names.

Import Driver.

(** X15. A record without a user name is processed like any other and, as
    long as the results file can be written, gets its line, under the name
    [user_] followed by the time at which the record was taken up. *)
Theorem record_without_name_is_logged (E : Outside) (cfg : Settings)
    (fillTransactionPaymentForm : JS.object -> M World unit)
    (row : JS.object) (s : State) :
  (forall n, write_fails E n = None) ->
  JS.truthy (JS.get row "UserName") = false ->
  exists s' line,
    process_record E cfg fillTransactionPaymentForm row s = (Ok tt, s')
    /\ writes s' = (writes s ++ [Written line])%list
    /\ username line = "user_" ++ date_now E (length (page (world s)))
    /\ (success line = "true" \/ success line = "false" \/ success line = "error").
Proof.
  intros Hcsv Hname. unfold process_record, username_of. rewrite Hname.
  unfold bind at 1, on_world at 1, bind at 1, now, gets. cbn [ret].
  unfold bind at 1. cbn [set_stateFile modify].
  set (name := "user_" ++ _).
  match goal with |- context [try_catch ?m ?h ?s1] => set (s1' := s1) end.
  pose proof (record_body_writes E cfg fillTransactionPaymentForm Hcsv name row s1')
    as Hbody.
  unfold try_catch.
  destruct (record_body E cfg fillTransactionPaymentForm name row s1') as [[[]|e] s2].
  - destruct Hbody as (line & Hwr & Hn & Hs).
    exists s2, line. split; [reflexivity|]. split; [exact Hwr|].
    split; [exact Hn | exact Hs].
  - destruct (record_failed_writes E cfg Hcsv name e s2)
      as ([] & s3 & line & Hrun & Hwr & Hn & Hs & _).
    exists s3, line. split; [exact Hrun|]. split; [cbn in *; congruence|].
    split; [exact Hn | auto].
Qed.

Definition nameless : JS.object :=
  [("UserName", JS.Str ""); ("Password", JS.Str "s3cret");
   ("Language", JS.Str ""); ("LoginDataTime", JS.Str "");
   ("ValidateCaptcha", JS.Str ""); ("NextPage", JS.Str "");
   ("Field1", JS.Str ""); ("Field2", JS.Str "")].

Lemma record_without_name_is_logged_witness :
  exists s' line,
    process_record stuck (settings (Int 1)) (fun _ => ret tt) nameless init = (Ok tt, s')
    /\ writes s' = [Written line]
    /\ username line = "user_1730000000000".
Proof.
  destruct (record_without_name_is_logged stuck (settings (Int 1)) (fun _ => ret tt)
              nameless init (fun _ => eq_refl) eq_refl)
    as (s' & line & Hrun & Hwr & Hname & _).
  exists s', line. split; [exact Hrun|]. split; [exact Hwr | exact Hname].
Defined.

End Names.

(** ** The transaction payment form *)

Section FormHelpers.

Import Driver.

Example split_selector :
  map JS.trim (split "," "#AccountNo, select#AccountNo, #Account")
  = ["#AccountNo"; "select#AccountNo"; "#Account"].
Proof. reflexivity. Qed.

Example calls_onRowClick_spaces :
  calls_onRowClick "return onRowClick  (this);" = true
  /\ calls_onRowClick "onRowClicked(this)" = false.
Proof. split; reflexivity. Qed.

Lemma safeSelect_returns (E : Outside) (selector value : JS.value) (opts : ActionOpts)
    (w : Page.World) :
  exists b, fst (safeSelect E selector value opts w) = Ok b.
Proof.
  rewrite driver_safeSelect_run. cbn zeta.
  destruct (JS.truthy selector && negb (JS.nullish value)); [|now exists false].
  destruct (Page.rejects (browser E) (S (length w)) _); now exists true.
Qed.

(** X16. [trySelectByText] never reports a failure: it answers true
    whatever the page did, also when nothing was selected, and the calls it
    makes are those of [safeSelect]; its second attempt, the script that
    matches the option text, never runs. *)
Theorem trySelectByText_always_true (E : Outside) (selectorCandidates text : string)
    (w : Page.World) :
  trySelectByText E selectorCandidates text w
  = (Ok true,
     snd (safeSelect E (JS.Str selectorCandidates) (JS.Str text) no_opts w)).
Proof.
  unfold trySelectByText, try_catch at 1, bind.
  destruct (safeSelect_returns E (JS.Str selectorCandidates) (JS.Str text) no_opts w)
    as [b Hb].
  destruct (safeSelect E (JS.Str selectorCandidates) (JS.Str text) no_opts w)
    as [[b'|e] w1]; cbn in Hb; [reflexivity | discriminate].
Qed.

(** X17. [selectSecondOption] never throws. It answers true exactly when
    its script resolved and found a second option with a value or a text; it
    then selects through [safeSelect], and the fallback that sets the selected
    index never runs. *)
Theorem selectSecondOption_result (E : Outside) (selectorCandidates : string)
    (w : Page.World) :
  let B := browser E in
  let waited :=
    event_of B w (Page.WaitForSelector selectorCandidates 5000) [] in
  let script := Page.Evaluate "secondOption" selectorCandidates in
  let val :=
    second_option_script (Page.querySelector B (S (length w))) selectorCandidates in
  selectSecondOption E selectorCandidates w =
    match Page.rejects B (S (length w)) script with
    | Some e => (Ok false, Page.Rejected script e :: waited :: w)
    | None =>
        if JS.truthy val
        then (Ok true,
              snd (safeSelect E (JS.Str selectorCandidates) val no_opts
                     (Page.Resolved script [] :: waited :: w)))
        else (Ok false, Page.Resolved script [] :: waited :: w)
    end.
Proof.
  cbn zeta. unfold selectSecondOption, try_catch at 1, bind at 1, Page.waitForSelector.
  rewrite or_else_perform. unfold bind at 1. rewrite perform_run. cbn [length].
  destruct (Page.rejects (browser E) (S (length w)) _) as [e|]; [reflexivity|].
  cbn [fst snd].
  destruct (JS.truthy (second_option_script _ selectorCandidates)); cbn [negb];
    [|reflexivity].
  unfold try_catch, bind.
  match goal with
  | |- context [safeSelect E ?s ?v ?o ?w1] =>
      destruct (safeSelect_returns E s v o w1) as [b Hb];
      destruct (safeSelect E s v o w1) as [[b'|e] w2]
  end; cbn in Hb; [reflexivity | discriminate].
Qed.

End FormHelpers.

Ltac form_unfold :=
  unfold Driver.fillTransactionPaymentForm, Driver.fill_admission,
    Driver.choose_options, Driver.click_transfers_row, Driver.fill_amount,
    Driver.save, Driver.detect_error_modal, Driver.after_submit,
    Driver.click_prepare, Driver.selectSecondOption, Driver.trySelectByText,
    Driver.isDisabled, Driver.safeFill, Driver.safeClick, Driver.safeSelect,
    Page.waitForSelector, Page.click, Page.fill, Page.selectOption,
    Page.selectOptionLabel, Page.query, Page.isVisible, Page.evaluate,
    Page.waitForTimeout, Page.goto, Page.page_url, Page.waitForNavigation,
    Page.waitForLoadState, Page.screenshot, Page.storageState;
  cbv zeta.

Section FormCalls.

Import Driver.

(** The value a call types into the form: that of a [page.fill], and that
    of the two scripts that set a field. *)
Definition typed (c : Page.Call) : option string :=
  match c with
  | Page.Fill _ v => Some v
  | Page.Evaluate script v =>
      if (script =? "setVoucherText") || (script =? "setLedgerFolio") then Some v
      else None
  | _ => None
  end.

Definition fixed_value (c : Page.Call) : Prop :=
  match typed c with
  | Some v => v = "101165" \/ v = "100000" \/ v = "000000"
  | None => True
  end.

Ltac fixed_step :=
  match goal with
  | |- fixed_value _ => first [exact I | cbn; tauto]
  | _ => trace_step
  end.

Lemma click_save_fixed (E : Outside) (F : Form) (selectors : list string) :
  always (only_in_world fixed_value) (click_save E F selectors).
Proof.
  induction selectors as [|s rest IH]; cbn [click_save]; [apply (@always_ret _ _ _)|].
  destruct (s =? ""); [exact IH|].
  form_unfold. repeat fixed_step; exact IH.
Qed.

Lemma clickSweetConfirm_fixed (E : Outside) (DRY_RUN : bool) (remaining : nat) :
  forall i ms, always (only_in_world fixed_value) (clickSweetConfirm E DRY_RUN remaining i ms).
Proof.
  induction remaining as [|k IH]; intros i ms; cbn [clickSweetConfirm];
    [apply (@always_ret _ _ _)|].
  form_unfold. repeat fixed_step; apply IH.
Qed.

Lemma fillTransactionPaymentForm_fixed (E : Outside) (F : Form) (DRY_RUN : bool)
    (row : JS.object) :
  always (only_in_world fixed_value) (fillTransactionPaymentForm E F DRY_RUN row).
Proof.
  form_unfold.
  repeat first [ apply click_save_fixed | apply clickSweetConfirm_fixed | fixed_step ].
Qed.

(** X18. Whatever record is being processed, the values typed into the
    transaction form are the three that the function holds itself: every
    [page.fill] and each script that sets a field carries [101165] (the
    admission number), [100000] (the amount) or [000000] (the ledger folio).
    The record takes no part: the function gives the same computation for any
    two records. *)
Theorem form_is_filled_with_fixed_values (E : Outside) (F : Form) (DRY_RUN : bool)
    (row : JS.object) (w : World) :
  (exists calls,
      page (snd (fillTransactionPaymentForm E F DRY_RUN row w)) = (calls ++ page w)%list
      /\ Forall (fun ev =>
                   match typed (call_of ev) with
                   | Some v => v = "101165" \/ v = "100000" \/ v = "000000"
                   | None => True
                   end) calls)
  /\ (forall row',
        fillTransactionPaymentForm E F DRY_RUN row' w
        = fillTransactionPaymentForm E F DRY_RUN row w).
Proof.
  split; [|reflexivity].
  exact (fillTransactionPaymentForm_fixed E F DRY_RUN row w).
Qed.

End FormCalls.

Section DryRun.

Import Driver.

(** What a dry run may do on the page: with [DRY_RUN] set, a click is one on
    the search icon, a fill is none into the ledger folio field, and the
    script that sets the ledger folio does not run. *)
Definition dry (c : Page.Call) : bool :=
  match c with
  | Page.Click s => s =? "#iconsearch, button#iconsearch, .icon-search"
  | Page.Fill s _ =>
      negb (s =? "#MoreDisbursementDetaos_LedgerFolioNo, input#MoreDisbursementDetaos_LedgerFolioNo")
  | Page.Evaluate script _ => negb (script =? "setLedgerFolio")
  | _ => true
  end.

Definition dry_call (c : Page.Call) : Prop := dry c = true.

Ltac dry_step :=
  match goal with
  | |- dry_call _ => reflexivity
  | _ => trace_step
  end.

Lemma clickSweetConfirm_dry (E : Outside) (remaining : nat) :
  forall i ms, always (only_in_world dry_call) (clickSweetConfirm E true remaining i ms).
Proof.
  induction remaining as [|k IH]; intros i ms; cbn [clickSweetConfirm];
    [apply (@always_ret _ _ _)|].
  form_unfold. cbn [negb]. repeat dry_step; apply IH.
Qed.


(** Without [DRY_RUN] the save button that the page shows is clicked. *)
Definition form_page : Page.Browser :=
  {| Page.rejects := fun _ _ => None;
     Page.querySelector := fun _ _ => None;
     Page.select_values := fun _ _ _ => [];
     Page.handle := fun _ s => s =? "#btnSave";
     Page.visible := fun _ _ => false;
     Page.url := fun _ => "https://up6.uniteerp.in/FAS/TransactionPayment" |}.

Definition form_site : Outside :=
  {| browser := form_page;
     date_now := fun _ => "1730000000000";
     to_iso_date := fun _ => "";
     write_fails := fun _ => None |}.

Definition plain_form : Form :=
  {| dom := fun _ => {| inputs := []; cells := []; onclick_rows := [] |};
     getAttribute := fun _ _ _ => JS.Null;
     node_disabled := fun _ _ => JS.Bool false |}.

Example save_is_clicked_without_dry_run :
  In (Page.Resolved (Page.Click "#btnSave") [])
     (page (snd (fillTransactionPaymentForm form_site plain_form false [] start)))
  /\ ~ In (Page.Resolved (Page.Click "#btnSave") [])
          (page (snd (fillTransactionPaymentForm form_site plain_form true [] start)))
  /\ In "DRY_RUN enabled — skipped save."
        (logfile (snd (fillTransactionPaymentForm form_site plain_form true [] start))).
Proof.
  split; [vm_compute; tauto|]. split; [|vm_compute; tauto].
  vm_compute. intros H.
  repeat match goal with
         | H : _ \/ _ |- _ => destruct H as [H|H]; [discriminate H|]
         | H : False |- _ => exact H
         end.
Qed.

End DryRun.

Section FormReturns.

Import Driver.

(** No pause is rejected. *)
Definition pauses_resolve (B : Page.Browser) : Prop :=
  forall n ms, Page.rejects B n (Page.WaitForTimeout ms) = None.

Lemma waitForTimeout_total (B : Page.Browser) (ms : Z) :
  pauses_resolve B -> total (Page.waitForTimeout B ms).
Proof.
  intros HB w. unfold Page.waitForTimeout. rewrite perform_run, HB.
  now exists tt.
Qed.

Section Returns.

Variable E : Outside.
Variable F : Form.
Variable DRY_RUN : bool.
Hypothesis timers : pauses_resolve (browser E).

Ltac returns_step :=
  match goal with
  | |- total (bind _ _) => apply total_bind; [ | intros ? ]
  | |- total (ret _) => apply total_ret
  | |- total (Driver.on_page _) => apply total_driver_on_page
  | |- total (or_else _ _) => apply total_or_else
  | |- total (try_catch _ _) => apply total_try_catch; intros ?
  | |- total (appendLog _) => apply total_appendLog
  | |- total (console_log _) => apply total_console_log
  | |- total (Page.waitForTimeout _ _) => apply waitForTimeout_total, timers
  | |- total (if ?c then _ else _) => destruct c
  end.

Lemma selectSecondOption_total (selectorCandidates : string) :
  total (selectSecondOption E selectorCandidates).
Proof. unfold selectSecondOption. repeat returns_step. Qed.

Lemma trySelectByText_total (selectorCandidates text : string) :
  total (trySelectByText E selectorCandidates text).
Proof. unfold trySelectByText. repeat returns_step. Qed.

Lemma isDisabled_total (s : string) : total (isDisabled E F s).
Proof. unfold isDisabled. repeat returns_step. Qed.

Lemma click_save_total (selectors : list string) : total (click_save E F selectors).
Proof.
  induction selectors as [|s rest IH]; cbn [click_save]; [apply total_ret|].
  destruct (s =? ""); [exact IH|].
  repeat first [ apply isDisabled_total | exact IH | returns_step ].
Qed.

Lemma fillTransactionPaymentForm_total (row : JS.object) :
  total (fillTransactionPaymentForm E F DRY_RUN row).
Proof.
  unfold fillTransactionPaymentForm, fill_admission, choose_options,
    click_transfers_row, fill_amount, save, detect_error_modal, after_submit.
  cbv zeta.
  repeat first [ apply selectSecondOption_total | apply trySelectByText_total
               | apply click_save_total | returns_step ].
Qed.

End Returns.

(** X20. The form fill can fail only through its pauses: as long as no
    [page.waitForTimeout] is rejected, [fillTransactionPaymentForm] returns,
    whatever else the page rejects or shows; every other call is guarded by a
    [catch] or sits in a [try] block. *)
Theorem form_fill_fails_only_through_pauses (E : Outside) (F : Form) (DRY_RUN : bool)
    (row : JS.object) (w : World) :
  (forall n ms, Page.rejects (browser E) n (Page.WaitForTimeout ms) = None) ->
  exists w', fillTransactionPaymentForm E F DRY_RUN row w = (Ok tt, w').
Proof.
  intros Htimers.
  destruct (fillTransactionPaymentForm_total E F DRY_RUN Htimers row w) as [[] H].
  destruct (fillTransactionPaymentForm E F DRY_RUN row w) as [r w']. cbn in H.
  subst r. now exists w'.
Qed.

(** A page on which only the pauses resolve. *)
Definition only_pauses : Outside :=
  {| browser :=
       {| Page.rejects := fun _ c =>
            match c with
            | Page.WaitForTimeout _ => None
            | _ => Some target_closed
            end;
          Page.querySelector := fun _ _ => None;
          Page.select_values := fun _ _ _ => [];
          Page.handle := fun _ _ => false;
          Page.visible := fun _ _ => false;
          Page.url := fun _ => "about:blank" |};
     date_now := fun _ => "1730000000000";
     to_iso_date := fun _ => "";
     write_fails := fun _ => None |}.

Lemma form_fill_fails_only_through_pauses_witness :
  exists w', fillTransactionPaymentForm only_pauses plain_form false [] start = (Ok tt, w').
Proof.
  apply (form_fill_fails_only_through_pauses only_pauses plain_form false [] start).
  intros n ms. reflexivity.
Defined.

(** The first pause is rejected: the form fill throws at once. *)
Example form_fill_throws_when_a_pause_is_rejected :
  fst (fillTransactionPaymentForm form_gone plain_form false [] start)
  = Throw target_closed.
Proof. reflexivity. Qed.

End FormReturns.

(** ** How often the transaction form is saved *)

Section Clicks.

Import Driver.

(** The calls in [l] that pass [Q]. *)
Definition count (Q : Page.Call -> bool) (l : Page.World) : nat :=
  length (filter (fun ev => Q (call_of ev)) l).

(** The page history grew, by at most [n] calls that pass [Q]. *)
Definition at_most (Q : Page.Call -> bool) (n : nat) (w w' : World) : Prop :=
  exists l, page w' = (l ++ page w)%list /\ count Q l <= n.

Lemma count_app (Q : Page.Call -> bool) (l l' : Page.World) :
  count Q (l ++ l')%list = count Q l + count Q l'.
Proof. unfold count. now rewrite filter_app, length_app. Qed.

Lemma at_most_weaken (Q : Page.Call -> bool) (n k : nat) {A} (m : M World A) :
  n <= k -> always (at_most Q n) m -> always (at_most Q k) m.
Proof.
  intros Hle Hm s. destruct (Hm s) as (l & Hl & Hn). exists l. split; [exact Hl | lia].
Qed.

Lemma at_most_bind (Q : Page.Call -> bool) (n k : nat) {A C} (m : M World A)
    (f : A -> M World C) :
  always (at_most Q n) m -> (forall a, always (at_most Q k) (f a)) ->
  always (at_most Q (n + k)) (bind m f).
Proof.
  intros Hm Hf s. unfold bind. destruct (Hm s) as (l & Hl & Hn).
  destruct (m s) as [[a|e] s1]; cbn [snd] in *.
  - destruct (Hf a s1) as (l' & Hl' & Hk). exists (l' ++ l)%list.
    split; [now rewrite Hl', Hl, app_assoc | rewrite count_app; lia].
  - exists l. split; [exact Hl | lia].
Qed.

Lemma at_most_try_catch (Q : Page.Call -> bool) (n k : nat) {A} (m : M World A)
    (h : JS.error -> M World A) :
  always (at_most Q n) m -> (forall e, always (at_most Q k) (h e)) ->
  always (at_most Q (n + k)) (try_catch m h).
Proof.
  intros Hm Hh s. unfold try_catch. destruct (Hm s) as (l & Hl & Hn).
  destruct (m s) as [[a|e] s1]; cbn [snd] in *.
  - exists l. split; [exact Hl | lia].
  - destruct (Hh e s1) as (l' & Hl' & Hk). exists (l' ++ l)%list.
    split; [now rewrite Hl', Hl, app_assoc | rewrite count_app; lia].
Qed.

(** No call that passes [Q]. *)
Lemma at_most_none (Q : Page.Call -> bool) {A} (m : M World A) :
  always (only_in_world (fun c => Q c = false)) m -> always (at_most Q 0) m.
Proof.
  intros Hm s. destruct (Hm s) as (l & Hl & Hall). exists l. split; [exact Hl|].
  clear Hl. unfold count. induction Hall as [|ev r Hev _ IH]; cbn; [lia|].
  cbv beta in Hev. rewrite Hev. exact IH.
Qed.

(** One call. *)
Lemma at_most_one_call (Q : Page.Call -> bool) (B : Page.Browser) (c : Page.Call)
    (effects : list Page.Effect) :
  always (at_most Q 1)
    (Driver.on_page (or_else (Page.perform B c (fun _ => (tt, effects))) tt)).
Proof.
  intros s. unfold Driver.on_page. rewrite or_else_perform. cbn.
  eexists [_]. split; [reflexivity|]. unfold count. cbn.
  destruct (Q _); cbn; lia.
Qed.

End Clicks.

Section SavedOnce.

Import Driver.

Variable E : Outside.
Variable F : Form.
Variable DRY_RUN : bool.

(** A click on one of the save buttons, the generic submit among them. *)
Definition save_click (c : Page.Call) : bool :=
  match c with
  | Page.Click s => existsb (String.eqb s) (genericSubmit :: saveSelectors)
  | _ => false
  end.

(** A click on the SweetAlert confirm button. *)
Definition confirm_click (c : Page.Call) : bool :=
  match c with
  | Page.Click s => s =? ".sa-confirm-button-container button.confirm, .swal2-confirm"
  | _ => false
  end.

(** A click on the Prepare button. *)
Definition prepare_click (c : Page.Call) : bool :=
  match c with
  | Page.Click s =>
      s =? "#btnsaveDisbursments, input#btnsaveDisbursments, input[value="
           ++ quote' ++ "Prepare" ++ quote' ++ "]"
  | _ => false
  end.

Section AnyClick.

(** A count of clicks: no other call passes. *)
Variable Q : Page.Call -> bool.
Hypothesis clicks_only :
  forall c, match c with Page.Click _ => True | _ => Q c = false end.

Ltac none_step :=
  match goal with
  | |- Q ?c = false => exact (clicks_only c)
  | _ => trace_step
  end.

Ltac none := apply at_most_none; form_unfold; repeat none_step.

Lemma isDisabled_none (s : string) :
  always (at_most Q 0) (Driver.on_page (isDisabled E F s)).
Proof. none. Qed.

(** [m] does not answer false. *)
Definition never_false (m : M World bool) : Prop :=
  forall s, fst (m s) <> Ok false.

Lemma never_false_ret_true : never_false (ret true).
Proof. intros s. discriminate. Qed.

Lemma never_false_bind {A} (m : M World A) (k : A -> M World bool) :
  (forall a, never_false (k a)) -> never_false (bind m k).
Proof.
  intros Hk s. unfold bind. destruct (m s) as [[a|e] s1]; [apply Hk | discriminate].
Qed.

(** [m] made at most one call that passes [Q], and none when it answers
    false. *)
Definition once_or_false (m : M World bool) : Prop :=
  forall s,
    at_most Q 1 s (snd (m s))
    /\ (fst (m s) = Ok false -> at_most Q 0 s (snd (m s))).

Lemma once_or_false_after {A} (m : M World A) (k : A -> M World bool) :
  always (at_most Q 0) m -> (forall a, once_or_false (k a)) ->
  once_or_false (bind m k).
Proof.
  intros Hm Hk s. unfold bind. destruct (Hm s) as (l & Hl & Hn).
  destruct (m s) as [[a|e] s1]; cbn [fst snd] in *.
  - destruct (Hk a s1) as [(l1 & Hl1 & Hn1) Hfalse]. split.
    + exists (l1 ++ l)%list. split; [now rewrite Hl1, Hl, app_assoc|].
      rewrite count_app. lia.
    + intros Hf. destruct (Hfalse Hf) as (l0 & Hl0 & Hn0).
      exists (l0 ++ l)%list. split; [now rewrite Hl0, Hl, app_assoc|].
      rewrite count_app. lia.
  - split; [exists l; split; [exact Hl | lia] | discriminate].
Qed.

Lemma once_or_false_true (m : M World bool) :
  always (at_most Q 1) m -> never_false m -> once_or_false m.
Proof.
  intros Hm Hnever s. split; [apply Hm|]. intros Hf. now apply Hnever in Hf.
Qed.

Lemma click_save_once (selectors : list string) :
  once_or_false (click_save E F selectors).
Proof.
  induction selectors as [|s rest IH]; cbn [click_save].
  - intros w. cbn. split; [|intros _]; exists []; (split; [reflexivity | cbn; lia]).
  - destruct (s =? ""); [exact IH|].
    apply once_or_false_after; [none | intros el].
    destruct el; [|exact IH].
    apply once_or_false_after; [apply isDisabled_none | intros disabled].
    destruct disabled.
    + apply once_or_false_true.
      * apply (at_most_weaken Q 0 1); [lia | none].
      * apply never_false_bind. intros _. apply never_false_ret_true.
    + apply once_or_false_true.
      * apply (at_most_bind Q 1 0); [apply at_most_one_call | intros _]. none.
      * do 3 (apply never_false_bind; intros ?). apply never_false_ret_true.
Qed.

Lemma save_once : always (at_most Q 1) (save E F DRY_RUN).
Proof.
  unfold save. destruct (negb DRY_RUN); [|apply (at_most_weaken Q 0 1); [lia | none]].
  intros s. destruct (click_save_once saveSelectors s) as [Hone Hfalse].
  unfold bind at 1.
  destruct (click_save E F saveSelectors s) as [[saved|e] s1]; cbn [fst snd] in *;
    [|exact Hone].
  destruct saved; cbn [negb]; [exact Hone|].
  destruct (Hfalse eq_refl) as (l & Hl & Hn).
  match goal with
  | |- at_most Q 1 s (snd (?m s1)) =>
      assert (Hrest : always (at_most Q 1) m);
      [ | destruct (Hrest s1) as (l' & Hl' & Hn') ]
  end.
  { apply (at_most_bind Q 0 1); [none | intros _].
    apply (at_most_bind Q 0 1); [none | intros generic].
    destruct generic; [|apply (at_most_weaken Q 0 1); [lia | none]].
    apply (at_most_bind Q 1 0); [apply at_most_one_call | intros _]. none. }
  exists (l' ++ l)%list. split; [now rewrite Hl', Hl, app_assoc|].
  rewrite count_app. lia.
Qed.

Lemma clickSweetConfirm_at_most (remaining : nat) :
  forall i ms,
    always (at_most Q remaining) (clickSweetConfirm E DRY_RUN remaining i ms).
Proof.
  induction remaining as [|k IH]; intros i ms; cbn [clickSweetConfirm]; [none|].
  apply (at_most_bind Q 0 (S k)); [none | intros _].
  apply (at_most_bind Q 0 (S k)); [none | intros btn].
  destruct btn; [|apply (at_most_weaken Q 0 (S k)); [lia | none]].
  apply (at_most_bind Q 0 (S k)); [none | intros isVisible].
  destruct isVisible; [|apply (at_most_weaken Q 0 (S k)); [lia | none]].
  apply (at_most_bind Q 1 k).
  - destruct (negb DRY_RUN); [|apply (at_most_weaken Q 0 1); [lia | none]].
    apply (at_most_bind Q 1 0); [apply at_most_one_call | intros _]. none.
  - intros _. apply (at_most_bind Q 0 k); [none | intros _]. apply IH.
Qed.

Lemma click_prepare_once : always (at_most Q 1) (click_prepare E F DRY_RUN).
Proof.
  unfold click_prepare. cbv zeta.
  apply (at_most_bind Q 0 1); [none | intros _].
  apply (at_most_bind Q 0 1); [none | intros prepareBtn].
  destruct prepareBtn; [|apply (at_most_weaken Q 0 1); [lia | none]].
  apply (at_most_bind Q 0 1); [apply isDisabled_none | intros disabled].
  destruct (negb disabled); [|apply (at_most_weaken Q 0 1); [lia | none]].
  destruct (negb DRY_RUN); [|apply (at_most_weaken Q 0 1); [lia | none]].
  apply (at_most_bind Q 1 0); [apply at_most_one_call | intros _]. none.
Qed.

End AnyClick.

End SavedOnce.

Section SavedOnceClaims.

Import Driver.

Ltac zero :=
  apply at_most_none; form_unfold; unfold saveSelectors;
  cbn [click_save clickSweetConfirm]; form_unfold;
  repeat first [ reflexivity | trace_step ].

Lemma save_click_clicks_only (c : Page.Call) :
  match c with Page.Click _ => True | _ => save_click c = false end.
Proof. destruct c; first [exact I | reflexivity]. Qed.

Lemma confirm_click_clicks_only (c : Page.Call) :
  match c with Page.Click _ => True | _ => confirm_click c = false end.
Proof. destruct c; first [exact I | reflexivity]. Qed.

Lemma prepare_click_clicks_only (c : Page.Call) :
  match c with Page.Click _ => True | _ => prepare_click c = false end.
Proof. destruct c; first [exact I | reflexivity]. Qed.

Section Bounds.

Variable E : Outside.
Variable F : Form.
Variable DRY_RUN : bool.
Variable row : JS.object.

Lemma saves_at_most_once :
  always (at_most save_click 1) (fillTransactionPaymentForm E F DRY_RUN row).
Proof.
  unfold fillTransactionPaymentForm.
  do 12 (apply (at_most_bind save_click 0 1); [zero | intros _]).
  apply (at_most_bind save_click 1 0);
    [apply save_once, save_click_clicks_only | intros _].
  destruct DRY_RUN; zero.
Qed.

Lemma confirms_at_most_twice :
  always (at_most confirm_click 2) (fillTransactionPaymentForm E F DRY_RUN row).
Proof.
  unfold fillTransactionPaymentForm.
  do 12 (apply (at_most_bind confirm_click 0 2); [zero | intros _]).
  apply (at_most_bind confirm_click 0 2); [destruct DRY_RUN; zero | intros _].
  apply (at_most_bind confirm_click 0 2); [zero | intros _].
  unfold after_submit. cbv zeta.
  apply (at_most_try_catch confirm_click 2 0); [|intros e; zero].
  apply (at_most_bind confirm_click 2 0);
    [apply clickSweetConfirm_at_most, confirm_click_clicks_only | intros _].
  destruct DRY_RUN; zero.
Qed.

Lemma prepares_at_most_once :
  always (at_most prepare_click 1) (fillTransactionPaymentForm E F DRY_RUN row).
Proof.
  unfold fillTransactionPaymentForm.
  do 12 (apply (at_most_bind prepare_click 0 1); [zero | intros _]).
  apply (at_most_bind prepare_click 0 1); [destruct DRY_RUN; zero | intros _].
  apply (at_most_bind prepare_click 0 1); [zero | intros _].
  unfold after_submit. cbv zeta.
  apply (at_most_try_catch prepare_click 1 0); [|intros e; zero].
  apply (at_most_bind prepare_click 0 1); [destruct DRY_RUN; zero | intros _].
  apply (at_most_bind prepare_click 0 1); [zero | intros _].
  apply (at_most_bind prepare_click 0 1); [zero | intros ledgerEl].
  destruct ledgerEl; [|apply (at_most_weaken prepare_click 0 1); [lia | zero]].
  apply (at_most_bind prepare_click 0 1); [destruct DRY_RUN; zero | intros _].
  apply (at_most_bind prepare_click 1 0);
    [apply click_prepare_once, prepare_click_clicks_only | intros _].
  zero.
Qed.

End Bounds.

(** X21. One run of the form fill saves at most once: whatever the page
    shows or rejects, it clicks at most one of the save buttons (the generic
    submit counted among them), the SweetAlert confirm button at most twice,
    and the Prepare button at most once. *)
Theorem form_is_saved_at_most_once (E : Outside) (F : Form) (DRY_RUN : bool)
    (row : JS.object) (w : World) :
  exists calls,
    page (snd (fillTransactionPaymentForm E F DRY_RUN row w)) = (calls ++ page w)%list
    /\ count save_click calls <= 1
    /\ count confirm_click calls <= 2
    /\ count prepare_click calls <= 1.
Proof.
  destruct (saves_at_most_once E F DRY_RUN row w) as (calls & Hcalls & Hsave).
  destruct (confirms_at_most_twice E F DRY_RUN row w) as (l2 & Hl2 & Hconfirm).
  destruct (prepares_at_most_once E F DRY_RUN row w) as (l3 & Hl3 & Hprepare).
  rewrite Hcalls in Hl2, Hl3.
  apply app_inv_tail in Hl2. apply app_inv_tail in Hl3. subst l2 l3.
  exists calls. auto.
Qed.

(** A page on which every button is there and enabled: each is clicked as
    often as the bounds allow. *)
Definition eager_page : Outside :=
  {| browser :=
       {| Page.rejects := fun _ _ => None;
          Page.querySelector := fun _ _ => None;
          Page.select_values := fun _ _ _ => [];
          Page.handle := fun _ _ => true;
          Page.visible := fun _ _ => true;
          Page.url := fun _ => "https://up6.uniteerp.in/FAS/TransactionPayment" |};
     date_now := fun _ => "1730000000000";
     to_iso_date := fun _ => "";
     write_fails := fun _ => None |}.

Example the_bounds_are_reached :
  count save_click (page (snd (fillTransactionPaymentForm eager_page plain_form false
                                 [] start))) = 1
  /\ count confirm_click (page (snd (fillTransactionPaymentForm eager_page plain_form
                                       false [] start))) = 2
  /\ count prepare_click (page (snd (fillTransactionPaymentForm eager_page plain_form
                                       false [] start))) = 1.
Proof. repeat split; vm_compute; reflexivity. Qed.

End SavedOnceClaims.

Section Navigation.

Import Driver.

(** The address of the form (line 742). *)
Definition form_address : string :=
  "https://up6.uniteerp.in/FAS/TransactionPayment/TransactionPayment?formid=40004&moduleid=3".

(** A navigation goes to the login page or to the form. *)
Definition navigates_within (LOGIN_URL : string) (c : Page.Call) : Prop :=
  match c with
  | Page.Goto u => u = LOGIN_URL \/ u = form_address
  | _ => True
  end.

(** The same, of the page of the driver's state. *)
Definition only_in_state (P : Page.Call -> Prop) (s s' : State) : Prop :=
  only P (page (world s)) (page (world s')).

#[local] Instance only_in_state_preorder (P : Page.Call -> Prop) :
  PreOrder (only_in_state P).
Proof.
  split.
  - intros s. unfold only_in_state. reflexivity.
  - intros s1 s2 s3 H1 H2. unfold only_in_state in *.
    now transitivity (page (world s2)).
Qed.

Lemma only_state_on_world (P : Page.Call -> Prop) {A} (m : M World A) :
  always (only_in_world P) m -> always (only_in_state P) (on_world m).
Proof.
  intros Hm s. unfold on_world, only_in_state. specialize (Hm (world s)).
  destruct (m (world s)) as [r w]. exact Hm.
Qed.

Lemma only_state_writeRecords (P : Page.Call -> Prop) (E : Outside) (line : CsvRow) :
  always (only_in_state P) (writeRecords E line).
Proof.
  intros s. unfold writeRecords, only_in_state.
  destruct (write_fails E (length (writes s))); cbn; reflexivity.
Qed.

Lemma only_state_set_stateFile (P : Page.Call -> Prop) (f : string) :
  always (only_in_state P) (set_stateFile f).
Proof. intros s. unfold only_in_state. cbn. reflexivity. Qed.

Section Within.

Variable E : Outside.
Variable F : Form.
Variable DRY_RUN : bool.
Variable cfg : Settings.

Let P : Page.Call -> Prop := navigates_within (LOGIN_URL cfg).

Ltac nav_step :=
  match goal with
  | |- P _ => first [exact I | left; reflexivity | right; reflexivity]
  | |- navigates_within _ _ => first [exact I | left; reflexivity | right; reflexivity]
  | |- always _ (on_world _) => apply only_state_on_world
  | |- always _ (writeRecords _ _) => apply only_state_writeRecords
  | |- always _ (set_stateFile _) => apply only_state_set_stateFile
  | _ => trace_step
  end.

Lemma click_save_within (selectors : list string) :
  always (only_in_world P) (click_save E F selectors).
Proof.
  induction selectors as [|s rest IH]; cbn [click_save]; [apply (@always_ret _ _ _)|].
  destruct (s =? ""); [exact IH|].
  form_unfold. repeat nav_step; exact IH.
Qed.

Lemma clickSweetConfirm_within (remaining : nat) :
  forall i ms, always (only_in_world P) (clickSweetConfirm E DRY_RUN remaining i ms).
Proof.
  induction remaining as [|k IH]; intros i ms; cbn [clickSweetConfirm];
    [apply (@always_ret _ _ _)|].
  form_unfold. repeat nav_step; apply IH.
Qed.

Lemma fillTransactionPaymentForm_within (row : JS.object) :
  always (only_in_world P) (fillTransactionPaymentForm E F DRY_RUN row).
Proof.
  form_unfold.
  repeat first [ apply click_save_within | apply clickSweetConfirm_within | nav_step ].
Qed.

Lemma openFASAndFillForm_within (row : JS.object) :
  always (only_in_world P)
    (openFASAndFillForm E (fillTransactionPaymentForm E F DRY_RUN) row).
Proof.
  unfold openFASAndFillForm. cbv zeta.
  unfold Page.waitForSelector, Page.goto, Page.waitForLoadState, Page.waitForTimeout.
  repeat first [ apply fillTransactionPaymentForm_within
               | apply (@always_lift _ _ _)
               | nav_step ].
Qed.

Lemma attemptLogin_within (row : JS.object) :
  always (only_in_world P) (attemptLogin E row).
Proof.
  unfold attemptLogin, waitForManualCaptchaSolve. form_unfold. repeat nav_step.
Qed.

Lemma any_visible_within (selectors : list JS.value) :
  always (only P) (any_visible E selectors).
Proof.
  induction selectors as [|s rest IH]; cbn [any_visible]; [apply (@always_ret _ _ _)|].
  destruct (negb (JS.truthy s)); [exact IH|].
  form_unfold. repeat nav_step; exact IH.
Qed.

Lemma successHeuristic_within (url : string) :
  always (only P) (successHeuristic E url).
Proof.
  unfold successHeuristic. form_unfold.
  repeat first [ apply any_visible_within | nav_step ].
Qed.

Lemma login_attempts_within (row : JS.object) (remaining : nat) :
  forall attempt last,
    always (only_in_world P) (login_attempts E cfg remaining attempt last row).
Proof.
  induction remaining as [|k IH]; intros attempt last; cbn [login_attempts];
    [apply (@always_ret _ _ _)|].
  unfold attempt_body.
  repeat first [ apply attemptLogin_within | apply successHeuristic_within
               | apply IH | nav_step ].
Qed.

Lemma process_record_within (row : JS.object) :
  always (only_in_state P)
    (process_record E cfg (fillTransactionPaymentForm E F DRY_RUN) row).
Proof.
  unfold process_record, username_of, record_body, record_failed, finish_record,
    login_failed, logged_in, retry_login, now.
  form_unfold.
  repeat first [ apply login_attempts_within | apply openFASAndFillForm_within
               | nav_step ].
Qed.

Lemma run_rows_within (rows : list JS.object) :
  forall processed,
    always (only_in_state P)
      (run_rows E cfg (fillTransactionPaymentForm E F DRY_RUN) rows processed).
Proof.
  induction rows as [|row rest IH]; intros processed; cbn [run_rows];
    [apply (@always_ret _ _ _)|].
  destruct (cap_reached (MAX_ROWS cfg) processed); [apply (@always_ret _ _ _)|].
  apply (@always_bind _ _ _); [apply process_record_within | intros _; apply IH].
Qed.

End Within.

(** X22. Whatever the records hold, the driver navigates to two addresses
    only: the login page, at the start of each record, and the one form
    address of line 742. The [NextPage] and [FAS_URL] of a record and the
    global [FAS_URL] are never opened, though the results file names them as
    the target. *)
Theorem driver_opens_two_addresses_only (E : Outside) (F : Form) (DRY_RUN : bool)
    (cfg : Settings) (rows : list JS.object) (processed : Z) (s : State) :
  exists calls,
    page (world (snd (run_rows E cfg (fillTransactionPaymentForm E F DRY_RUN)
                        rows processed s)))
    = (calls ++ page (world s))%list
    /\ Forall (fun ev =>
                 forall u, call_of ev = Page.Goto u ->
                           u = LOGIN_URL cfg \/ u = form_address) calls.
Proof.
  destruct (run_rows_within E F DRY_RUN cfg rows processed s) as (calls & Hrun & Hall).
  exists calls. split; [exact Hrun|].
  eapply Forall_impl; [|exact Hall].
  intros ev Hev u Hu. cbv beta zeta in Hev. rewrite Hu in Hev. exact Hev.
Qed.

(** A record that names a next page: the page is not opened, and the line
    of the record names it as the target. *)
Definition with_next_page : JS.object :=
  [("UserName", JS.Str "asha"); ("Password", JS.Str "s3cret");
   ("Language", JS.Str ""); ("LoginDataTime", JS.Str "");
   ("ValidateCaptcha", JS.Str ""); ("NextPage", JS.Str "https://example.com/Next");
   ("Field1", JS.Str ""); ("Field2", JS.Str "")].

Definition dashboard : Outside :=
  {| browser :=
       {| Page.rejects := fun _ _ => None;
          Page.querySelector := fun _ _ => None;
          Page.select_values := fun _ _ _ => [];
          Page.handle := fun _ _ => false;
          Page.visible := fun _ _ => false;
          Page.url := fun _ => "https://example.com/Dashboard" |};
     date_now := fun _ => "1730000000000";
     to_iso_date := fun _ => "";
     write_fails := fun _ => None |}.

Example next_page_is_reported_not_opened :
  map targetUrl
      (csv (snd (run_rows dashboard (settings (Int 1))
                   (fillTransactionPaymentForm dashboard plain_form true)
                   [with_next_page] 0 init)))
  = ["https://example.com/Next"]
  /\ filter (fun ev => match call_of ev with Page.Goto _ => true | _ => false end)
            (page (world (snd (run_rows dashboard (settings (Int 1))
                                 (fillTransactionPaymentForm dashboard plain_form true)
                                 [with_next_page] 0 init))))
     = [Page.Resolved (Page.Goto form_address) [];
        Page.Resolved (Page.Goto "https://example.com/Home") []].
Proof. split; vm_compute; reflexivity. Qed.

End Navigation.

Section LoginFirst.

Import Driver.

Variable E : Outside.
Variable F : Form.
Variable DRY_RUN : bool.
Variable cfg : Settings.

Let P : Page.Call -> Prop := navigates_within (LOGIN_URL cfg).

#[local] Existing Instance only_in_state_preorder.

Ltac within_step :=
  match goal with
  | |- P _ => first [exact I | left; reflexivity | right; reflexivity]
  | |- navigates_within _ _ => first [exact I | left; reflexivity | right; reflexivity]
  | |- always _ (on_world _) => apply only_state_on_world
  | |- always _ (writeRecords _ _) => apply only_state_writeRecords
  | |- always _ (set_stateFile _) => apply only_state_set_stateFile
  | |- always _ (login_attempts _ _ _ _ _ _) => apply login_attempts_within
  | |- always _ (openFASAndFillForm _ _ _) => apply openFASAndFillForm_within
  | _ => trace_step
  end.

Lemma record_failed_within (name : string) (err : JS.error) :
  always (only_in_state P) (record_failed E cfg name err).
Proof. unfold record_failed, now. form_unfold. repeat within_step. Qed.

(** The calls of a record after the first. *)
Lemma record_body_starts (name : string) (row : JS.object) (s : State) :
  exists calls,
    page (world (snd (record_body E cfg (fillTransactionPaymentForm E F DRY_RUN)
                        name row s)))
    = (calls ++ event_of (browser E) (page (world s)) (Page.Goto (LOGIN_URL cfg)) []
             :: page (world s))%list.
Proof.
  unfold record_body. unfold bind at 1. cbn [on_world appendLog modify world].
  unfold bind at 1. unfold on_world at 1. cbn [world]. unfold Driver.on_page at 1.
  cbn [page]. unfold Page.goto. rewrite or_else_perform.
  match goal with
  | |- context [bind ?m ?k ?s2] =>
      assert (Hrest : always (only_in_state P) (bind m k));
      [ | destruct (Hrest s2) as (calls & Hcalls & _) ]
  end.
  { unfold finish_record, login_failed, logged_in, retry_login, now. form_unfold.
    repeat within_step. }
  exists calls. exact Hcalls.
Qed.

End LoginFirst.

Section LoginFirstClaims.

Import Driver.

(** X23. Every record starts at the login page: the first call that
    [main] makes on the page for a record is the navigation to [LOGIN_URL],
    whether or not the record before it was left logged in; all other calls of
    the record come after it. *)
Theorem each_record_starts_at_the_login_page (E : Outside) (F : Form)
    (DRY_RUN : bool) (cfg : Settings) (row : JS.object) (s : State) :
  exists calls,
    page (world (snd (process_record E cfg (fillTransactionPaymentForm E F DRY_RUN)
                        row s)))
    = (calls
       ++ [event_of (browser E) (page (world s)) (Page.Goto (LOGIN_URL cfg)) []]
       ++ page (world s))%list.
Proof.
  unfold process_record. unfold bind at 1.
  assert (Hname : exists name,
             on_world (username_of E row) s
             = (Ok name, {| world := world s; writes := writes s;
                            the_stateFile := the_stateFile s |})).
  { unfold on_world, username_of. destruct (JS.truthy (JS.get row "UserName"));
      eexists; reflexivity. }
  destruct Hname as [name Hname]. rewrite Hname.
  unfold bind at 1. cbn [set_stateFile modify world writes].
  match goal with |- context [try_catch ?m ?h ?s1] => set (s1' := s1) end.
  destruct (record_body_starts E F DRY_RUN cfg name row s1') as (calls & Hcalls).
  unfold try_catch.
  destruct (record_body E cfg (fillTransactionPaymentForm E F DRY_RUN) name row s1')
    as [[[]|e] s2]; cbn [snd] in *.
  - exists calls. exact Hcalls.
  - destruct (record_failed_within E cfg name e s2) as (more & Hmore & _).
    exists (more ++ calls)%list. rewrite Hmore, Hcalls. now rewrite <- app_assoc.
Qed.

End LoginFirstClaims.

(** ** What the driver reads of a record *)

Section Columns.

Import Driver.

(** Two computations that run alike. *)
Definition alike {S A} (m m' : M S A) : Prop := forall s, m s = m' s.

Lemma alike_refl {S A} (m : M S A) : alike m m.
Proof. intros s. reflexivity. Qed.

Lemma alike_bind {S A C} (m m' : M S A) (k k' : A -> M S C) :
  alike m m' -> (forall a, alike (k a) (k' a)) -> alike (bind m k) (bind m' k').
Proof.
  intros Hm Hk s. unfold bind. rewrite (Hm s).
  destruct (m' s) as [[a|e] s1]; [apply Hk | reflexivity].
Qed.

Lemma alike_try_catch {S A} (m m' : M S A) (h h' : JS.error -> M S A) :
  alike m m' -> (forall e, alike (h e) (h' e)) ->
  alike (try_catch m h) (try_catch m' h').
Proof.
  intros Hm Hh s. unfold try_catch. rewrite (Hm s).
  destruct (m' s) as [[a|e] s1]; [reflexivity | apply Hh].
Qed.

Lemma alike_on_world {A} (m m' : M World A) :
  alike m m' -> alike (on_world m) (on_world m').
Proof. intros Hm s. unfold on_world. now rewrite (Hm (world s)). Qed.

(** The columns of a record that the driver reads. *)
Definition columns_read : list string :=
  ["UserName"; "Password"; "LoginDataTime"; "FAS_URL"; "NextPage"].

(** The two records agree on them. *)
Definition agree (row row' : JS.object) : Prop :=
  forall k, In k columns_read -> JS.get row k = JS.get row' k.

Section Agree.

Variable E : Outside.
Variable F : Form.
Variable DRY_RUN : bool.
Variable cfg : Settings.
Variables row row' : JS.object.
Hypothesis same_columns : agree row row'.

Lemma agree_UserName : JS.get row "UserName" = JS.get row' "UserName".
Proof. apply same_columns. cbn. tauto. Qed.

Lemma agree_Password : JS.get row "Password" = JS.get row' "Password".
Proof. apply same_columns. cbn. tauto. Qed.

Lemma agree_LoginDataTime : JS.get row "LoginDataTime" = JS.get row' "LoginDataTime".
Proof. apply same_columns. cbn. tauto. Qed.

Lemma agree_FAS_URL : JS.get row "FAS_URL" = JS.get row' "FAS_URL".
Proof. apply same_columns. cbn. tauto. Qed.

Lemma agree_NextPage : JS.get row "NextPage" = JS.get row' "NextPage".
Proof. apply same_columns. cbn. tauto. Qed.

Lemma attemptLogin_agree : attemptLogin E row = attemptLogin E row'.
Proof.
  unfold attemptLogin.
  now rewrite agree_UserName, agree_Password, agree_LoginDataTime.
Qed.

Lemma login_attempts_agree (remaining : nat) :
  forall attempt last,
    alike (login_attempts E cfg remaining attempt last row)
          (login_attempts E cfg remaining attempt last row').
Proof.
  induction remaining as [|k IH]; intros attempt last; cbn [login_attempts];
    [apply alike_refl|].
  unfold attempt_body. rewrite attemptLogin_agree.
  apply alike_bind; [apply alike_refl | intros r].
  destruct (fst r); [apply alike_refl | apply IH].
Qed.

Lemma process_record_agree :
  alike (process_record E cfg (fillTransactionPaymentForm E F DRY_RUN) row)
        (process_record E cfg (fillTransactionPaymentForm E F DRY_RUN) row').
Proof.
  unfold process_record, username_of. rewrite agree_UserName.
  apply alike_bind; [apply alike_refl | intros name].
  apply alike_bind; [apply alike_refl | intros _].
  apply alike_try_catch; [|intros e; apply alike_refl].
  unfold record_body.
  do 5 (apply alike_bind; [apply alike_refl | intros _]).
  apply alike_bind;
    [apply alike_on_world; unfold retry_login; apply login_attempts_agree | intros r].
  unfold finish_record. destruct (negb (fst r)); [apply alike_refl|].
  unfold logged_in. rewrite agree_FAS_URL, agree_NextPage.
  apply alike_refl.
Qed.

End Agree.

(** X24. Of a record, the driver reads five columns and no other:
    [UserName], [Password] and [LoginDataTime] for the login, [FAS_URL] and
    [NextPage] for the target it reports. Two spreadsheets whose records
    agree on these five get the same run: the same calls on the page, the same
    log and the same lines in the results file; [Language],
    [ValidateCaptcha], [Field1] and [Field2] change nothing. *)
Theorem driver_reads_five_columns (E : Outside) (F : Form) (DRY_RUN : bool)
    (cfg : Settings) (rows rows' : list JS.object) (processed : Z) (s : State) :
  Forall2 (fun row row' =>
             forall k, In k ["UserName"; "Password"; "LoginDataTime"; "FAS_URL";
                             "NextPage"] ->
                       JS.get row k = JS.get row' k) rows rows' ->
  run_rows E cfg (fillTransactionPaymentForm E F DRY_RUN) rows processed s
  = run_rows E cfg (fillTransactionPaymentForm E F DRY_RUN) rows' processed s.
Proof.
  intros Hrows. revert processed s.
  induction Hrows as [|row row' rest rest' Hrow _ IH]; intros processed s;
    [reflexivity|].
  cbn [run_rows]. destruct (cap_reached (MAX_ROWS cfg) processed); [reflexivity|].
  apply alike_bind; [now apply process_record_agree | intros _ s'; apply IH].
Qed.

Definition asha_in_hindi : JS.object :=
  [("UserName", JS.Str "asha"); ("Password", JS.Str "s3cret");
   ("Language", JS.Str "Hindi"); ("LoginDataTime", JS.Str "");
   ("ValidateCaptcha", JS.Str "x7k2"); ("NextPage", JS.Str "");
   ("Field1", JS.Str "one"); ("Field2", JS.Str "two")].

Lemma driver_reads_five_columns_witness :
  run_rows stuck (settings (Int 2)) (fillTransactionPaymentForm stuck plain_form false)
    [asha] 0 init
  = run_rows stuck (settings (Int 2)) (fillTransactionPaymentForm stuck plain_form false)
      [asha_in_hindi] 0 init.
Proof.
  apply driver_reads_five_columns. constructor; [|constructor].
  intros k [<-|[<-|[<-|[<-|[<-|[]]]]]]; reflexivity.
Defined.

End Columns.

Section LoginPauses.

Import Driver.

(** A pause is one of ten seconds. *)
Definition ten_seconds (c : Page.Call) : Prop :=
  match c with
  | Page.WaitForTimeout ms => ms = 10000%Z
  | _ => True
  end.

Ltac pause_step :=
  match goal with
  | |- ten_seconds _ => first [exact I | reflexivity]
  | _ => trace_step
  end.

Lemma attemptLogin_ten_seconds (E : Outside) (row : JS.object) :
  always (only_in_world ten_seconds) (attemptLogin E row).
Proof.
  unfold attemptLogin, waitForManualCaptchaSolve. form_unfold. repeat pause_step.
Qed.

(** X25. Every pause of a login attempt is the ten seconds left for the
    captcha, and the attempt can fail there only: as long as neither the query
    for the captcha image nor that pause is rejected, [attemptLogin] returns,
    whatever became of the fills, of the navigation and of the click on the
    login button. *)
Theorem attemptLogin_fails_only_at_the_captcha (E : Outside) (row : JS.object)
    (w : World) :
  (exists calls,
      page (snd (attemptLogin E row w)) = (calls ++ page w)%list
      /\ Forall (fun ev => forall ms, call_of ev = Page.WaitForTimeout ms ->
                                      ms = 10000%Z) calls)
  /\ ((forall n, Page.rejects (browser E) n (Page.Query "#imgcapt") = None) ->
      (forall n, Page.rejects (browser E) n (Page.WaitForTimeout 10000) = None) ->
      exists w', attemptLogin E row w = (Ok tt, w')).
Proof.
  split.
  - destruct (attemptLogin_ten_seconds E row w) as (calls & Hrun & Hall).
    exists calls. split; [exact Hrun|].
    eapply Forall_impl; [|exact Hall].
    intros ev Hev ms Hms. cbv beta in Hev. rewrite Hms in Hev. exact Hev.
  - intros Hquery Hpause.
    assert (Ht : total (attemptLogin E row)).
    { unfold attemptLogin, waitForManualCaptchaSolve.
      change (JS.to_string (sel "captchaImage" "#CaptchaImage, img.captcha"))
        with "#imgcapt".
      repeat match goal with
             | |- total (bind _ _) => apply total_bind; [ | intros ? ]
             | |- total (ret _) => apply total_ret
             | |- total (Driver.on_page (Page.query _ _)) =>
                 apply total_driver_on_page; intros ?; unfold Page.query;
                 rewrite perform_run, Hquery; eexists; reflexivity
             | |- total (Driver.on_page (Page.waitForTimeout _ _)) =>
                 apply total_driver_on_page; intros ?; unfold Page.waitForTimeout;
                 rewrite perform_run, Hpause; eexists; reflexivity
             | |- total (Driver.on_page _) => apply total_driver_on_page
             | |- total (or_else _ _) => apply total_or_else
             | |- total (appendLog _) => apply total_appendLog
             | |- total (console_log _) => apply total_console_log
             | |- total (if ?c then _ else _) => destruct c
             | |- total (safeFill _ _ _ _) =>
                 intros ?; rewrite driver_safeFill_run; cbn zeta;
                 match goal with |- context [if ?c then _ else _] => destruct c end;
                 eexists; reflexivity
             end. }
    destruct (Ht w) as [[] H].
    destruct (attemptLogin E row w) as [r w']. cbn in H. subst r. now exists w'.
Qed.

Lemma attemptLogin_fails_only_at_the_captcha_witness :
  exists w', attemptLogin stuck asha start = (Ok tt, w').
Proof.
  apply (proj2 (attemptLogin_fails_only_at_the_captcha stuck asha start)).
  - intros n. reflexivity.
  - intros n. reflexivity.
Defined.

End LoginPauses.

(** ** The program from its start *)

Section EntryPoint.

Import Driver.

(** The first line of the log. *)
Definition starting (HEADLESS DRY_RUN : bool) : string :=
  "Starting automation. HEADLESS=" ++ JS.to_string (JS.Bool HEADLESS)
  ++ " DRY_RUN=" ++ JS.to_string (JS.Bool DRY_RUN).





End EntryPoint.
